(** * EximGPT front end: coordination core

    A shallow embedding of the source units of the front end that
    coordinate tabs, connections, cached replies and sessions, with
    the properties their design document states about them:

    - [ResponseCacheService]   (src/services/ResponseCacheService.js)
    - [SharedWebSocketService] (services/SharedWebSocketService.js)
    - [useChatSessions]        (hooks/useChatSessions.js)
    - [useWebSocket]           (hooks/useWebSocket.js)
    - [Layout]                 (layouts/Layout.jsx, what [handleSend] sends)

    The services are stateful JavaScript.  They are embedded in a small
    state-and-exception monad over an explicit browser state
    (localStorage, the clock, the broadcast channel, sockets, timers).
    JSON text is parsed and printed by executable functions that follow
    the JSON grammar, so the storage really holds strings. *)

From Stdlib Require Import ZArith String Ascii List Bool Lia DecimalString.
From Stdlib Require DecimalPos DecimalFacts.
From stdpp Require Import base option list gmap strings.

Import ListNotations.
Local Open Scope string_scope.
Local Open Scope Z_scope.
Set Warnings "-register-all".

(* ===================================================================== *)
(** * JavaScript values that reach the services *)
(* ===================================================================== *)

(** Values produced by [JSON.parse].  Numbers are the integer-valued
    doubles (every number the services write is a [Date.now()] value);
    an object is its list of own properties in property order. *)
Inductive json : Type :=
| JNull
| JBool (b : bool)
| JNum (n : Z)
| JStr (s : string)
| JArr (items : list json)
| JObj (fields : list (string * json)).

(** A JavaScript value where [undefined] can occur: the result of a
    property read or of [localStorage.getItem]. *)
Definition jsval := option json.
Definition undefined : jsval := None.

(** Exceptions the modelled code can raise. *)
Inductive JsError := SyntaxError | TypeError | InvalidStateError.

(** JavaScript numbers as far as the services compute with them. *)
Inductive jsnum := Num (n : Z) | NaN.

Module JSON.

(** ** Objects as ordered property lists *)

Fixpoint get (k : string) (o : list (string * json)) : jsval :=
  match o with
  | [] => None
  | (k', v) :: o' => if String.eqb k k' then Some v else get k o'
  end.

(** Defining a property keeps the position of an existing key and
    appends a new one. *)
Fixpoint set (k : string) (v : json) (o : list (string * json))
  : list (string * json) :=
  match o with
  | [] => [(k, v)]
  | (k', v') :: o' =>
      if String.eqb k k' then (k', v) :: o' else (k', v') :: set k v o'
  end.

Definition is_digit (c : ascii) : bool :=
  let n := N_of_ascii c in (48 <=? n)%N && (n <=? 57)%N.

Fixpoint all_digits (s : string) : bool :=
  match s with
  | EmptyString => true
  | String c r => is_digit c && all_digits r
  end.

(** Keys that look like array indices are enumerated first by the
    engine, whatever their insertion order; property lists with such
    keys only arise here from arrays and strings, in index order. *)
Definition index_like (k : string) : bool :=
  negb (String.eqb k "") && all_digits k.

(** ** Parsing *)

(** Outcome of a parser: a value and the unread input, a syntax error
    ([JSON.parse] throws [SyntaxError]), or text that is not
    interpreted because a value lies outside the fragment modelled by
    [json] (fractions, exponents, integers beyond 2^53, escapes of
    non-ASCII code units, index-like object keys).  The parsers of the
    parts stop at the first such value; [parse] below reads the whole
    text against the grammar before it answers so. *)
Inductive parsed (A : Type) :=
| POk (a : A) (rest : string)
| PSyntax
| PUnsupported.
Arguments POk {A} a rest.
Arguments PSyntax {A}.
Arguments PUnsupported {A}.

Definition is_ws (c : ascii) : bool :=
  let n := N_of_ascii c in
  (n =? 32)%N || (n =? 9)%N || (n =? 10)%N || (n =? 13)%N.

Fixpoint skip_ws (s : string) : string :=
  match s with
  | String c r => if is_ws c then skip_ws r else s
  | EmptyString => s
  end.

Definition hex_val (c : ascii) : option N :=
  let n := N_of_ascii c in
  if (48 <=? n)%N && (n <=? 57)%N then Some (n - 48)%N
  else if (97 <=? n)%N && (n <=? 102)%N then Some (n - 87)%N
  else if (65 <=? n)%N && (n <=? 70)%N then Some (n - 55)%N
  else None.

Definition hex4 (a b c d : ascii) : option N :=
  match hex_val a, hex_val b, hex_val c, hex_val d with
  | Some x, Some y, Some z, Some w => Some (((x * 16 + y) * 16 + z) * 16 + w)%N
  | _, _, _, _ => None
  end.

Definition simple_escape (c : ascii) : option ascii :=
  if Ascii.eqb c "034" then Some "034"%char
  else if Ascii.eqb c "\" then Some "\"%char
  else if Ascii.eqb c "/" then Some "/"%char
  else if Ascii.eqb c "b" then Some (ascii_of_N 8)
  else if Ascii.eqb c "f" then Some (ascii_of_N 12)
  else if Ascii.eqb c "n" then Some (ascii_of_N 10)
  else if Ascii.eqb c "r" then Some (ascii_of_N 13)
  else if Ascii.eqb c "t" then Some (ascii_of_N 9)
  else None.

(** The characters of a string literal, after its opening quote. *)
Fixpoint parse_chars (s : string) : parsed string :=
  match s with
  | EmptyString => PSyntax
  | String c r =>
      if Ascii.eqb c "034" then POk "" r
      else if Ascii.eqb c "\" then
        match r with
        | EmptyString => PSyntax
        | String e r1 =>
            if Ascii.eqb e "u" then
              match r1 with
              | String h1 (String h2 (String h3 (String h4 r2))) =>
                  match hex4 h1 h2 h3 h4 with
                  | None => PSyntax
                  | Some n =>
                      if (n <? 128)%N then
                        match parse_chars r2 with
                        | POk t r' => POk (String (ascii_of_N n) t) r'
                        | PSyntax => PSyntax
                        | PUnsupported => PUnsupported
                        end
                      else PUnsupported
                  end
              | _ => PSyntax
              end
            else
              match simple_escape e with
              | None => PSyntax
              | Some x =>
                  match parse_chars r1 with
                  | POk t r' => POk (String x t) r'
                  | PSyntax => PSyntax
                  | PUnsupported => PUnsupported
                  end
              end
        end
      else if (N_of_ascii c <? 32)%N then PSyntax
      else
        match parse_chars r with
        | POk t r' => POk (String c t) r'
        | PSyntax => PSyntax
        | PUnsupported => PUnsupported
        end
  end.

(** Leading digits of the input as a number, and the rest. *)
Fixpoint parse_digits (acc : Z) (s : string) : Z * string :=
  match s with
  | String c r =>
      if is_digit c
      then parse_digits (acc * 10 + Z.of_N (N_of_ascii c - 48)) r
      else (acc, s)
  | EmptyString => (acc, s)
  end.

Definition starts_fraction (s : string) : bool :=
  match s with
  | String c _ => Ascii.eqb c "." || Ascii.eqb c "e" || Ascii.eqb c "E"
  | EmptyString => false
  end.

Definition MAX_SAFE_INTEGER : Z := 2 ^ 53.

(** An unsigned integer literal: [0], or a nonzero digit and digits.
    A literal that goes on with a fraction or an exponent is not
    interpreted here, whether it is well-formed or not. *)
Definition parse_nat_lit (s : string) : parsed Z :=
  match s with
  | String c r =>
      if is_digit c then
        let '(n, r') := if Ascii.eqb c "0" then (0, r) else parse_digits 0 s in
        if starts_fraction r' then PUnsupported
        else if MAX_SAFE_INTEGER <? n then PUnsupported
        else POk n r'
      else PSyntax
  | EmptyString => PSyntax
  end.

Definition parse_number (s : string) : parsed Z :=
  match s with
  | String c r =>
      if Ascii.eqb c "-" then
        match parse_nat_lit r with
        | POk n r' => POk (- n) r'
        | PSyntax => PSyntax
        | PUnsupported => PUnsupported
        end
      else parse_nat_lit s
  | EmptyString => PSyntax
  end.

(** The input after a leading [c], if it starts with [c]. *)
Definition after_char (c : ascii) (s : string) : option string :=
  match s with
  | String x r => if Ascii.eqb x c then Some r else None
  | EmptyString => None
  end.

Definition expect_lit (lit : string) (v : json) (s : string) : parsed json :=
  if String.prefix lit s
  then POk v (String.substring (String.length lit)
                               (String.length s - String.length lit) s)
  else PSyntax.

(** Object members are defined one after another, so a repeated key
    keeps its first position and its last value. *)
Definition define_all (ms : list (string * json)) : list (string * json) :=
  fold_left (fun o kv => set (fst kv) (snd kv) o) ms [].

Fixpoint parse_value (fuel : nat) (s : string) : parsed json :=
  match fuel with
  | O => PUnsupported
  | S fuel' =>
      match skip_ws s with
      | EmptyString => PSyntax
      | String c r as t =>
          if Ascii.eqb c "n" then expect_lit "null" JNull t
          else if Ascii.eqb c "t" then expect_lit "true" (JBool true) t
          else if Ascii.eqb c "f" then expect_lit "false" (JBool false) t
          else if Ascii.eqb c "034" then
            match parse_chars r with
            | POk str r' => POk (JStr str) r'
            | PSyntax => PSyntax
            | PUnsupported => PUnsupported
            end
          else if Ascii.eqb c "[" then
            match after_char "]" (skip_ws r) with
            | Some r' => POk (JArr []) r'
            | None =>
                match parse_elements fuel' r with
                | POk vs r' => POk (JArr vs) r'
                | PSyntax => PSyntax
                | PUnsupported => PUnsupported
                end
            end
          else if Ascii.eqb c "{" then
            match after_char "}" (skip_ws r) with
            | Some r' => POk (JObj []) r'
            | None =>
                match parse_members fuel' r with
                | POk ms r' =>
                    if existsb (fun kv => index_like (fst kv)) ms
                    then PUnsupported
                    else POk (JObj (define_all ms)) r'
                | PSyntax => PSyntax
                | PUnsupported => PUnsupported
                end
            end
          else
            match parse_number t with
            | POk n r' => POk (JNum n) r'
            | PSyntax => PSyntax
            | PUnsupported => PUnsupported
            end
      end
  end

with parse_elements (fuel : nat) (s : string) : parsed (list json) :=
  match fuel with
  | O => PUnsupported
  | S fuel' =>
      match parse_value fuel' s with
      | POk v r =>
          match after_char "," (skip_ws r) with
          | Some r' =>
              match parse_elements fuel' r' with
              | POk vs r'' => POk (v :: vs) r''
              | PSyntax => PSyntax
              | PUnsupported => PUnsupported
              end
          | None =>
              match after_char "]" (skip_ws r) with
              | Some r' => POk [v] r'
              | None => PSyntax
              end
          end
      | PSyntax => PSyntax
      | PUnsupported => PUnsupported
      end
  end

with parse_members (fuel : nat) (s : string) : parsed (list (string * json)) :=
  match fuel with
  | O => PUnsupported
  | S fuel' =>
      match after_char "034" (skip_ws s) with
      | Some r =>
          match parse_chars r with
          | POk k r1 =>
              match after_char ":" (skip_ws r1) with
              | Some r2 =>
                  match parse_value fuel' r2 with
                  | POk v r3 =>
                      match after_char "," (skip_ws r3) with
                      | Some r4 =>
                          match parse_members fuel' r4 with
                          | POk ms r5 => POk ((k, v) :: ms) r5
                          | PSyntax => PSyntax
                          | PUnsupported => PUnsupported
                          end
                      | None =>
                          match after_char "}" (skip_ws r3) with
                          | Some r4 => POk [(k, v)] r4
                          | None => PSyntax
                          end
                      end
                  | PSyntax => PSyntax
                  | PUnsupported => PUnsupported
                  end
              | None => PSyntax
              end
          | PSyntax => PSyntax
          | PUnsupported => PUnsupported
          end
      | None => PSyntax
      end
  end.

(** ** The grammar *)

(** Where a reader of JSON text stands: before a value, an element or
    a key, inside a string, a literal or a number, or after a value. *)
Inductive Lex :=
| BeforeValue
| BeforeFirstElement
| BeforeFirstKey
| BeforeKey
| BeforeColon
| AfterValue
| InString (key : bool)
| InEscape (key : bool)
| InUnicode (key : bool) (more : nat)
| InLiteral (rest : string)
| AfterMinus
| AfterZero
| InInt
| AfterPoint
| InFraction
| AfterE
| AfterESign
| InExponent.

(** The open containers, innermost first. *)
Inductive Container := InArray | InObject.

Definition is_exp (c : ascii) : bool := Ascii.eqb c "e" || Ascii.eqb c "E".

Definition is_hex (c : ascii) : bool :=
  match hex_val c with Some _ => true | None => false end.

(** Reading [c] after a complete value. *)
Definition after_value (stack : list Container) (c : ascii)
  : option (Lex * list Container) :=
  if is_ws c then Some (AfterValue, stack)
  else if Ascii.eqb c "," then
    match stack with
    | InArray :: _ => Some (BeforeValue, stack)
    | InObject :: _ => Some (BeforeKey, stack)
    | [] => None
    end
  else if Ascii.eqb c "]" then
    match stack with
    | InArray :: outer => Some (AfterValue, outer)
    | _ => None
    end
  else if Ascii.eqb c "}" then
    match stack with
    | InObject :: outer => Some (AfterValue, outer)
    | _ => None
    end
  else None.

(** Reading [c] where a value must start. *)
Definition value_start (stack : list Container) (c : ascii)
  : option (Lex * list Container) :=
  if is_ws c then Some (BeforeValue, stack)
  else if Ascii.eqb c "034" then Some (InString false, stack)
  else if Ascii.eqb c "[" then Some (BeforeFirstElement, InArray :: stack)
  else if Ascii.eqb c "{" then Some (BeforeFirstKey, InObject :: stack)
  else if Ascii.eqb c "n" then Some (InLiteral "ull", stack)
  else if Ascii.eqb c "t" then Some (InLiteral "rue", stack)
  else if Ascii.eqb c "f" then Some (InLiteral "alse", stack)
  else if Ascii.eqb c "-" then Some (AfterMinus, stack)
  else if Ascii.eqb c "0" then Some (AfterZero, stack)
  else if is_digit c then Some (InInt, stack)
  else None.

Definition step (st : Lex) (stack : list Container) (c : ascii)
  : option (Lex * list Container) :=
  match st with
  | BeforeValue => value_start stack c
  | BeforeFirstElement =>
      if is_ws c then Some (BeforeFirstElement, stack)
      else if Ascii.eqb c "]" then
        match stack with
        | InArray :: outer => Some (AfterValue, outer)
        | _ => None
        end
      else value_start stack c
  | BeforeFirstKey =>
      if is_ws c then Some (BeforeFirstKey, stack)
      else if Ascii.eqb c "}" then
        match stack with
        | InObject :: outer => Some (AfterValue, outer)
        | _ => None
        end
      else if Ascii.eqb c "034" then Some (InString true, stack)
      else None
  | BeforeKey =>
      if is_ws c then Some (BeforeKey, stack)
      else if Ascii.eqb c "034" then Some (InString true, stack)
      else None
  | BeforeColon =>
      if is_ws c then Some (BeforeColon, stack)
      else if Ascii.eqb c ":" then Some (BeforeValue, stack)
      else None
  | AfterValue => after_value stack c
  | InString key =>
      if Ascii.eqb c "034" then Some (if key then BeforeColon else AfterValue, stack)
      else if Ascii.eqb c "\" then Some (InEscape key, stack)
      else if (N_of_ascii c <? 32)%N then None
      else Some (InString key, stack)
  | InEscape key =>
      if Ascii.eqb c "u" then Some (InUnicode key 3, stack)
      else
        match simple_escape c with
        | Some _ => Some (InString key, stack)
        | None => None
        end
  | InUnicode key more =>
      if is_hex c then
        match more with
        | O => Some (InString key, stack)
        | S more' => Some (InUnicode key more', stack)
        end
      else None
  | InLiteral rest =>
      match rest with
      | String x EmptyString => if Ascii.eqb c x then Some (AfterValue, stack) else None
      | String x rest' => if Ascii.eqb c x then Some (InLiteral rest', stack) else None
      | EmptyString => None
      end
  | AfterMinus =>
      if Ascii.eqb c "0" then Some (AfterZero, stack)
      else if is_digit c then Some (InInt, stack)
      else None
  | AfterZero =>
      if Ascii.eqb c "." then Some (AfterPoint, stack)
      else if is_exp c then Some (AfterE, stack)
      else after_value stack c
  | InInt =>
      if is_digit c then Some (InInt, stack)
      else if Ascii.eqb c "." then Some (AfterPoint, stack)
      else if is_exp c then Some (AfterE, stack)
      else after_value stack c
  | AfterPoint => if is_digit c then Some (InFraction, stack) else None
  | InFraction =>
      if is_digit c then Some (InFraction, stack)
      else if is_exp c then Some (AfterE, stack)
      else after_value stack c
  | AfterE =>
      if Ascii.eqb c "+" || Ascii.eqb c "-" then Some (AfterESign, stack)
      else if is_digit c then Some (InExponent, stack)
      else None
  | AfterESign => if is_digit c then Some (InExponent, stack) else None
  | InExponent =>
      if is_digit c then Some (InExponent, stack) else after_value stack c
  end.

(** The text may end here. *)
Definition complete (st : Lex) (stack : list Container) : bool :=
  match stack, st with
  | [], (AfterValue | AfterZero | InInt | InFraction | InExponent) => true
  | _, _ => false
  end.

Fixpoint accepts (st : Lex) (stack : list Container) (s : string) : bool :=
  match s with
  | EmptyString => complete st stack
  | String c r =>
      match step st stack c with
      | Some (st', stack') => accepts st' stack' r
      | None => false
      end
  end.

(** The text is one JSON value, surrounded by optional white space. *)
Definition well_formed (text : string) : bool := accepts BeforeValue [] text.

(** [JSON.parse(text)].  Text that the parsers above do not interpret
    is a syntax error unless it is well-formed JSON: [1.] and
    [1. text] throw, [1.5] is a number outside the fragment. *)
Definition parse (text : string) : parsed json :=
  match parse_value (2 * String.length text + 2) text with
  | POk v r =>
      match skip_ws r with
      | EmptyString => POk v ""
      | String _ _ => PSyntax
      end
  | PSyntax => PSyntax
  | PUnsupported => if well_formed text then PUnsupported else PSyntax
  end.

(** ** Printing *)

Definition hex_digit (n : N) : ascii :=
  if (n <? 10)%N then ascii_of_N (48 + n) else ascii_of_N (87 + n).

(** [JSON.stringify] escapes the quote, the backslash and the control
    characters, the latter with a short escape where there is one. *)
Definition escape_char (c : ascii) : string :=
  let n := N_of_ascii c in
  if (n =? 34)%N then String "\" (String "034" "")
  else if (n =? 92)%N then "\\"
  else if (n =? 8)%N then "\b"
  else if (n =? 12)%N then "\f"
  else if (n =? 10)%N then "\n"
  else if (n =? 13)%N then "\r"
  else if (n =? 9)%N then "\t"
  else if (n <? 32)%N
       then "\u00" ++ String (hex_digit (n / 16)) (String (hex_digit (n mod 16)) "")
  else String c "".

Fixpoint escape (s : string) : string :=
  match s with
  | EmptyString => ""
  | String c r => escape_char c ++ escape r
  end.

Definition quote (s : string) : string :=
  String "034" (escape s ++ String "034" "").

Definition string_of_Z (n : Z) : string :=
  NilZero.string_of_int (Z.to_int n).

Fixpoint join (sep : string) (l : list string) : string :=
  match l with
  | [] => ""
  | [x] => x
  | x :: l' => x ++ sep ++ join sep l'
  end.

(** [JSON.stringify(value)] without indentation. *)
Fixpoint stringify (v : json) : string :=
  match v with
  | JNull => "null"
  | JBool true => "true"
  | JBool false => "false"
  | JNum n => string_of_Z n
  | JStr s => quote s
  | JArr items => "[" ++ join "," (List.map stringify items) ++ "]"
  | JObj fields =>
      "{" ++ join "," (List.map (fun kv => quote (fst kv) ++ ":" ++ stringify (snd kv))
                                fields) ++ "}"
  end.

(** ** Values that printing and parsing preserve *)

(** The number a digit sequence denotes, continuing from [acc]. *)
Fixpoint digits_value (acc : Z) (d : Decimal.uint) : Z :=
  match d with
  | Decimal.Nil => acc
  | Decimal.D0 d' => digits_value (acc * 10) d'
  | Decimal.D1 d' => digits_value (acc * 10 + 1) d'
  | Decimal.D2 d' => digits_value (acc * 10 + 2) d'
  | Decimal.D3 d' => digits_value (acc * 10 + 3) d'
  | Decimal.D4 d' => digits_value (acc * 10 + 4) d'
  | Decimal.D5 d' => digits_value (acc * 10 + 5) d'
  | Decimal.D6 d' => digits_value (acc * 10 + 6) d'
  | Decimal.D7 d' => digits_value (acc * 10 + 7) d'
  | Decimal.D8 d' => digits_value (acc * 10 + 8) d'
  | Decimal.D9 d' => digits_value (acc * 10 + 9) d'
  end.

(** The nodes of a value, each element or member counted once more: a
    bound on the depth of the parser's recursion. *)
Fixpoint weight (v : json) : nat :=
  match v with
  | JArr items => S (list_sum (List.map (fun x => S (weight x)) items))
  | JObj fields => S (list_sum (List.map (fun kv => S (weight (snd kv))) fields))
  | _ => 1%nat
  end.

Definition all (props : list Prop) : Prop := fold_right and True props.

(** Values within the modelled fragment: numbers are safe integers,
    and the keys of an object are distinct and not index-like. *)
Fixpoint printable (v : json) : Prop :=
  match v with
  | JNum n => - MAX_SAFE_INTEGER <= n <= MAX_SAFE_INTEGER
  | JArr items => all (List.map printable items)
  | JObj fields =>
      List.NoDup (List.map fst fields)
      /\ existsb (fun kv => index_like (fst kv)) fields = false
      /\ all (List.map (fun kv => printable (snd kv)) fields)
  | _ => True
  end.

(** The text that follows a number does not continue it. *)
Definition ends_number (rest : string) : Prop :=
  match rest with
  | String c _ => is_digit c = false /\ starts_fraction rest = false
  | EmptyString => True
  end.

(** The characters a JSON value can start with. *)
Definition value_head (c : ascii) : bool :=
  is_digit c || Ascii.eqb c "-" || Ascii.eqb c "n" || Ascii.eqb c "t"
  || Ascii.eqb c "f" || Ascii.eqb c "034" || Ascii.eqb c "[" || Ascii.eqb c "{".

(** What the parse of a printed value is known to be. *)
Definition reads_back (v : json) : Prop :=
  forall fuel rest,
    (weight v <= fuel)%nat -> ends_number rest ->
    parse_value fuel (stringify v ++ rest) = POk v rest.

(** Induction on values, with the hypothesis for every element and
    member. *)
Fixpoint json_ind_nested (P : json -> Prop)
  (Hnull : P JNull) (Hbool : forall b, P (JBool b)) (Hnum : forall n, P (JNum n))
  (Hstr : forall s, P (JStr s))
  (Harr : forall items, Forall P items -> P (JArr items))
  (Hobj : forall fields, Forall (fun kv => P (snd kv)) fields -> P (JObj fields))
  (v : json) {struct v} : P v :=
  match v with
  | JNull => Hnull
  | JBool b => Hbool b
  | JNum n => Hnum n
  | JStr s => Hstr s
  | JArr items =>
      Harr items
        ((fix go (l : list json) : Forall P l :=
            match l with
            | [] => @List.Forall_nil _ P
            | x :: l' =>
                @List.Forall_cons _ P x l' (json_ind_nested P Hnull Hbool Hnum Hstr Harr Hobj x) (go l')
            end) items)
  | JObj fields =>
      Hobj fields
        ((fix go (l : list (string * json)) : Forall (fun kv => P (snd kv)) l :=
            match l with
            | [] => @List.Forall_nil _ (fun kv => P (snd kv))
            | kv :: l' =>
                @List.Forall_cons _ (fun kv => P (snd kv)) kv l'
                  (json_ind_nested P Hnull Hbool Hnum Hstr Harr Hobj (snd kv)) (go l')
            end) fields)
  end.

End JSON.


(* ===================================================================== *)
(** * A monad for handlers: state, exceptions, and the edge of the model *)
(* ===================================================================== *)

(** A handler run on a state [S] returns normally, throws, or leaves the
    modelled fragment of JavaScript (a coercion or a JSON text that the
    embedding does not interpret).  A thrown exception keeps the state
    reached so far, as in JavaScript. *)
Inductive Res (S A : Type) :=
| Ret (a : A) (s : S)
| Exn (e : JsError) (s : S)
| Unmodelled.
Arguments Ret {S A} a s.
Arguments Exn {S A} e s.
Arguments Unmodelled {S A}.

Definition M (S A : Type) := S -> Res S A.

Section Monad.
Context {S : Type}.

Definition ret {A} (a : A) : M S A := fun s => Ret a s.

Definition bind {A B} (m : M S A) (k : A -> M S B) : M S B :=
  fun s => match m s with
           | Ret a s' => k a s'
           | Exn e s' => Exn e s'
           | Unmodelled => Unmodelled
           end.

Definition throw {A} (e : JsError) : M S A := fun s => Exn e s.

Definition unmodelled {A} : M S A := fun _ => Unmodelled.

(** [try { m } catch (e) { h e }] *)
Definition try_catch {A} (m : M S A) (h : JsError -> M S A) : M S A :=
  fun s => match m s with
           | Exn e s' => h e s'
           | r => r
           end.

Definition gets {A} (f : S -> A) : M S A := fun s => Ret (f s) s.

Definition modify (f : S -> S) : M S unit := fun s => Ret tt (f s).

(** Run a computation on a component of the state. *)
Definition zoom {T A} (proj : S -> T) (upd : T -> S -> S) (m : M T A) : M S A :=
  fun s => match m (proj s) with
           | Ret a t => Ret a (upd t s)
           | Exn e t => Exn e (upd t s)
           | Unmodelled => Unmodelled
           end.
End Monad.

Declare Scope js_scope.
Delimit Scope js_scope with js.
Notation "x <- m ;; k" := (bind m (fun x => k))
  (at level 20, m at level 99, k at level 200, only parsing) : js_scope.
Notation "m ;; k" := (bind m (fun _ => k))
  (at level 100, k at level 200, right associativity, only parsing) : js_scope.
Local Open Scope js_scope.

(** Did the run return normally? *)
Definition returns {S A} (r : Res S A) : bool :=
  match r with Ret _ _ => true | _ => false end.

(** Did the run throw? *)
Definition throws {S A} (r : Res S A) : bool :=
  match r with Exn _ _ => true | _ => false end.

(* ===================================================================== *)
(** * The operators and built-ins the services use *)
(* ===================================================================== *)

Module Js.

(** [JSON.parse(text)] *)
Definition JSON_parse {S} (text : string) : M S json :=
  match JSON.parse text with
  | JSON.POk v _ => ret v
  | JSON.PSyntax => throw SyntaxError
  | JSON.PUnsupported => unmodelled
  end.

(** Truthiness of the result of [localStorage.getItem]: [null] and the
    empty string are falsy. *)
Definition truthy_item (item : option string) : bool :=
  match item with
  | Some s => negb (String.eqb s "")
  | None => false
  end.

(** Truthiness of a value. *)
Definition truthy (v : jsval) : bool :=
  match v with
  | None | Some JNull => false
  | Some (JBool b) => b
  | Some (JNum n) => negb (n =? 0)
  | Some (JStr s) => negb (String.eqb s "")
  | Some (JArr _) | Some (JObj _) => true
  end.

Fixpoint ascii_only (s : string) : bool :=
  match s with
  | EmptyString => true
  | String c r => (N_of_ascii c <? 128)%N && ascii_only r
  end.

(** [v.k] for a property name [k] that is not an array index.
    Reading a property of [null] throws; primitives, arrays and
    strings have no own property of such a name except [length]; the
    prototypes define none of the names the services read.  The
    length of a string counts UTF-16 code units, which are the
    characters of the model for ASCII text only. *)
Definition read_prop {S} (k : string) (v : json) : M S jsval :=
  match v with
  | JNull => throw TypeError
  | JObj fields => ret (JSON.get k fields)
  | JArr items =>
      if String.eqb k "length" then ret (Some (JNum (Z.of_nat (List.length items))))
      else ret undefined
  | JStr s =>
      if String.eqb k "length" then
        if ascii_only s then ret (Some (JNum (Z.of_nat (String.length s))))
        else unmodelled
      else ret undefined
  | JBool _ | JNum _ => ret undefined
  end.

(** [ToNumber]: applied by [-], [<] and [>] to their operands.  The
    conversions of strings, arrays and objects are not modelled. *)
Definition ToNumber {S} (v : jsval) : M S jsnum :=
  match v with
  | None => ret NaN
  | Some JNull => ret (Num 0)
  | Some (JBool b) => ret (Num (if b then 1 else 0))
  | Some (JNum n) => ret (Num n)
  | Some (JStr _) | Some (JArr _) | Some (JObj _) => unmodelled
  end.

Definition sub (a b : jsnum) : jsnum :=
  match a, b with
  | Num x, Num y => Num (x - y)
  | _, _ => NaN
  end.

(** [a < b]; false when an operand is [NaN]. *)
Definition lt (a b : jsnum) : bool :=
  match a, b with
  | Num x, Num y => x <? y
  | _, _ => false
  end.

Definition gt (a b : jsnum) : bool := lt b a.

(** [v !== s] for a string [s]. *)
Definition strict_ne_string (v : jsval) (s : string) : bool :=
  match v with
  | Some (JStr t) => negb (String.eqb t s)
  | _ => true
  end.

(** [array.push(x)]: a value without a callable [push] throws
    [TypeError] (no JSON value but an array has one). *)
Definition push {S} (array : json) (x : json) : M S json :=
  match array with
  | JArr items => ret (JArr (items ++ [x]))
  | _ => throw TypeError
  end.

(** The elements satisfying an effectful test, visited in order. *)
Fixpoint filterM {S A} (f : A -> M S bool) (l : list A) : M S (list A) :=
  match l with
  | [] => ret []
  | x :: l' =>
      keep <- f x ;;
      rest <- filterM f l' ;;
      ret (if keep then x :: rest else rest)
  end.

Fixpoint mapM {S A B} (f : A -> M S B) (l : list A) : M S (list B) :=
  match l with
  | [] => ret []
  | x :: l' =>
      y <- f x ;;
      rest <- mapM f l' ;;
      ret (y :: rest)
  end.

(** [array.filter(callback)] *)
Definition filter {S} (array : json) (callback : json -> M S bool)
  : M S (list json) :=
  match array with
  | JArr items => filterM callback items
  | _ => throw TypeError
  end.

End Js.

(* ===================================================================== *)
(** * The browser state shared by the services *)
(* ===================================================================== *)

(** [localStorage] and the clock read by [Date.now()].  Storage is
    assumed to have room: [setItem] does not throw. *)
Record Browser := mkBrowser {
  localStorage : gmap string string;
  clock : Z
}.

Definition getItem (key : string) : M Browser (option string) :=
  gets (fun b => localStorage b !! key).

Definition setItem (key value : string) : M Browser unit :=
  modify (fun b => mkBrowser (<[key := value]> (localStorage b)) (clock b)).

Definition removeItem (key : string) : M Browser unit :=
  modify (fun b => mkBrowser (delete key (localStorage b)) (clock b)).

Definition Date_now : M Browser Z := gets clock.

(* ===================================================================== *)
(** * ResponseCacheService *)
(* ===================================================================== *)

Module ResponseCacheService.
Import Js.

Definition CACHE_KEY_PREFIX : string := "exim-ws-cache-".
Definition CACHE_EXPIRY_MS : Z := 24 * 60 * 60 * 1000.

Definition _getCacheKey (threadId : string) : string :=
  CACHE_KEY_PREFIX ++ threadId.

(** [item => now - item.cachedAt < CACHE_EXPIRY_MS] *)
Definition not_expired (now : Z) (item : json) : M Browser bool :=
  cachedAt <- read_prop "cachedAt" item ;;
  n <- ToNumber cachedAt ;;
  ret (lt (sub (Num now) n) (Num CACHE_EXPIRY_MS)).

Definition cacheResponse (threadId : string) (response : json) : M Browser unit :=
  let cacheKey := _getCacheKey threadId in
  try_catch
    (existingData <- getItem cacheKey ;;
     cacheArray <-
       (if truthy_item existingData then
          try_catch (JSON_parse (default "" existingData))
                    (fun _ => ret (JArr []))
        else ret (JArr [])) ;;
     now <- Date_now ;;
     cacheArray' <- push cacheArray
                      (JObj [("response", response); ("cachedAt", JNum now)]) ;;
     setItem cacheKey (JSON.stringify cacheArray'))
    (fun _ => ret tt).

Definition getAndClearCache (threadId : string) : M Browser (list jsval) :=
  let cacheKey := _getCacheKey threadId in
  try_catch
    (cacheData <- getItem cacheKey ;;
     if negb (truthy_item cacheData) then ret []
     else
       cacheArray <- JSON_parse (default "" cacheData) ;;
       removeItem cacheKey ;;
       now <- Date_now ;;
       valid <- filter cacheArray (not_expired now) ;;
       mapM (read_prop "response") valid)
    (fun _ => ret []).

Definition hasPendingResponses (threadId : string) : M Browser bool :=
  let cacheKey := _getCacheKey threadId in
  cacheData <- getItem cacheKey ;;
  if negb (truthy_item cacheData) then ret false
  else
    try_catch
      (cacheArray <- JSON_parse (default "" cacheData) ;;
       len <- read_prop "length" cacheArray ;;
       n <- ToNumber len ;;
       ret (gt n (Num 0)))
      (fun _ => ret false).

Definition clearCache (threadId : string) : M Browser unit :=
  removeItem (_getCacheKey threadId).

(** ** Well-formed cache lists *)

(** An entry as [cacheResponse] pushes it. *)
Record CachedResponse := mkCachedResponse {
  response : json;
  cachedAt : Z
}.

Definition entry_json (e : CachedResponse) : json :=
  JObj [("response", response e); ("cachedAt", JNum (cachedAt e))].

(** The age of the entry at [now] is below the TTL. *)
Definition fresh_at (now : Z) (e : CachedResponse) : bool :=
  now - cachedAt e <? CACHE_EXPIRY_MS.

(** The browser state once the list of [threadId] has been removed. *)
Definition drained (threadId : string) (b : Browser) : Browser :=
  mkBrowser (delete (_getCacheKey threadId) (localStorage b)) (clock b).

(** The responses of [entries] are cached one after the other, each
    at the time its [cachedAt] tells. *)
Fixpoint cache_all (threadId : string) (entries : list CachedResponse)
  (b : Browser) : Res Browser unit :=
  match entries with
  | [] => Ret tt b
  | e :: rest =>
      match cacheResponse threadId (response e)
              (mkBrowser (localStorage b) (cachedAt e)) with
      | Ret _ b' => cache_all threadId rest b'
      | Exn err b' => Exn err b'
      | Unmodelled => Unmodelled
      end
  end.

(** The cell of [threadId] holds the text of [entries], or nothing when
    there is none. *)
Definition cell_holds (threadId : string) (entries : list CachedResponse)
  (b : Browser) : Prop :=
  localStorage b !! _getCacheKey threadId
  = match entries with
    | [] => None
    | _ => Some (JSON.stringify (JArr (List.map entry_json entries)))
    end.

(** Responses and times within the modelled fragment of JSON. *)
Definition printable_entries (entries : list CachedResponse) : Prop :=
  Forall (fun e => JSON.printable (response e)
                   /\ - JSON.MAX_SAFE_INTEGER <= cachedAt e <= JSON.MAX_SAFE_INTEGER)
         entries.

(** The cell of [threadId] holds nothing, text that is not JSON, or
    the text of an array. *)
Definition holds_list (threadId : string) (b : Browser) : Prop :=
  forall text, localStorage b !! _getCacheKey threadId = Some text ->
    JSON.parse text = JSON.PSyntax
    \/ exists items, JSON.parse text = JSON.POk (JArr items) "".

(** ** The cleanup at start-up *)

(** [key && key.startsWith(CACHE_KEY_PREFIX)] *)
Definition is_cache_key (key : string) : bool :=
  negb (String.eqb key "") && String.prefix CACHE_KEY_PREFIX key.

(** [n !== v] for the length [n] of an array. *)
Definition strict_ne_length (n : nat) (v : jsval) : bool :=
  match v with
  | Some (JNum m) => negb (Z.of_nat n =? m)
  | _ => true
  end.

(** The body of the loop for one cache key.  The entries that have
    not expired are written back when some have expired; the result
    tells whether the key is pushed on [keysToRemove]. *)
Definition cleanup_key (now : Z) (key : string) : M Browser bool :=
  try_catch
    (cacheData <- getItem key ;;
     if truthy_item cacheData then
       cacheArray <- JSON_parse (default "" cacheData) ;;
       validEntries <- filter cacheArray (not_expired now) ;;
       len <- read_prop "length" cacheArray ;;
       if (List.length validEntries =? 0)%nat then ret true
       else if strict_ne_length (List.length validEntries) len then
         setItem key (JSON.stringify (JArr validEntries)) ;;
         ret false
       else ret false
     else ret false)
    (fun _ => ret true).

(** [localStorage.key(i)] for [i] from 0 up to [localStorage.length]:
    the keys in the order in which the user agent enumerates them,
    which the loop does not disturb since it adds and removes no key.
    The enumeration of the map stands for that order. *)
Definition storage_keys (b : Browser) : list string :=
  List.map fst (map_to_list (localStorage b)).

Fixpoint scan_keys (now : Z) (keys keysToRemove : list string)
  : M Browser (list string) :=
  match keys with
  | [] => ret keysToRemove
  | key :: rest =>
      if is_cache_key key then
        remove <- cleanup_key now key ;;
        scan_keys now rest (if remove then keysToRemove ++ [key] else keysToRemove)
      else scan_keys now rest keysToRemove
  end.

(** [keysToRemove.forEach(key => localStorage.removeItem(key))] *)
Fixpoint remove_keys (keys : list string) : M Browser unit :=
  match keys with
  | [] => ret tt
  | key :: rest => removeItem key ;; remove_keys rest
  end.

Definition _cleanupExpiredCache : M Browser unit :=
  now <- Date_now ;;
  keys <- gets storage_keys ;;
  keysToRemove <- scan_keys now keys [] ;;
  remove_keys keysToRemove.

(** [new ResponseCacheService()] *)
Definition constructor : M Browser unit := _cleanupExpiredCache.

(** The shapes of cell the cleanup tells apart: the empty string,
    text that is not JSON, JSON that is not an array, and a list of
    entries as [cacheResponse] writes it. *)
Inductive CellShape :=
| EmptyText
| NotJSON
| NotArray (v : json)
| EntryList (entries : list CachedResponse).

Definition has_shape (text : string) (shape : CellShape) : Prop :=
  match shape with
  | EmptyText => text = ""
  | NotJSON => text <> "" /\ JSON.parse text = JSON.PSyntax
  | NotArray v => JSON.parse text = JSON.POk v "" /\ forall items, v <> JArr items
  | EntryList entries =>
      JSON.parse text = JSON.POk (JArr (List.map entry_json entries)) ""
  end.

(** Every cache cell has one of these shapes. *)
Definition shaped_cells (b : Browser) : Prop :=
  forall key text,
    localStorage b !! key = Some text -> is_cache_key key = true ->
    exists shape, has_shape text shape.

(** The cleanup at [now] discards a cell of that shape. *)
Definition discards (now : Z) (shape : CellShape) : bool :=
  match shape with
  | EmptyText => false
  | NotJSON | NotArray _ => true
  | EntryList entries =>
      (List.length (List.filter (fresh_at now) entries) =? 0)%nat
  end.

(** The text of a cell of that shape after the loop. *)
Definition rewritten (now : Z) (text : string) (shape : CellShape) : string :=
  match shape with
  | EntryList entries =>
      let valid := List.filter (fresh_at now) entries in
      if (List.length valid =? List.length entries)%nat then text
      else JSON.stringify (JArr (List.map entry_json valid))
  | _ => text
  end.

(** What the cleanup at [now] leaves in a cell of that shape. *)
Definition cleaned (now : Z) (text : string) (shape : CellShape) : option string :=
  if discards now shape then None else Some (rewritten now text shape).

End ResponseCacheService.

(* ===================================================================== *)
(** * SharedWebSocketService *)
(* ===================================================================== *)

Module SharedWebSocketService.
Import Js.

Definition LEADER_KEY : string := "exim-ws-leader".
Definition LEADER_HEARTBEAT_INTERVAL : Z := 2000.
Definition LEADER_TIMEOUT : Z := 5000.
Definition VISIBILITY_FAILOVER_MS : Z := 3000.
Definition CONNECTION_DEBOUNCE_MS : Z := 300.

Inductive ReadyState := CONNECTING | OPEN | CLOSING | CLOSED.

(** Messages on the BroadcastChannel.  [message] is the raw text of a
    send request and the parsed frame of a received one; the thread id
    of a received frame is whatever truthy value the frame carried. *)
Inductive Broadcast :=
| LEADER_ELECTED (tabId : string)
| REGISTER_THREAD (threadId originTabId : string)
| UNREGISTER_THREAD (threadId originTabId : string)
| SEND_MESSAGE (threadId message originTabId : string)
| MESSAGE_RECEIVED (threadId message : json) (originTabId : string).

(** What a pending timer will run. *)
Inductive TimerTask := Heartbeat | Connect | Disconnect.

(** The instance fields of the service, followed by the part of the
    browser it acts on: storage and clock, the messages it posted on
    the channel, the sockets it created (a socket is its index), the
    frames handed to [socket.send], the pending timers, and the calls
    made to the subscribers' callbacks (a callback is a number; the
    set of subscribers keeps insertion order). *)
Record World := mkWorld {
  tabId : string;
  isLeader : bool;
  socket : option nat;
  connectTimer : option nat;
  disconnectTimer : option nat;
  messageQueue : list string;
  activeThreads : gset string;
  heartbeatInterval : option nat;
  subscribers : list nat;
  browser : Browser;
  channel : list Broadcast;
  sockets : list ReadyState;
  wire : list (nat * string);
  timers : gmap nat TimerTask;
  next_timer : nat;
  notified : list (nat * json * json)
}.

Definition set_isLeader (x : bool) (w : World) : World :=
  mkWorld (tabId w) x (socket w) (connectTimer w) (disconnectTimer w) (messageQueue w) (activeThreads w) (heartbeatInterval w) (subscribers w) (browser w) (channel w) (sockets w) (wire w) (timers w) (next_timer w) (notified w).
Definition set_socket (x : option nat) (w : World) : World :=
  mkWorld (tabId w) (isLeader w) x (connectTimer w) (disconnectTimer w) (messageQueue w) (activeThreads w) (heartbeatInterval w) (subscribers w) (browser w) (channel w) (sockets w) (wire w) (timers w) (next_timer w) (notified w).
Definition set_connectTimer (x : option nat) (w : World) : World :=
  mkWorld (tabId w) (isLeader w) (socket w) x (disconnectTimer w) (messageQueue w) (activeThreads w) (heartbeatInterval w) (subscribers w) (browser w) (channel w) (sockets w) (wire w) (timers w) (next_timer w) (notified w).
Definition set_disconnectTimer (x : option nat) (w : World) : World :=
  mkWorld (tabId w) (isLeader w) (socket w) (connectTimer w) x (messageQueue w) (activeThreads w) (heartbeatInterval w) (subscribers w) (browser w) (channel w) (sockets w) (wire w) (timers w) (next_timer w) (notified w).
Definition set_messageQueue (x : list string) (w : World) : World :=
  mkWorld (tabId w) (isLeader w) (socket w) (connectTimer w) (disconnectTimer w) x (activeThreads w) (heartbeatInterval w) (subscribers w) (browser w) (channel w) (sockets w) (wire w) (timers w) (next_timer w) (notified w).
Definition set_activeThreads (x : gset string) (w : World) : World :=
  mkWorld (tabId w) (isLeader w) (socket w) (connectTimer w) (disconnectTimer w) (messageQueue w) x (heartbeatInterval w) (subscribers w) (browser w) (channel w) (sockets w) (wire w) (timers w) (next_timer w) (notified w).
Definition set_heartbeatInterval (x : option nat) (w : World) : World :=
  mkWorld (tabId w) (isLeader w) (socket w) (connectTimer w) (disconnectTimer w) (messageQueue w) (activeThreads w) x (subscribers w) (browser w) (channel w) (sockets w) (wire w) (timers w) (next_timer w) (notified w).
Definition set_subscribers (x : list nat) (w : World) : World :=
  mkWorld (tabId w) (isLeader w) (socket w) (connectTimer w) (disconnectTimer w) (messageQueue w) (activeThreads w) (heartbeatInterval w) x (browser w) (channel w) (sockets w) (wire w) (timers w) (next_timer w) (notified w).
Definition set_browser (x : Browser) (w : World) : World :=
  mkWorld (tabId w) (isLeader w) (socket w) (connectTimer w) (disconnectTimer w) (messageQueue w) (activeThreads w) (heartbeatInterval w) (subscribers w) x (channel w) (sockets w) (wire w) (timers w) (next_timer w) (notified w).
Definition set_channel (x : list Broadcast) (w : World) : World :=
  mkWorld (tabId w) (isLeader w) (socket w) (connectTimer w) (disconnectTimer w) (messageQueue w) (activeThreads w) (heartbeatInterval w) (subscribers w) (browser w) x (sockets w) (wire w) (timers w) (next_timer w) (notified w).
Definition set_sockets (x : list ReadyState) (w : World) : World :=
  mkWorld (tabId w) (isLeader w) (socket w) (connectTimer w) (disconnectTimer w) (messageQueue w) (activeThreads w) (heartbeatInterval w) (subscribers w) (browser w) (channel w) x (wire w) (timers w) (next_timer w) (notified w).
Definition set_wire (x : list (nat * string)) (w : World) : World :=
  mkWorld (tabId w) (isLeader w) (socket w) (connectTimer w) (disconnectTimer w) (messageQueue w) (activeThreads w) (heartbeatInterval w) (subscribers w) (browser w) (channel w) (sockets w) x (timers w) (next_timer w) (notified w).
Definition set_timers (x : gmap nat TimerTask) (w : World) : World :=
  mkWorld (tabId w) (isLeader w) (socket w) (connectTimer w) (disconnectTimer w) (messageQueue w) (activeThreads w) (heartbeatInterval w) (subscribers w) (browser w) (channel w) (sockets w) (wire w) x (next_timer w) (notified w).
Definition set_next_timer (x : nat) (w : World) : World :=
  mkWorld (tabId w) (isLeader w) (socket w) (connectTimer w) (disconnectTimer w) (messageQueue w) (activeThreads w) (heartbeatInterval w) (subscribers w) (browser w) (channel w) (sockets w) (wire w) (timers w) x (notified w).
Definition set_notified (x : list (nat * json * json)) (w : World) : World :=
  mkWorld (tabId w) (isLeader w) (socket w) (connectTimer w) (disconnectTimer w) (messageQueue w) (activeThreads w) (heartbeatInterval w) (subscribers w) (browser w) (channel w) (sockets w) (wire w) (timers w) (next_timer w) x.

(** ** Browser interfaces *)

Definition in_browser {A} (m : M Browser A) : M World A :=
  zoom browser set_browser m.

Definition postMessage (msg : Broadcast) : M World unit :=
  modify (fun w => set_channel (channel w ++ [msg]) w).

(** [setTimeout] and [setInterval]: a fresh handle for a pending task. *)
Definition setTimer (task : TimerTask) : M World nat :=
  fun w =>
    let id := next_timer w in
    Ret id (set_next_timer (Datatypes.S id) (set_timers (<[id := task]> (timers w)) w)).

(** [clearTimeout] and [clearInterval] *)
Definition clearTimer (id : nat) : M World unit :=
  modify (fun w => set_timers (delete id (timers w)) w).

(** [this.socket.readyState], for a socket the service created. *)
Definition readyState (w : World) (id : nat) : ReadyState :=
  default CLOSED (sockets w !! id).

Definition ReadyState_eqb (a b : ReadyState) : bool :=
  match a, b with
  | CONNECTING, CONNECTING | OPEN, OPEN | CLOSING, CLOSING | CLOSED, CLOSED => true
  | _, _ => false
  end.

Definition set_readyState (id : nat) (r : ReadyState) : M World unit :=
  modify (fun w => set_sockets (<[id := r]> (sockets w)) w).

(** [new WebSocket(url)]: the socket starts connecting. *)
Definition new_WebSocket : M World nat :=
  fun w => Ret (List.length (sockets w)) (set_sockets (sockets w ++ [CONNECTING]) w).

(** [socket.send(data)]: throws while connecting, transmits when
    open, and discards the data when closing or closed. *)
Definition socket_send (id : nat) (data : string) : M World unit :=
  fun w =>
    match readyState w id with
    | CONNECTING => Exn InvalidStateError w
    | OPEN => Ret tt (set_wire (wire w ++ [(id, data)]) w)
    | CLOSING | CLOSED => Ret tt w
    end.

(** [socket.close()] *)
Definition socket_close (id : nat) : M World unit :=
  fun w =>
    match readyState w id with
    | CONNECTING | OPEN => set_readyState id CLOSING w
    | CLOSING | CLOSED => Ret tt w
    end.

(** [this.socket && (readyState === OPEN || readyState === CONNECTING)] *)
Definition socket_open_or_connecting (w : World) : bool :=
  match socket w with
  | Some id => ReadyState_eqb (readyState w id) OPEN
               || ReadyState_eqb (readyState w id) CONNECTING
  | None => false
  end.

(** [this.socket && this.socket.readyState === state] *)
Definition socket_is (state : ReadyState) (w : World) : bool :=
  match socket w with
  | Some id => ReadyState_eqb (readyState w id) state
  | None => false
  end.

Definition when {S} (c : bool) (m : M S unit) : M S unit :=
  if c then m else ret tt.

(** [list.forEach(f)] *)
Fixpoint forEach {S A} (f : A -> M S unit) (l : list A) : M S unit :=
  match l with
  | [] => ret tt
  | x :: l' => f x ;; forEach f l'
  end.

(** ** Connection management *)

(** The body of the connect timer is [fire Connect] below. *)
Definition _scheduleConnect : M World unit :=
  dt <- gets disconnectTimer ;;
  match dt with
  | Some id => clearTimer id ;; modify (set_disconnectTimer None)
  | None => ret tt
  end ;;
  busy <- gets socket_open_or_connecting ;;
  if busy then ret tt
  else
    ct <- gets connectTimer ;;
    match ct with
    | Some id => clearTimer id
    | None => ret tt
    end ;;
    id <- setTimer Connect ;;
    modify (set_connectTimer (Some id)).

Definition _scheduleDisconnect : M World unit :=
  ct <- gets connectTimer ;;
  match ct with
  | Some id => clearTimer id ;; modify (set_connectTimer None)
  | None => ret tt
  end ;;
  dt <- gets disconnectTimer ;;
  match dt with
  | Some id => clearTimer id
  | None => ret tt
  end ;;
  id <- setTimer Disconnect ;;
  modify (set_disconnectTimer (Some id)).

(** The handlers [onopen], [onmessage], [onerror] and [onclose] set
    here are [socket_onopen] and its siblings below. *)
Definition _createWebSocket : M World unit :=
  leader <- gets isLeader ;;
  if negb leader then ret tt
  else
    busy <- gets socket_open_or_connecting ;;
    if busy then ret tt
    else
      id <- new_WebSocket ;;
      modify (set_socket (Some id)).

Definition _flushMessageQueue : M World unit :=
  queue <- gets messageQueue ;;
  match queue with
  | [] => ret tt
  | _ =>
      forEach (fun msg =>
                 sock <- gets socket ;;
                 is_open <- gets (socket_is OPEN) ;;
                 match sock with
                 | Some id => if is_open then socket_send id msg else ret tt
                 | None => ret tt
                 end) queue ;;
      modify (set_messageQueue [])
  end.

Definition _closeWebSocket : M World unit :=
  leader <- gets isLeader ;;
  if negb leader then ret tt
  else
    sock <- gets socket ;;
    match sock with
    | Some id => socket_close id ;; modify (set_socket None)
    | None => ret tt
    end ;;
    modify (set_messageQueue []).

(** A subscriber's callback is outside the service; an exception it
    throws is caught and logged, so the service only gets to know
    that the callback was called. *)
Definition _notifySubscribers (threadId message : json) : M World unit :=
  subs <- gets subscribers ;;
  forEach (fun callback =>
             modify (fun w => set_notified
                                (notified w ++ [(callback, threadId, message)]) w))
          subs.

Definition string_of_nat (n : nat) : string :=
  NilZero.string_of_uint (Nat.to_uint n).

Fixpoint indexed {A} (i : nat) (l : list A) : list (string * A) :=
  match l with
  | [] => []
  | x :: l' => (string_of_nat i, x) :: indexed (Datatypes.S i) l'
  end.

Fixpoint chars (s : string) : list json :=
  match s with
  | EmptyString => []
  | String c r => JStr (String c "") :: chars r
  end.

(** The own enumerable properties of a value, in property order;
    the characters of a string are its code units for ASCII text. *)
Definition own_props (value : json) : option (list (string * json)) :=
  match value with
  | JObj fields => Some fields
  | JArr items => Some (indexed 0 items)
  | JStr s => if ascii_only s then Some (indexed 0 (chars s)) else None
  | JNull | JBool _ | JNum _ => Some []
  end.

(** [{ ...value }] *)
Definition spread {S} (value : json) : M S (list (string * json)) :=
  match own_props value with
  | Some props => ret props
  | None => unmodelled
  end.

(** The frame for a payload: [{ ...parsed, threadId }] as text, or
    [{ threadId, content: payload }] for text that is not JSON. *)
Definition frame_of (threadId payload : string) : M World string :=
  try_catch
    (parsed <- JSON_parse payload ;;
     props <- spread parsed ;;
     ret (JSON.stringify (JObj (JSON.set "threadId" (JStr threadId) props))))
    (fun _ =>
       ret (JSON.stringify (JObj [("threadId", JStr threadId);
                                  ("content", JStr payload)]))).

Definition _sendViaWebSocket (threadId payload : string) : M World bool :=
  leader <- gets isLeader ;;
  if negb leader then ret false
  else
    message <- frame_of threadId payload ;;
    sock <- gets socket ;;
    is_open <- gets (socket_is OPEN) ;;
    is_connecting <- gets (socket_is CONNECTING) ;;
    match sock with
    | Some id =>
        if is_open then socket_send id message ;; ret true
        else if is_connecting then
          modify (fun w => set_messageQueue (messageQueue w ++ [message]) w) ;;
          ret true
        else ret false
    | None => ret false
    end.

(** ** Leader election *)

Definition _updateLeaderHeartbeat : M World unit :=
  me <- gets tabId ;;
  now <- in_browser Date_now ;;
  in_browser (setItem LEADER_KEY
                (JSON.stringify (JObj [("tabId", JStr me); ("timestamp", JNum now)]))).

(** The body of the heartbeat interval is [fire Heartbeat] below. *)
Definition _becomeLeader : M World unit :=
  modify (set_isLeader true) ;;
  _updateLeaderHeartbeat ;;
  id <- setTimer Heartbeat ;;
  modify (set_heartbeatInterval (Some id)) ;;
  me <- gets tabId ;;
  postMessage (LEADER_ELECTED me) ;;
  threads <- gets activeThreads ;;
  when (negb (bool_decide (threads = ∅))) _scheduleConnect.

Definition _attemptLeaderElection : M World unit :=
  leaderData <- in_browser (getItem LEADER_KEY) ;;
  now <- in_browser Date_now ;;
  if truthy_item leaderData then
    record <- JSON_parse (default "" leaderData) ;;
    owner <- read_prop "tabId" record ;;
    timestamp <- read_prop "timestamp" record ;;
    t <- ToNumber timestamp ;;
    me <- gets tabId ;;
    if lt (sub (Num now) t) (Num LEADER_TIMEOUT) && strict_ne_string owner me
    then modify (set_isLeader false)
    else _becomeLeader
  else _becomeLeader.

Definition _resignAsLeader : M World unit :=
  leader <- gets isLeader ;;
  if negb leader then ret tt
  else
    modify (set_isLeader false) ;;
    hb <- gets heartbeatInterval ;;
    match hb with
    | Some id => clearTimer id ;; modify (set_heartbeatInterval None)
    | None => ret tt
    end.

(** [beforeunload].  Removing the visibility listener and closing the
    channel end the delivery of events to the instance; in this
    embedding the environment decides which events it delivers. *)
Definition _handleTabClose : M World unit :=
  ct <- gets connectTimer ;;
  match ct with
  | Some id => clearTimer id
  | None => ret tt
  end ;;
  dt <- gets disconnectTimer ;;
  match dt with
  | Some id => clearTimer id
  | None => ret tt
  end ;;
  leader <- gets isLeader ;;
  if leader then
    sock <- gets socket ;;
    match sock with
    | Some id => socket_close id
    | None => ret tt
    end ;;
    in_browser (removeItem LEADER_KEY)
  else ret tt.

(** The fields of a [storage] event the handler reads. *)
Record StorageEvent := mkStorageEvent {
  key : option string;
  newValue : option string
}.

Definition _handleStorageChange (event : StorageEvent) : M World unit :=
  if negb (bool_decide (key event = Some LEADER_KEY)) then ret tt
  else if negb (truthy_item (newValue event)) then _attemptLeaderElection
  else
    record <- JSON_parse (default "" (newValue event)) ;;
    owner <- read_prop "tabId" record ;;
    me <- gets tabId ;;
    leader <- gets isLeader ;;
    when (strict_ne_string owner me && leader) _resignAsLeader.

Definition _attemptAggressiveLeaderElection : M World unit :=
  leaderData <- in_browser (getItem LEADER_KEY) ;;
  now <- in_browser Date_now ;;
  if truthy_item leaderData then
    record <- JSON_parse (default "" leaderData) ;;
    owner <- read_prop "tabId" record ;;
    timestamp <- read_prop "timestamp" record ;;
    t <- ToNumber timestamp ;;
    me <- gets tabId ;;
    if gt (sub (Num now) t) (Num VISIBILITY_FAILOVER_MS) && strict_ne_string owner me
    then _becomeLeader
    else ret tt
  else _becomeLeader.

(** [hidden] is [document.hidden] when the event is handled. *)
Definition _handleVisibilityChange (hidden : bool) : M World unit :=
  if hidden then ret tt
  else
    leader <- gets isLeader ;;
    if leader then _updateLeaderHeartbeat
    else _attemptAggressiveLeaderElection.

(** ** Broadcast routing *)

Definition _handleBroadcast (data : Broadcast) : M World unit :=
  me <- gets tabId ;;
  leader <- gets isLeader ;;
  match data with
  | LEADER_ELECTED tab =>
      when (negb (String.eqb tab me)) _resignAsLeader
  | REGISTER_THREAD threadId originTabId =>
      when (leader && negb (String.eqb originTabId me))
        (modify (fun w => set_activeThreads ({[threadId]} ∪ activeThreads w) w) ;;
         _scheduleConnect)
  | UNREGISTER_THREAD threadId originTabId =>
      when (leader && negb (String.eqb originTabId me))
        (modify (fun w => set_activeThreads (activeThreads w ∖ {[threadId]}) w) ;;
         threads <- gets activeThreads ;;
         when (bool_decide (threads = ∅)) _scheduleDisconnect)
  | SEND_MESSAGE threadId message originTabId =>
      when (leader && negb (String.eqb originTabId me))
        (_sendViaWebSocket threadId message ;; ret tt)
  | MESSAGE_RECEIVED threadId message originTabId =>
      when (negb (String.eqb originTabId me))
        (_notifySubscribers threadId message)
  end.

(** ** Events of the socket and of the timers *)

(** The socket finished connecting: it is open when [onopen] runs. *)
Definition socket_onopen (id : nat) : M World unit :=
  set_readyState id OPEN ;;
  _flushMessageQueue.

Definition socket_onmessage (data : string) : M World unit :=
  try_catch
    (frame <- JSON_parse data ;;
     threadId <- read_prop "threadId" frame ;;
     match threadId with
     | Some t =>
         if truthy threadId then
           _notifySubscribers t frame ;;
           me <- gets tabId ;;
           postMessage (MESSAGE_RECEIVED t frame me)
         else ret tt
     | None => ret tt
     end)
    (fun _ => ret tt).

Definition socket_onerror : M World unit := ret tt.

Definition socket_onclose (id : nat) : M World unit :=
  set_readyState id CLOSED ;;
  modify (set_socket None).

(** A pending timer runs; a timeout is then gone, an interval stays. *)
Definition fire (id : nat) : M World unit :=
  task <- gets (fun w => timers w !! id) ;;
  match task with
  | Some Heartbeat => _updateLeaderHeartbeat
  | Some Connect =>
      clearTimer id ;;
      modify (set_connectTimer None) ;;
      _createWebSocket
  | Some Disconnect =>
      clearTimer id ;;
      modify (set_disconnectTimer None) ;;
      _closeWebSocket
  | None => ret tt
  end.

(** ** Public API *)

Definition connectThread (threadId : string) : M World unit :=
  modify (fun w => set_activeThreads ({[threadId]} ∪ activeThreads w) w) ;;
  leader <- gets isLeader ;;
  if leader then _scheduleConnect
  else
    me <- gets tabId ;;
    postMessage (REGISTER_THREAD threadId me).

Definition sendMessage (threadId text : string) : M World bool :=
  leader <- gets isLeader ;;
  if leader then _sendViaWebSocket threadId text
  else
    me <- gets tabId ;;
    postMessage (SEND_MESSAGE threadId text me) ;;
    ret true.

(** [subscribe(callback)]; the function it returns is [unsubscribe]. *)
Definition subscribe (callback : nat) : M World unit :=
  modify (fun w => if bool_decide (callback ∈ subscribers w) then w
                   else set_subscribers (subscribers w ++ [callback]) w).

Definition unsubscribe (callback : nat) : M World unit :=
  modify (fun w => set_subscribers
                     (List.filter (fun c => negb (Nat.eqb c callback)) (subscribers w)) w).

Definition disconnectThread (threadId : string) : M World unit :=
  modify (fun w => set_activeThreads (activeThreads w ∖ {[threadId]}) w) ;;
  leader <- gets isLeader ;;
  if leader then
    threads <- gets activeThreads ;;
    when (bool_decide (threads = ∅)) _scheduleDisconnect
  else
    me <- gets tabId ;;
    postMessage (UNREGISTER_THREAD threadId me).

Definition isLeaderTab : M World bool := gets isLeader.

(** The state of a fresh instance, before the constructor runs the
    first election. *)
Definition fresh (tab : string) (b : Browser) : World :=
  mkWorld tab false None None None [] ∅ None [] b [] [] [] ∅ 1%nat [].

(** [new SharedWebSocketService()] in a context with identity [tab]. *)
Definition constructor (tab : string) (b : Browser) : Res World unit :=
  _attemptLeaderElection (fresh tab b).

(** ** Vocabulary for the statements *)

(** The handler returned and the context is Leader afterwards. *)
Definition becomes_leader (r : Res World unit) : Prop :=
  exists w', r = Ret tt w' /\ isLeader w' = true.

(** The ownership record in storage is the JSON text of
    [{ tabId: owner, timestamp }]. *)
Definition owner_record (w : World) (owner : string) (timestamp : Z) : Prop :=
  exists text fields,
    localStorage (browser w) !! LEADER_KEY = Some text
    /\ JSON.parse text = JSON.POk (JObj fields) ""
    /\ JSON.get "tabId" fields = Some (JStr owner)
    /\ JSON.get "timestamp" fields = Some (JNum timestamp).

(** The context a broadcast names as its sender: [tabId] of an
    election notice, [originTabId] of a routing message. *)
Definition origin (data : Broadcast) : string :=
  match data with
  | LEADER_ELECTED tab => tab
  | REGISTER_THREAD _ originTabId
  | UNREGISTER_THREAD _ originTabId
  | SEND_MESSAGE _ _ originTabId
  | MESSAGE_RECEIVED _ _ originTabId => originTabId
  end.

(** The calls [_notifySubscribers] makes: one per subscriber, in the
    order of subscription. *)
Definition calls (threadId message : json) (subs : list nat)
  : list (nat * json * json) :=
  List.map (fun callback => (callback, threadId, message)) subs.

(** No timer of that kind is pending. *)
Definition none_pending (task : TimerTask) (w : World) : Prop :=
  forall id, timers w !! id <> Some task.

(** The two states agree on everything but the timers. *)
Definition same_but_timers (w w' : World) : Prop :=
  tabId w' = tabId w /\ isLeader w' = isLeader w /\ socket w' = socket w
  /\ messageQueue w' = messageQueue w /\ activeThreads w' = activeThreads w
  /\ heartbeatInterval w' = heartbeatInterval w /\ subscribers w' = subscribers w
  /\ browser w' = browser w /\ channel w' = channel w /\ sockets w' = sockets w
  /\ wire w' = wire w /\ notified w' = notified w.

(** A consumer calling [sendMessage] for each (thread id, payload) in
    turn; the results are collected in order. *)
Definition sendAll (sends : list (string * string)) : M World (list bool) :=
  mapM (fun send => sendMessage (fst send) (snd send)) sends.

(** [frame] is the frame built for [send], in whatever state. *)
Definition has_frame (send : string * string) (frame : string) : Prop :=
  forall w, frame_of (fst send) (snd send) w = Ret frame w.

End SharedWebSocketService.

(* ===================================================================== *)
(** * useChatSessions *)
(* ===================================================================== *)

(** The hook's state is the pair of React state cells [activeSessions]
    and [activeSessionId].  A handler is embedded as the state after the
    render that follows it, so the values a handler closes over are the
    current ones.  [uuidv1()] and [Date.now()] are arguments. *)
Module useChatSessions.

Definition MAX_ACTIVE_SESSIONS : nat := 6.

Record Session := mkSession {
  id : string;
  messages : list json;
  inputValue : string;
  title : string;
  isThinking : bool;
  scrollPosition : Z;
  lastAccessedAt : Z;
  selectedFile : option string
}.

Record State := mkState {
  activeSessions : list Session;
  activeSessionId : string
}.

Definition has_id (i : string) (s : Session) : bool := String.eqb (id s) i.

(** The session object both [handleNewChat] and the initial state
    build. *)
Definition newSession (uuid : string) (now : Z) : Session :=
  mkSession uuid [] "" "New Chat" false 0 now None.

Definition initial (uuid : string) (now : Z) : State :=
  mkState [newSession uuid now] uuid.

(** [activeSessions.find(s => s.id === activeSessionId) || activeSessions[0]] *)
Definition activeSession (st : State) : option Session :=
  match List.find (has_id (activeSessionId st)) (activeSessions st) with
  | Some s => Some s
  | None => head (activeSessions st)
  end.

(** [prev.map(s => s.id === i ? f(s) : s)] *)
Definition map_session (i : string) (f : Session -> Session)
  (sessions : list Session) : list Session :=
  List.map (fun s => if has_id i s then f s else s) sessions.

Definition updateActiveSession (f : Session -> Session) (st : State) : State :=
  mkState (map_session (activeSessionId st) f (activeSessions st))
          (activeSessionId st).

(** [(oldest, session) => session.lastAccessedAt < oldest.lastAccessedAt
     ? session : oldest] *)
Definition older (oldest session : Session) : Session :=
  if lastAccessedAt session <? lastAccessedAt oldest then session else oldest.

Definition removeLRUSession (sessions : list Session) (currentActiveId : string)
  : list Session :=
  let sessionsExcludingActive :=
    List.filter (fun s => negb (has_id currentActiveId s)) sessions in
  match sessionsExcludingActive with
  | [] => sessions
  | first :: _ =>
      let lruSession := fold_left older sessionsExcludingActive first in
      List.filter (fun s => negb (has_id (id lruSession) s)) sessions
  end.

(** The updater both [handleNewChat] and [handleLoadChat] pass to
    [setActiveSessions]. *)
Definition add_session (s : Session) (st : State) : list Session :=
  let prev := activeSessions st in
  let updatedSessions :=
    if (MAX_ACTIVE_SESSIONS <=? List.length prev)%nat
    then removeLRUSession prev (activeSessionId st)
    else prev in
  updatedSessions ++ [s].

Definition handleNewChat (uuid : string) (now : Z) (st : State) : State :=
  mkState (add_session (newSession uuid now) st) uuid.

Definition touch (now : Z) (s : Session) : Session :=
  mkSession (id s) (messages s) (inputValue s) (title s) (isThinking s)
            (scrollPosition s) now (selectedFile s).

Definition handleTabClick (i : string) (now : Z) (st : State) : State :=
  if String.eqb (activeSessionId st) i then st
  else mkState (map_session i (touch now) (activeSessions st)) i.

(** [{ messages: [], inputValue: "", title: "New Chat",
       isThinking: false, id: uuidv1() }] spread over a session *)
Definition reset (uuid : string) (s : Session) : Session :=
  mkSession uuid [] "" "New Chat" false
            (scrollPosition s) (lastAccessedAt s) (selectedFile s).

(** Reading [.id] of the last survivor throws when none is left; the
    handler catches that after [setActiveSessions] has been called. *)
Definition handleTabClose (i : string) (uuid : string) (st : State) : State :=
  if (List.length (activeSessions st) =? 1)%nat then
    updateActiveSession (reset uuid) st
  else
    let newSessions := List.filter (fun s => negb (has_id i s)) (activeSessions st) in
    if String.eqb (activeSessionId st) i then
      match last (List.map id newSessions) with
      | Some newActiveId => mkState newSessions newActiveId
      | None => mkState newSessions (activeSessionId st)
      end
    else mkState newSessions (activeSessionId st).

Definition loadingSession (threadId : string) (now : Z) : Session :=
  mkSession threadId [] "" "Loading..." true 0 now None.

(** The part of [handleLoadChat] that runs before the messages are
    awaited. *)
Definition handleLoadChat (threadId : string) (now : Z) (st : State) : State :=
  if String.eqb threadId "" then st
  else
    match List.find (has_id threadId) (activeSessions st) with
    | Some _ => mkState (map_session threadId (touch now) (activeSessions st)) threadId
    | None => mkState (add_session (loadingSession threadId now) st) threadId
    end.

(** The continuation of [handleLoadChat] once the messages arrived;
    [threadTitle] is [thread?.title], absent for an unknown thread. *)
Definition loaded (msgs : list json) (threadTitle : option string) (s : Session)
  : Session :=
  mkSession (id s) msgs (inputValue s)
            (match threadTitle with
             | Some t => if String.eqb t "" then "Chat" else t
             | None => "Chat"
             end)
            false (scrollPosition s) (lastAccessedAt s) (selectedFile s).

Definition handleLoadChat_resolved (threadId : string) (msgs : list json)
  (threadTitle : option string) (st : State) : State :=
  mkState (map_session threadId (loaded msgs threadTitle) (activeSessions st))
          (activeSessionId st).

(** The continuation when fetching the messages failed. *)
Definition failed (s : Session) : Session :=
  mkSession (id s) (messages s) (inputValue s) "Failed to load" false
            (scrollPosition s) (lastAccessedAt s) (selectedFile s).

Definition handleLoadChat_rejected (threadId : string) (st : State) : State :=
  mkState (map_session threadId failed (activeSessions st)) (activeSessionId st).

(** User actions and completions, with the values the environment
    supplies to each. *)
Inductive Action :=
| NewChat (uuid : string) (now : Z)
| TabClick (i : string) (now : Z)
| TabClose (i : string) (uuid : string)
| LoadChat (threadId : string) (now : Z)
| LoadResolved (threadId : string) (msgs : list json) (threadTitle : option string)
| LoadRejected (threadId : string).

Definition step (st : State) (a : Action) : State :=
  match a with
  | NewChat uuid now => handleNewChat uuid now st
  | TabClick i now => handleTabClick i now st
  | TabClose i uuid => handleTabClose i uuid st
  | LoadChat threadId now => handleLoadChat threadId now st
  | LoadResolved threadId msgs t => handleLoadChat_resolved threadId msgs t st
  | LoadRejected threadId => handleLoadChat_rejected threadId st
  end.

Definition run (st : State) (actions : list Action) : State :=
  fold_left step actions st.

Definition ids (st : State) : list string := List.map id (activeSessions st).

(** ** Vocabulary for the statements *)

(** [uuidv1()] returns an identifier that no session carries. *)
Definition uuid_fresh (st : State) (a : Action) : Prop :=
  match a with
  | NewChat uuid _ => ~ In uuid (ids st)
  | _ => True
  end.

(** Every identifier generated along the run is fresh when it is
    generated. *)
Fixpoint fresh_run (st : State) (actions : list Action) : Prop :=
  match actions with
  | [] => True
  | a :: rest => uuid_fresh st a /\ fresh_run (step st a) rest
  end.

(** Between one and [MAX_ACTIVE_SESSIONS] sessions, with distinct ids. *)
Definition bounded (st : State) : Prop :=
  (1 <= List.length (activeSessions st) <= MAX_ACTIVE_SESSIONS)%nat
  /\ List.NoDup (ids st).

(** The action is one the tab bar offers without running into the
    reset of the last session: a tab that is clicked is one of the
    tabs, and a tab is closed while another one remains. *)
Definition keeps_a_tab (st : State) (a : Action) : Prop :=
  match a with
  | TabClick i _ => In i (ids st)
  | TabClose _ _ => (2 <= List.length (activeSessions st))%nat
  | _ => True
  end.

Fixpoint keeps_tabs (st : State) (actions : list Action) : Prop :=
  match actions with
  | [] => True
  | a :: rest => keeps_a_tab st a /\ keeps_tabs (step st a) rest
  end.

End useChatSessions.

(* ===================================================================== *)
(** * useWebSocket *)
(* ===================================================================== *)

(** The hook that connects the sessions to the two services.  Its
    effects and callbacks are embedded as the functions they run; the
    values they close over ([activeSessions], the ref
    [connectedThreadsRef]) are arguments or part of the state. *)
Module useWebSocket.
Import Js useChatSessions.

(** [text.split(sep)] for a separator of one character. *)
Fixpoint split (sep : ascii) (text : string) : list string :=
  match text with
  | EmptyString => [""]
  | String c rest =>
      if Ascii.eqb c sep then "" :: split sep rest
      else
        match split sep rest with
        | piece :: pieces => String c piece :: pieces
        | [] => [String c ""]
        end
  end.

(** [activeSessions.map(s => s.id).join(',')] *)
Definition activeThreadIds (activeSessions : list Session) : string :=
  JSON.join "," (List.map id activeSessions).

(** [activeThreadIds.split(',').filter(id => id)] *)
Definition currentThreadIds (activeThreadIds : string) : list string :=
  List.filter (fun i => negb (String.eqb i "")) (split "," activeThreadIds).

(** [set.has(threadId)], for a set of strings kept in insertion
    order. *)
Definition has (threadId : string) (set : list string) : bool :=
  existsb (String.eqb threadId) set.

(** [set.delete(threadId)] *)
Definition delete (threadId : string) (set : list string) : list string :=
  List.filter (fun i => negb (String.eqb i threadId)) set.

(** The first loop of the effect: the threads that are not connected
    yet are registered; the result is [connectedThreadsRef.current]. *)
Fixpoint connect_new (threadIds connected : list string)
  : M SharedWebSocketService.World (list string) :=
  match threadIds with
  | [] => ret connected
  | threadId :: rest =>
      if has threadId connected then connect_new rest connected
      else
        SharedWebSocketService.connectThread threadId ;;
        connect_new rest (connected ++ [threadId])
  end.

(** The second loop: [forEach] on the set visits the ids it holds;
    deleting the id that is being visited does not disturb the visit
    of the others. *)
Fixpoint disconnect_removed (currentSet visit connected : list string)
  : M SharedWebSocketService.World (list string) :=
  match visit with
  | [] => ret connected
  | threadId :: rest =>
      if has threadId currentSet then disconnect_removed currentSet rest connected
      else
        SharedWebSocketService.disconnectThread threadId ;;
        disconnect_removed currentSet rest (delete threadId connected)
  end.

(** The effect that runs when [activeThreadIds] has changed. *)
Definition sync_threads (activeThreadIds : string) (connected : list string)
  : M SharedWebSocketService.World (list string) :=
  let currentThreadIds := currentThreadIds activeThreadIds in
  connected' <- connect_new currentThreadIds connected ;;
  disconnect_removed currentThreadIds connected' connected'.

(** The cleanup on unmount. *)
Definition unmount (connected : list string)
  : M SharedWebSocketService.World (list string) :=
  SharedWebSocketService.forEach SharedWebSocketService.disconnectThread connected ;;
  ret [].

(** [sendMessage(threadId, text)] of the hook. *)
Definition sendMessage (threadId text : string)
  : M SharedWebSocketService.World bool :=
  try_catch
    (if String.eqb threadId "" then ret false
     else SharedWebSocketService.sendMessage threadId text)
    (fun _ => ret false).

(** The state the message handlers act on: the sessions (through
    [setActiveSessions]), the storage and clock, [document.hidden] and
    the ref [isTabVisibleRef]. *)
Record Page := mkPage {
  sessions : list Session;
  storage : Browser;
  hidden : bool;
  isTabVisible : bool
}.

Definition set_sessions (x : list Session) (p : Page) : Page :=
  mkPage x (storage p) (hidden p) (isTabVisible p).
Definition set_storage (x : Browser) (p : Page) : Page :=
  mkPage (sessions p) x (hidden p) (isTabVisible p).
Definition set_hidden (x : bool) (p : Page) : Page :=
  mkPage (sessions p) (storage p) x (isTabVisible p).
Definition set_isTabVisible (x : bool) (p : Page) : Page :=
  mkPage (sessions p) (storage p) (hidden p) x.

Definition in_storage {A} (m : M Browser A) : M Page A :=
  zoom storage set_storage m.

(** The property [name: value] of an object literal, as the readers of
    the object see it: a property whose value is [undefined] reads
    like an absent one and is left out by [JSON.stringify]. *)
Definition prop (name : string) (value : jsval) : list (string * json) :=
  match value with
  | Some v => [(name, v)]
  | None => []
  end.

(** [{ threadId, reply, timestamp: Date.now() }] *)
Definition cached_response (threadId : json) (reply : jsval) (now : Z) : json :=
  JObj ([("threadId", threadId)] ++ prop "reply" reply ++ [("timestamp", JNum now)]).

(** [{ role: 'assistant', content: reply, isNew: true,
       timestamp: Date.now() }] *)
Definition assistant_message (reply : jsval) (now : Z) : json :=
  JObj ([("role", JStr "assistant")] ++ prop "content" reply
        ++ [("isNew", JBool true); ("timestamp", JNum now)]).

(** [{ ...s, isThinking: false, messages: [...s.messages, message] }] *)
Definition received (message : json) (s : Session) : Session :=
  mkSession (id s) (messages s ++ [message]) (inputValue s) (title s) false
            (scrollPosition s) (lastAccessedAt s) (selectedFile s).

(** [prev.map(s => s.id === threadId ? ... : s)]: only a string is
    strictly equal to the id of a session. *)
Definition deliver (threadId : json) (message : json) (l : list Session)
  : list Session :=
  match threadId with
  | JStr t => map_session t (received message) l
  | _ => l
  end.

(** The thread id as the template literal of [_getCacheKey] renders
    it; the renderings of values other than strings are not
    modelled. *)
Definition key_text {S} (threadId : json) : M S string :=
  match threadId with
  | JStr t => ret t
  | _ => unmodelled
  end.

(** [handleMessage(threadId, data)], the subscriber of the socket
    service.  Scrolling is outside the embedding. *)
Definition handleMessage (threadId data : json) : M Page unit :=
  try_catch
    (if negb (truthy (Some threadId)) then ret tt
     else
       reply <- read_prop "reply" data ;;
       isHidden <- gets hidden ;;
       now <- in_storage Date_now ;;
       (if isHidden then
          try_catch
            (t <- key_text threadId ;;
             in_storage (ResponseCacheService.cacheResponse t
                           (cached_response threadId reply now)))
            (fun _ => ret tt)
        else ret tt) ;;
       modify (fun p => set_sessions
                          (deliver threadId (assistant_message reply now) (sessions p)) p))
    (fun _ => ret tt).

(** [{ ...s, isThinking: false }] *)
Definition settled (s : Session) : Session :=
  mkSession (id s) (messages s) (inputValue s) (title s) false
            (scrollPosition s) (lastAccessedAt s) (selectedFile s).

(** The body of [loadCachedResponses] for the sessions of the render
    it closes over. *)
Fixpoint load_each (snapshot : list Session) : M Page unit :=
  match snapshot with
  | [] => ret tt
  | session :: rest =>
      try_catch
        (cachedResponses <- in_storage (ResponseCacheService.getAndClearCache (id session)) ;;
         if (0 <? List.length cachedResponses)%nat then
           modify (fun p => set_sessions (map_session (id session) settled (sessions p)) p)
         else ret tt)
        (fun _ => ret tt) ;;
      load_each rest
  end.

Definition loadCachedResponses : M Page unit :=
  try_catch
    (snapshot <- gets sessions ;;
     load_each snapshot)
    (fun _ => ret tt).

(** The hook's listener for [visibilitychange]. *)
Definition handleVisibilityChange : M Page unit :=
  wasHidden <- gets (fun p => negb (isTabVisible p)) ;;
  isHidden <- gets hidden ;;
  modify (set_isTabVisible (negb isHidden)) ;;
  if wasHidden && negb isHidden then loadCachedResponses else ret tt.

(** ** Vocabulary for the statements *)

(** No id is empty or contains a comma. *)
Fixpoint plain (i : string) : bool :=
  match i with
  | EmptyString => true
  | String c rest => negb (Ascii.eqb c ",") && plain rest
  end.

Definition plain_ids (l : list string) : Prop :=
  Forall (fun i => i <> "" /\ plain i = true) l.

(** The cache cell of every session has one of the shapes the cache
    service tells apart. *)
Definition shaped_caches (p : Page) : Prop :=
  forall s text,
    In s (sessions p) ->
    localStorage (storage p) !! ResponseCacheService._getCacheKey (id s) = Some text ->
    exists shape, ResponseCacheService.has_shape text shape.

End useWebSocket.

(* ===================================================================== *)
(** * Layout: what is sent *)
(* ===================================================================== *)

Module Layout.
Import useChatSessions.

(** [uploadedImageUrl || null] *)
Definition image_or_null (uploadedImageUrl : option string) : json :=
  match uploadedImageUrl with
  | Some url => if String.eqb url "" then JNull else JStr url
  | None => JNull
  end.

(** [JSON.stringify({ content: text, image: uploadedImageUrl || null,
                      language: selectedLang.name })] in [handleSend] *)
Definition payload (text : string) (uploadedImageUrl : option string)
  (language : string) : string :=
  JSON.stringify (JObj [("content", JStr text);
                        ("image", image_or_null uploadedImageUrl);
                        ("language", JStr language)]).

(** The frame the server gets for it. *)
Definition frame (threadId text : string) (uploadedImageUrl : option string)
  (language : string) : list (string * json) :=
  [("content", JStr text); ("image", image_or_null uploadedImageUrl);
   ("language", JStr language); ("threadId", JStr threadId)].

(** [text.split(' ').slice(0, 4).join(' ')] *)
Definition first_words (text : string) : string :=
  JSON.join " " (firstn 4 (useWebSocket.split " " text)).

(** [activeSession.messages.length === 0 ? ... : activeSession.title] *)
Definition newTitle (activeSession : Session) (text : string) : string :=
  if (List.length (messages activeSession) =? 0)%nat then first_words text
  else title activeSession.

(** The number of spaces in a text. *)
Fixpoint spaces (text : string) : nat :=
  match text with
  | EmptyString => 0
  | String c rest => (if Ascii.eqb c " " then 1 else 0) + spaces rest
  end.

End Layout.

(* ===================================================================== *)
(** * Sample states *)
(* ===================================================================== *)

(** Concrete states on which the statements below are exercised. *)
Module Samples.
Import ResponseCacheService.

(** Two cached replies, the first written at 1000 ms and the second
    25 hours later. *)
Definition two_entries : list CachedResponse :=
  [mkCachedResponse (JObj [("reply", JStr "first")]) 1000;
   mkCachedResponse (JObj [("reply", JStr "second")]) 90000000].

(** The text [cacheResponse] stores for them. *)
Definition two_entries_text : string :=
  JSON.stringify (JArr (List.map entry_json two_entries)).

Definition two_entries_browser (now : Z) : Browser :=
  mkBrowser {[ _getCacheKey "abc" := two_entries_text ]} now.

Import SharedWebSocketService.

(** Run a handler for its effect on the state. *)
Definition exec {A} (m : M World A) (w : World) : World :=
  match m w with
  | Ret _ w' | Exn _ w' => w'
  | Unmodelled => w
  end.

(** Time passes until the clock shows [now]. *)
Definition at_time (now : Z) (w : World) : World :=
  set_browser (mkBrowser (localStorage (browser w)) now) w.

(** The heartbeat [tab_A] wrote at 1000 ms. *)
Definition record_of_A : string :=
  JSON.stringify (JObj [("tabId", JStr "tab_A"); ("timestamp", JNum 1000)]).

(** A second context [tab_B] starts one second after [tab_A] wrote
    its heartbeat. *)
Definition follower_B : World :=
  fresh "tab_B" (mkBrowser {[ LEADER_KEY := record_of_A ]} 2000).

(** [tab_A] starts on empty storage and becomes Leader; it then hears
    that [tab_B] was elected and resigns while the record still holds
    its own last heartbeat; nine seconds later the user returns to
    it. *)
Definition resigned_A : World :=
  at_time 10000
    (exec (_handleBroadcast (LEADER_ELECTED "tab_B"))
       (exec _attemptLeaderElection (fresh "tab_A" (mkBrowser ∅ 1000)))).

(** A context starting on an ownership record that is not JSON. *)
Definition corrupt_record : string := "{oops".
Definition corrupt_start : World :=
  fresh "tab_C" (mkBrowser {[ LEADER_KEY := corrupt_record ]} 2000).

(** Storage as a context may find it when it starts: the two replies
    cached for [abc], an ownership record, and a cache cell that is
    not JSON. *)
Definition cluttered_storage : Browser :=
  mkBrowser (<[ _getCacheKey "abc" := two_entries_text ]>
            (<[ LEADER_KEY := record_of_A ]>
            (<[ _getCacheKey "bad" := corrupt_record ]> ∅)))
            90000001.


(** [tab_A] leads, a thread was registered and the connect timer has
    run: its socket is connecting. *)
Definition connecting_A : World :=
  exec (fire 2)
    (exec (connectThread "abc")
       (exec _attemptLeaderElection (fresh "tab_A" (mkBrowser ∅ 1000)))).

(** [tab_A] leads and nothing else has happened. *)
Definition leader_A : World :=
  exec _attemptLeaderElection (fresh "tab_A" (mkBrowser ∅ 1000)).

(** The socket of [connecting_A] has opened. *)
Definition open_A : World := exec (socket_onopen 0) connecting_A.

(** [tab_A] leads with an open socket and one subscriber. *)
Definition subscribed_A : World := exec (subscribe 7) open_A.

(** A frame as the server sends it for the conversation [abc]. *)
Definition reply_frame : string :=
  JSON.stringify (JObj [("threadId", JStr "abc"); ("reply", JStr "hello")]).

(** A JSON payload that carries a thread id of its own, and one
    without. *)
Definition tagged_payload : string :=
  JSON.stringify (JObj [("content", JStr "hi"); ("threadId", JStr "zzz")]).

Definition hi_payload : string :=
  JSON.stringify (JObj [("content", JStr "hi")]).

(** A frame was queued while the socket of [connecting_A] was still
    connecting. *)
Definition queued_A : World := exec (sendMessage "abc" hi_payload) connecting_A.

Definition two_sends : list (string * string) :=
  [("abc", tagged_payload); ("def", "plain text")].

Definition two_frames : list string :=
  [JSON.stringify (JObj [("content", JStr "hi"); ("threadId", JStr "abc")]);
   JSON.stringify (JObj [("threadId", JStr "def"); ("content", JStr "plain text")])].

(** Six sessions; [u5] is active and [u1] was accessed longest ago. *)
Definition six_sessions : useChatSessions.State :=
  useChatSessions.run (useChatSessions.initial "u0" 0)
    [useChatSessions.NewChat "u1" 1; useChatSessions.NewChat "u2" 2;
     useChatSessions.NewChat "u3" 3; useChatSessions.NewChat "u4" 4;
     useChatSessions.NewChat "u5" 5; useChatSessions.TabClick "u0" 6;
     useChatSessions.TabClick "u5" 7].

(** The Leader of [open_A] stops needing its socket and the disconnect
    timer closes it; the thread is registered again, the connect timer
    creates a second socket, and a message is sent while that one is
    connecting.  The close event of the first socket has not been
    delivered yet. *)
Definition reconnecting_A : World :=
  exec (sendMessage "abc" hi_payload)
    (exec (fire 4)
       (exec (connectThread "abc")
          (exec (fire 3)
             (exec (disconnectThread "abc") open_A)))).



(** What [handleSend] sends for the text [hello there], without an
    image. *)
Definition hello_payload : string := Layout.payload "hello there" None "English".

(** The data of [reply_frame]. *)
Definition reply_data : json :=
  JObj [("threadId", JStr "abc"); ("reply", JStr "hello")].

(** A hidden page with the conversations [abc] and [def] and nothing
    cached. *)
Definition hidden_page : useWebSocket.Page :=
  useWebSocket.mkPage
    [useChatSessions.newSession "abc" 1; useChatSessions.newSession "def" 2]
    (mkBrowser ∅ 5000) true false.

(** The reply for [abc] arrived while the page was hidden; now the
    user is back. *)
Definition returned_page : useWebSocket.Page :=
  useWebSocket.set_hidden false
    match useWebSocket.handleMessage (JStr "abc") reply_data hidden_page with
    | Ret _ p | Exn _ p => p
    | Unmodelled => hidden_page
    end.

End Samples.

(* ===================================================================== *)
(** * JSON: printing and parsing are inverse on the fragment *)
(* ===================================================================== *)

Module JSONFacts.
Import JSON.
Local Arguments String.append !_ _ / : simpl nomatch.

(** ** Strings *)

Lemma append_assoc (a b c : string) : ((a ++ b) ++ c = a ++ (b ++ c))%string.
Proof. induction a as [|x a IH]; simpl; [reflexivity | now f_equal]. Qed.

Lemma length_append (a b : string) :
  String.length (a ++ b) = (String.length a + String.length b)%nat.
Proof. induction a as [|x a IH]; simpl; [reflexivity | now f_equal]. Qed.

Lemma substring_all (s : string) : String.substring 0 (String.length s) s = s.
Proof. induction s as [|c s IH]; simpl; [reflexivity | now f_equal]. Qed.

(** One escaped character is read back as that character. *)
Lemma parse_chars_escape_char (c : ascii) (t : string) :
  parse_chars (escape_char c ++ t)
  = match parse_chars t with
    | POk t' r => POk (String c t') r
    | PSyntax => PSyntax
    | PUnsupported => PUnsupported
    end.
Proof.
  destruct c as [[] [] [] [] [] [] [] []];
    match goal with
    | |- context [escape_char ?c] =>
        let e := eval vm_compute in (escape_char c) in
        change (escape_char c) with e
    end;
    cbn [String.append parse_chars]; cbv -[parse_chars]; reflexivity.
Qed.

(** After its opening quote, an escaped string is read back up to the
    closing quote. *)
Lemma parse_chars_escape (s rest : string) :
  parse_chars (escape s ++ String "034" rest) = POk s rest.
Proof.
  induction s as [|c s IH]; [reflexivity|].
  cbn [escape]. now rewrite append_assoc, parse_chars_escape_char, IH.
Qed.

(** ** Numbers *)

Lemma parse_digits_uint d : forall acc rest,
  ends_number rest ->
  parse_digits acc (NilEmpty.string_of_uint d ++ rest) = (digits_value acc d, rest).
Proof.
  induction d; intros acc rest Hend; cbn -[Z.mul Z.add];
    try (rewrite IHd by exact Hend; f_equal; f_equal; lia).
  destruct rest as [|c r]; [reflexivity|].
  destruct Hend as [Hd _]. cbn. now rewrite Hd.
Qed.

Lemma digits_value_acc d : forall acc,
  digits_value (Z.pos acc) d = Z.pos (Pos.of_uint_acc d acc).
Proof.
  induction d; intros acc; cbn -[Z.mul Z.add Pos.mul Pos.add];
    [reflexivity | rewrite <- IHd; f_equal; lia ..].
Qed.

Lemma digits_value_of_uint d : digits_value 0 d = Z.of_N (Pos.of_uint d).
Proof.
  induction d; cbn; [reflexivity | exact IHd | apply digits_value_acc ..].
Qed.

Lemma digits_value_to_uint p : digits_value 0 (Pos.to_uint p) = Z.pos p.
Proof. now rewrite digits_value_of_uint, DecimalPos.Unsigned.of_to. Qed.


(** The digits of a positive number do not start with a zero. *)
Lemma to_uint_head p : forall d, Pos.to_uint p <> Decimal.D0 d.
Proof.
  intros d Hd.
  assert (Hn : Decimal.unorm (Pos.to_uint p) = Pos.to_uint p).
  { rewrite <- DecimalPos.Unsigned.to_of, DecimalPos.Unsigned.of_to. reflexivity. }
  assert (Hcase : Decimal.nzhead (Pos.to_uint p) = Decimal.Nil
                  \/ Decimal.nzhead (Pos.to_uint p) <> Decimal.Nil).
  { destruct (Decimal.nzhead (Pos.to_uint p)); [left | right ..]; congruence. }
  destruct Hcase as [Hz | Hz].
  - unfold Decimal.unorm in Hn. rewrite Hz in Hn.
    now apply (DecimalPos.Unsigned.to_uint_nonzero p).
  - rewrite (DecimalFacts.unorm_nzhead _ Hz) in Hn.
    apply (DecimalFacts.nzhead_nonzero (Pos.to_uint p) d). congruence.
Qed.

Lemma parse_nat_lit_pos p rest :
  ends_number rest -> Z.pos p <= MAX_SAFE_INTEGER ->
  parse_nat_lit (NilEmpty.string_of_uint (Pos.to_uint p) ++ rest) = POk (Z.pos p) rest.
Proof.
  intros Hend Hmax.
  pose proof (parse_digits_uint (Pos.to_uint p) 0 rest Hend) as Hdigits.
  rewrite digits_value_to_uint in Hdigits.
  pose proof (to_uint_head p) as Hhead.
  pose proof (DecimalPos.Unsigned.to_uint_nonnil p) as Hnil.
  assert (Hfrac : starts_fraction rest = false).
  { destruct rest; [reflexivity | apply Hend]. }
  assert (Hsafe : (MAX_SAFE_INTEGER <? Z.pos p) = false) by (apply Z.ltb_ge; exact Hmax).
  destruct (Pos.to_uint p) as [|d|d|d|d|d|d|d|d|d|d];
    [contradiction | exfalso; exact (Hhead d eq_refl) | ..];
    cbn [NilEmpty.string_of_uint String.append] in *;
    unfold parse_nat_lit;
    match goal with |- context [is_digit ?c] =>
      change (is_digit c) with true end;
    match goal with |- context [Ascii.eqb ?c "0"] =>
      change (Ascii.eqb c "0") with false end;
    cbv iota; rewrite Hdigits, Hfrac, Hsafe; reflexivity.
Qed.


Lemma string_of_uint_head p :
  exists c r, NilEmpty.string_of_uint (Pos.to_uint p) = String c r
              /\ is_digit c = true /\ Ascii.eqb c "-" = false.
Proof.
  pose proof (DecimalPos.Unsigned.to_uint_nonnil p) as Hnil.
  destruct (Pos.to_uint p); [contradiction | ..]; cbn [NilEmpty.string_of_uint];
    eexists _, _; (split; [reflexivity | split; reflexivity]).
Qed.

(** A printed integer is read back as that integer. *)
Lemma parse_number_string_of_Z n rest :
  ends_number rest -> - MAX_SAFE_INTEGER <= n <= MAX_SAFE_INTEGER ->
  parse_number (string_of_Z n ++ rest) = POk n rest.
Proof.
  intros Hend Hrange.
  assert (Hfrac : starts_fraction rest = false).
  { destruct rest; [reflexivity | apply Hend]. }
  destruct n as [|p|p]; unfold string_of_Z; cbn [Z.to_int NilZero.string_of_int].
  - cbn. now rewrite Hfrac.
  - unfold NilZero.string_of_uint.
    pose proof (DecimalPos.Unsigned.to_uint_nonnil p) as Hnil.
    replace (match Pos.to_uint p with Decimal.Nil => "0" | _ => NilEmpty.string_of_uint (Pos.to_uint p) end)
      with (NilEmpty.string_of_uint (Pos.to_uint p))
      by (destruct (Pos.to_uint p); [contradiction | reflexivity ..]).
    destruct (string_of_uint_head p) as (c & r & Hs & Hd & Hm).
    pose proof (parse_nat_lit_pos p rest Hend (proj2 Hrange)) as Hparse.
    rewrite Hs in *. cbn [String.append] in *. unfold parse_number. now rewrite Hm.
  - unfold NilZero.string_of_uint.
    pose proof (DecimalPos.Unsigned.to_uint_nonnil p) as Hnil.
    replace (match Pos.to_uint p with Decimal.Nil => "0" | _ => NilEmpty.string_of_uint (Pos.to_uint p) end)
      with (NilEmpty.string_of_uint (Pos.to_uint p))
      by (destruct (Pos.to_uint p); [contradiction | reflexivity ..]).
    cbn [String.append]. unfold parse_number. cbn [Ascii.eqb Bool.eqb].
    rewrite (parse_nat_lit_pos p rest Hend); [reflexivity|].
    destruct Hrange as [Hlo _]. lia.
Qed.

Lemma string_of_Z_head n :
  exists c r, string_of_Z n = String c r /\ value_head c = true.
Proof.
  destruct n as [|p|p]; unfold string_of_Z; cbn [Z.to_int NilZero.string_of_int].
  - now exists "0"%char, "".
  - destruct (string_of_uint_head p) as (c & r & Hs & Hd & _).
    pose proof (DecimalPos.Unsigned.to_uint_nonnil p) as Hnil.
    exists c, r. split.
    + unfold NilZero.string_of_uint. rewrite <- Hs.
      destruct (Pos.to_uint p); [contradiction | reflexivity ..].
    + unfold value_head. now rewrite Hd.
  - eexists _, _. split; reflexivity.
Qed.

(** What the parser does at a character that starts a value. *)
Lemma value_head_facts c :
  value_head c = true ->
  is_ws c = false /\ Ascii.eqb c "]" = false /\ Ascii.eqb c "}" = false.
Proof.
  destruct c as [[] [] [] [] [] [] [] []]; intros H; try discriminate H;
    repeat split; reflexivity.
Qed.

Lemma number_head_dispatch c :
  is_digit c || Ascii.eqb c "-" = true ->
  is_ws c = false /\ Ascii.eqb c "n" = false /\ Ascii.eqb c "t" = false
  /\ Ascii.eqb c "f" = false /\ Ascii.eqb c "034" = false
  /\ Ascii.eqb c "[" = false /\ Ascii.eqb c "{" = false.
Proof.
  destruct c as [[] [] [] [] [] [] [] []]; intros H; try discriminate H;
    repeat split; reflexivity.
Qed.


(** ** Values *)

Lemma stringify_head v :
  exists c r, stringify v = String c r /\ value_head c = true.
Proof.
  destruct v as [|[]|n|s|items|fields]; cbn [stringify];
    try (eexists _, _; split; reflexivity).
  apply string_of_Z_head.
Qed.

Lemma set_fresh k v o :
  ~ In k (List.map fst o) -> JSON.set k v o = (o ++ [(k, v)])%list.
Proof.
  induction o as [|[k' v'] o IH]; cbn; intros Hnotin; [reflexivity|].
  destruct (String.eqb k k') eqn:E.
  - apply String.eqb_eq in E. exfalso. apply Hnotin. now left.
  - rewrite IH; [reflexivity|]. intros Hin. apply Hnotin. now right.
Qed.

Lemma define_from ms : forall acc,
  List.NoDup (List.map fst (acc ++ ms)) ->
  fold_left (fun o kv => JSON.set (fst kv) (snd kv) o) ms acc = (acc ++ ms)%list.
Proof.
  induction ms as [|[k v] ms IH]; intros acc Hnd; cbn [fold_left].
  - now rewrite app_nil_r.
  - cbn [fst snd]. rewrite set_fresh.
    + rewrite IH; rewrite <- app_assoc; [reflexivity | exact Hnd].
    + rewrite List.map_app in Hnd. cbn [List.map fst] in Hnd.
      apply List.NoDup_remove_2 in Hnd. intros Hin. apply Hnd.
      apply in_or_app. now left.
Qed.

Lemma define_all_distinct ms :
  List.NoDup (List.map fst ms) -> define_all ms = ms.
Proof. intros Hnd. unfold define_all. now rewrite define_from. Qed.

Lemma after_value_head c r closing :
  value_head c = true -> (closing = "]"%char \/ closing = "}"%char) ->
  after_char closing (skip_ws (String c r)) = None.
Proof.
  intros Hc Hclosing. destruct (value_head_facts c Hc) as (Hws & Hb & Hbr).
  cbn [skip_ws]. rewrite Hws. cbn [after_char].
  now destruct Hclosing as [-> | ->]; [rewrite Hb | rewrite Hbr].
Qed.

Lemma after_comma r : after_char "," (skip_ws (String "," r)) = Some r.
Proof. reflexivity. Qed.

Lemma after_colon r : after_char ":" (skip_ws (String ":" r)) = Some r.
Proof. reflexivity. Qed.

Lemma after_quote r : after_char "034" (skip_ws (String "034" r)) = Some r.
Proof. reflexivity. Qed.

Lemma after_closing_bracket r :
  after_char "," (skip_ws (String "]" r)) = None
  /\ after_char "]" (skip_ws (String "]" r)) = Some r.
Proof. split; reflexivity. Qed.

Lemma after_closing_brace r :
  after_char "," (skip_ws (String "}" r)) = None
  /\ after_char "}" (skip_ws (String "}" r)) = Some r.
Proof. split; reflexivity. Qed.

Lemma ends_number_punct c r :
  c = ","%char \/ c = "]"%char \/ c = "}"%char -> ends_number (String c r).
Proof. intros [-> | [-> | ->]]; split; reflexivity. Qed.

Lemma parse_elements_join items :
  Forall reads_back items -> items <> [] ->
  forall fuel rest,
    (list_sum (List.map (fun x => S (weight x)) items) <= fuel)%nat ->
    parse_elements fuel (join "," (List.map stringify items) ++ String "]" rest)
    = POk items rest.
Proof.
  induction 1 as [|x l Hx Hl IH]; intros Hne fuel rest Hfuel; [contradiction|].
  cbn [List.map list_sum] in Hfuel.
  destruct fuel as [|fuel]; [cbn in Hfuel; lia|].
  cbn [parse_elements].
  destruct l as [|y l].
  - cbn [List.map join].
    rewrite Hx; [| cbn in Hfuel; lia | apply ends_number_punct; auto].
    destruct (after_closing_bracket rest) as [-> ->]. reflexivity.
  - change (join "," (List.map stringify (x :: y :: l)))
      with (stringify x ++ "," ++ join "," (List.map stringify (y :: l)))%string.
    rewrite append_assoc. cbn [String.append].
    rewrite Hx; [| cbn in Hfuel |- *; lia | apply ends_number_punct; auto].
    rewrite after_comma.
    rewrite IH; [reflexivity | discriminate | cbn in Hfuel |- *; lia].
Qed.

Lemma parse_members_join fields :
  Forall (fun kv => reads_back (snd kv)) fields -> fields <> [] ->
  forall fuel rest,
    (list_sum (List.map (fun kv => S (weight (snd kv))) fields) <= fuel)%nat ->
    parse_members fuel
      (join "," (List.map (fun kv => quote (fst kv) ++ ":" ++ stringify (snd kv))%string
                          fields)
       ++ String "}" rest)
    = POk fields rest.
Proof.
  induction 1 as [|[k v] l Hv Hl IH]; intros Hne fuel rest Hfuel; [contradiction|].
  cbn [List.map list_sum fst snd] in Hfuel, Hv.
  destruct fuel as [|fuel]; [cbn in Hfuel; lia|].
  cbn [parse_members].
  destruct l as [|kv l].
  - cbn [List.map join fst snd]. unfold quote.
    cbn [String.append]. rewrite after_quote.
    rewrite !append_assoc. cbn [String.append].
    rewrite parse_chars_escape, after_colon.
    rewrite Hv; [| cbn in Hfuel; lia | apply ends_number_punct; auto].
    destruct (after_closing_brace rest) as [-> ->]. reflexivity.
  - change (join "," (List.map (fun kv => quote (fst kv) ++ ":" ++ stringify (snd kv))%string
                               ((k, v) :: kv :: l)))
      with ((quote k ++ ":" ++ stringify v) ++ ","
            ++ join "," (List.map (fun kv => quote (fst kv) ++ ":" ++ stringify (snd kv))
                                  (kv :: l)))%string.
    unfold quote at 1. cbn [String.append]. rewrite after_quote.
    rewrite !append_assoc. cbn [String.append].
    rewrite parse_chars_escape, after_colon.
    rewrite Hv; [| cbn in Hfuel |- *; lia | apply ends_number_punct; auto].
    rewrite after_comma.
    rewrite IH; [reflexivity | discriminate | cbn in Hfuel |- *; lia].
Qed.


Lemma all_Forall {A} (P : A -> Prop) l : all (List.map P l) <-> Forall P l.
Proof.
  induction l as [|x l IH]; cbn.
  - split; [constructor | trivial].
  - rewrite IH. split; [intros [? ?]; now constructor | now inversion 1].
Qed.

Lemma expect_lit_exact lit v rest :
  expect_lit lit v (lit ++ rest) = POk v rest.
Proof.
  unfold expect_lit.
  assert (Hprefix : String.prefix lit (lit ++ rest) = true).
  { induction lit as [|c lit IH]; simpl; [now destruct rest|].
    destruct (ascii_dec c c); [exact IH | contradiction]. }
  rewrite Hprefix. f_equal.
  rewrite length_append, Nat.add_comm, Nat.add_sub.
  induction lit as [|c lit IH]; simpl; [apply substring_all | apply IH].
  clear. induction lit as [|c lit IH]; simpl; [now destruct rest|].
  destruct (ascii_dec c c); [exact IH | contradiction].
Qed.

(** The parser reads a printed value back, whatever follows it. *)
Lemma parse_value_stringify v : printable v -> reads_back v.
Proof.
  induction v as [|b|n|s|items IH|fields IH] using json_ind_nested;
    intros Hp fuel rest Hfuel Hend;
    (destruct fuel as [|fuel]; [cbn in Hfuel; lia|]).
  - change (parse_value (S fuel) (stringify JNull ++ rest))
      with (expect_lit "null" JNull ("null" ++ rest)).
    apply expect_lit_exact.
  - destruct b.
    + change (parse_value (S fuel) (stringify (JBool true) ++ rest))
        with (expect_lit "true" (JBool true) ("true" ++ rest)).
      apply expect_lit_exact.
    + change (parse_value (S fuel) (stringify (JBool false) ++ rest))
        with (expect_lit "false" (JBool false) ("false" ++ rest)).
      apply expect_lit_exact.
  - cbn [stringify printable] in *.
    destruct (string_of_Z_head n) as (c & r & Hs & Hc).
    pose proof (parse_number_string_of_Z n rest Hend Hp) as Hnum.
    rewrite Hs in *. cbn [String.append] in *.
    assert (Hhead : is_digit c || Ascii.eqb c "-" = true).
    { destruct n as [|p|p]; unfold string_of_Z in Hs;
        cbn [Z.to_int NilZero.string_of_int] in Hs.
      - now injection Hs as <- _.
      - destruct (string_of_uint_head p) as (c' & r' & Hs' & Hd & _).
        pose proof (DecimalPos.Unsigned.to_uint_nonnil p) as Hnil.
        unfold NilZero.string_of_uint in Hs.
        destruct (Pos.to_uint p); [contradiction | ..];
          rewrite Hs' in Hs; injection Hs as <- _; now rewrite Hd.
      - now injection Hs as <- _. }
    destruct (number_head_dispatch c Hhead) as (Hws & Hn & Ht & Hf & Hq & Hb & Hbr).
    cbn [parse_value skip_ws]. rewrite Hws, Hn, Ht, Hf, Hq, Hb, Hbr.
    now rewrite Hnum.
  - cbn [stringify]. unfold quote. cbn [String.append].
    change (parse_value (S fuel) (String "034" ((escape s ++ String "034" "") ++ rest)))
      with (match parse_chars ((escape s ++ String "034" "") ++ rest) with
            | POk str r' => POk (JStr str) r'
            | PSyntax => PSyntax
            | PUnsupported => PUnsupported
            end).
    rewrite append_assoc. cbn [String.append]. now rewrite parse_chars_escape.
  - cbn [stringify weight printable] in *. apply all_Forall in Hp.
    assert (Hitems : Forall reads_back items).
    { apply Forall_forall. intros x Hx.
      rewrite Forall_forall in IH, Hp. now apply IH; [|apply Hp]. }
    cbn [String.append]. rewrite append_assoc. cbn [String.append].
    destruct items as [|x l].
    + reflexivity.
    + destruct (stringify_head x) as (c & r & Hs & Hc).
      assert (Hnone : after_char "]"
                        (skip_ws (join "," (List.map stringify (x :: l)) ++ String "]" rest))
                      = None).
      { cbn [List.map join]. destruct (List.map stringify l);
          rewrite Hs; cbn [String.append]; apply after_value_head; auto. }
      change (parse_value (S fuel)
                (String "[" (join "," (List.map stringify (x :: l)) ++ String "]" rest)))
        with (match after_char "]"
                      (skip_ws (join "," (List.map stringify (x :: l)) ++ String "]" rest))
              with
              | Some r' => POk (JArr []) r'
              | None =>
                  match parse_elements fuel
                          (join "," (List.map stringify (x :: l)) ++ String "]" rest) with
                  | POk vs r' => POk (JArr vs) r'
                  | PSyntax => PSyntax
                  | PUnsupported => PUnsupported
                  end
              end).
      rewrite Hnone, parse_elements_join; [reflexivity | exact Hitems | discriminate | lia].
  - cbn [stringify weight printable] in *. destruct Hp as (Hnd & Hidx & Hp).
    apply (all_Forall (fun kv => printable (snd kv))) in Hp.
    assert (Hfields : Forall (fun kv => reads_back (snd kv)) fields).
    { apply Forall_forall. intros kv Hkv.
      rewrite Forall_forall in IH, Hp. now apply IH; [|apply Hp]. }
    destruct fields as [|[k v] l]; [reflexivity|].
    remember (join "," (List.map (fun kv => quote (fst kv) ++ ":" ++ stringify (snd kv))%string
                                 ((k, v) :: l))) as members eqn:Hm.
    cbn [String.append]. rewrite append_assoc. cbn [String.append].
    assert (Hnone : after_char "}" (skip_ws (members ++ String "}" rest)) = None).
    { rewrite Hm. cbn [List.map join fst snd]. unfold quote at 1.
      destruct (List.map _ l); cbn [String.append]; apply after_value_head; auto. }
    change (parse_value (S fuel) (String "{" (members ++ String "}" rest)))
      with (match after_char "}" (skip_ws (members ++ String "}" rest)) with
            | Some r' => POk (JObj []) r'
            | None =>
                match parse_members fuel (members ++ String "}" rest) with
                | POk ms r' =>
                    if existsb (fun kv => index_like (fst kv)) ms
                    then PUnsupported
                    else POk (JObj (define_all ms)) r'
                | PSyntax => PSyntax
                | PUnsupported => PUnsupported
                end
            end).
    rewrite Hnone, Hm.
    rewrite parse_members_join; [| exact Hfields | discriminate | lia].
    now rewrite Hidx, define_all_distinct.
Qed.


(** ** The fuel [parse] starts with is enough *)

Lemma append_nil_r (s : string) : (s ++ "")%string = s.
Proof. induction s as [|c s IH]; simpl; [reflexivity | now f_equal]. Qed.

Lemma sum_le_join {A} (w : A -> nat) (f : A -> string) l :
  Forall (fun x => (w x <= 2 * String.length (f x))%nat) l ->
  (list_sum (List.map (fun x => S (w x)) l)
   <= 2 * String.length (join "," (List.map f l)) + 2)%nat.
Proof.
  induction 1 as [|x l Hx Hl IH]; [cbn; lia|].
  destruct l as [|y l].
  - cbn [List.map list_sum fold_right join]. lia.
  - change (join "," (List.map f (x :: y :: l)))
      with (f x ++ "," ++ join "," (List.map f (y :: l)))%string.
    rewrite !length_append.
    cbn [List.map list_sum fold_right] in *. cbn [String.length]. lia.
Qed.

Lemma weight_le_length v : (weight v <= 2 * String.length (stringify v))%nat.
Proof.
  induction v as [|b|n|s|items IH|fields IH] using json_ind_nested.
  1-4: match goal with |- context [stringify ?v] =>
         destruct (stringify_head v) as (c & r & -> & _) end;
       cbn [weight String.length]; lia.
  - cbn [weight stringify].
    pose proof (sum_le_join weight stringify items IH) as Hsum.
    rewrite !length_append. cbn [String.length]. lia.
  - cbn [weight stringify].
    pose proof (sum_le_join (fun kv => weight (snd kv))
                  (fun kv => quote (fst kv) ++ ":" ++ stringify (snd kv))%string
                  fields) as Hsum.
    rewrite !length_append. cbn [String.length].
    assert (Hmembers : Forall (fun kv => (weight (snd kv)
                         <= 2 * String.length (quote (fst kv) ++ ":" ++ stringify (snd kv)))%nat)
                         fields).
    { apply Forall_forall. intros kv Hkv. rewrite Forall_forall in IH.
      specialize (IH kv Hkv). rewrite !length_append. lia. }
    specialize (Hsum Hmembers). lia.
Qed.

(** Printing a value of the fragment and parsing the text gives the
    value back. *)
Theorem parse_stringify v : printable v -> parse (stringify v) = POk v "".
Proof.
  intros Hp. unfold parse.
  rewrite <- (append_nil_r (stringify v)) at 2.
  rewrite (parse_value_stringify v Hp); [reflexivity | | exact I].
  pose proof (weight_le_length v). lia.
Qed.

(** ** Setting a property *)

Lemma set_keys k v o :
  List.map fst (set k v o)
  = if existsb (String.eqb k) (List.map fst o) then List.map fst o
    else (List.map fst o ++ [k])%list.
Proof.
  induction o as [|[k' v'] o IH]; cbn; [reflexivity|].
  destruct (String.eqb k k') eqn:E; cbn; [reflexivity|].
  rewrite IH. now destruct (existsb _ _).
Qed.

Lemma set_printable k v o :
  index_like k = false -> printable v ->
  printable (JObj o) -> printable (JObj (set k v o)).
Proof.
  intros Hk Hv (Hnd & Hidx & Hall). cbn [printable]. split; [|split].
  - rewrite set_keys.
    destruct (existsb (String.eqb k) (List.map fst o)) eqn:E; [exact Hnd|].
    apply List.NoDup_app; [exact Hnd | repeat constructor; intros [] |].
    intros a Ha [Heq | []]. subst a.
    assert (existsb (String.eqb k) (List.map fst o) = true); [|congruence].
    apply existsb_exists. exists k. split; [exact Ha | apply String.eqb_refl].
  - clear Hnd Hall. induction o as [|[k' v'] o IH]; cbn in *.
    + now rewrite Hk.
    + apply orb_false_iff in Hidx as [Hk' Ho].
      destruct (String.eqb k k'); cbn; rewrite Hk'; cbn; [exact Ho | now apply IH].
  - clear Hnd Hidx. induction o as [|[k' v'] o IH]; cbn in *.
    + auto.
    + destruct Hall as [Hv' Ho].
      destruct (String.eqb k k'); cbn; [auto | split; [exact Hv' | now apply IH]].
Qed.

(** ** What the parser returns is printable *)

Lemma parse_digits_nonneg s : forall acc, 0 <= acc -> 0 <= fst (parse_digits acc s).
Proof.
  induction s as [|c s IH]; intros acc Hacc; cbn [parse_digits]; [exact Hacc|].
  destruct (is_digit c); [|exact Hacc]. apply IH. lia.
Qed.

Lemma parse_nat_lit_range s n r :
  parse_nat_lit s = POk n r -> 0 <= n <= MAX_SAFE_INTEGER.
Proof.
  unfold parse_nat_lit. destruct s as [|c s]; [discriminate|].
  destruct (is_digit c); [|discriminate].
  destruct (Ascii.eqb c "0").
  - destruct (starts_fraction s); [discriminate|].
    cbn. intros [= <- _]. unfold MAX_SAFE_INTEGER. lia.
  - pose proof (parse_digits_nonneg (String c s) 0 ltac:(lia)) as Hpos.
    destruct (parse_digits 0 (String c s)) as [m r'].
    destruct (starts_fraction r'); [discriminate|].
    destruct (MAX_SAFE_INTEGER <? m) eqn:E; [discriminate|].
    intros [= <- _]. apply Z.ltb_ge in E. cbn in Hpos. lia.
Qed.

Lemma parse_number_range s n r :
  parse_number s = POk n r ->
  - MAX_SAFE_INTEGER <= n <= MAX_SAFE_INTEGER.
Proof.
  unfold parse_number. destruct s as [|c s]; [discriminate|].
  destruct (Ascii.eqb c "-").
  - destruct (parse_nat_lit s) as [m r'| |] eqn:E; try discriminate.
    intros [= <- _]. apply parse_nat_lit_range in E. lia.
  - intros H. apply parse_nat_lit_range in H. lia.
Qed.

Lemma define_from_printable ms : forall acc,
  printable (JObj acc) ->
  existsb (fun kv => index_like (fst kv)) ms = false ->
  Forall (fun kv => printable (snd kv)) ms ->
  printable (JObj (fold_left (fun o kv => set (fst kv) (snd kv) o) ms acc)).
Proof.
  induction ms as [|[k v] ms IH]; intros acc Hacc Hidx Hall; cbn [fold_left]; [exact Hacc|].
  cbn in Hidx. apply orb_false_iff in Hidx as [Hk Hidx].
  apply List.Forall_cons_iff in Hall as [Hv Hall].
  apply IH; [|exact Hidx | exact Hall]. now apply set_printable.
Qed.

Lemma expect_lit_value lit v s w r :
  expect_lit lit v s = POk w r -> w = v.
Proof. unfold expect_lit. destruct (String.prefix lit s); now intros [=]. Qed.

Lemma parse_printable fuel :
  (forall s v r, parse_value fuel s = POk v r -> printable v)
  /\ (forall s vs r, parse_elements fuel s = POk vs r ->
                     Forall printable vs)
  /\ (forall s ms r, parse_members fuel s = POk ms r ->
                     Forall (fun kv => printable (snd kv)) ms).
Proof.
  induction fuel as [|fuel (IHv & IHe & IHm)]; [repeat split; discriminate|].
  split; [|split]; intros s.
  - intros v r. cbn [parse_value].
    destruct (skip_ws s) as [|c t]; [discriminate|].
    destruct (Ascii.eqb c "n"); [intros H; now rewrite (expect_lit_value _ _ _ _ _ H)|].
    destruct (Ascii.eqb c "t"); [intros H; now rewrite (expect_lit_value _ _ _ _ _ H)|].
    destruct (Ascii.eqb c "f"); [intros H; now rewrite (expect_lit_value _ _ _ _ _ H)|].
    destruct (Ascii.eqb c "034").
    { destruct (parse_chars t); try discriminate. now intros [= <- _]. }
    destruct (Ascii.eqb c "[").
    { destruct (after_char "]" (skip_ws t)); [now intros [= <- _]|].
      destruct (parse_elements fuel t) as [vs r'| |] eqn:E; try discriminate.
      intros [= <- _]. cbn [printable]. apply all_Forall. exact (IHe _ _ _ E). }
    destruct (Ascii.eqb c "{").
    { destruct (after_char "}" (skip_ws t)).
      { intros [= <- _]. cbn. repeat split. constructor. }
      destruct (parse_members fuel t) as [ms r'| |] eqn:E; try discriminate.
      destruct (existsb _ ms) eqn:Hidx; [discriminate|].
      intros [= <- _]. apply define_from_printable; [| exact Hidx | exact (IHm _ _ _ E)].
      cbn. repeat split. constructor. }
    destruct (parse_number (String c t)) as [n r'| |] eqn:E; try discriminate.
    intros [= <- _]. cbn [printable]. exact (parse_number_range _ _ _ E).
  - intros vs r. cbn [parse_elements].
    destruct (parse_value fuel s) as [v r1| |] eqn:Ev; try discriminate.
    destruct (after_char "," (skip_ws r1)).
    + destruct (parse_elements fuel s0) as [vs' r2| |] eqn:Ee; try discriminate.
      intros [= <- _]. constructor; [exact (IHv _ _ _ Ev) | exact (IHe _ _ _ Ee)].
    + destruct (after_char "]" (skip_ws r1)); [|discriminate].
      intros [= <- _]. constructor; [exact (IHv _ _ _ Ev) | constructor].
  - intros ms r. cbn [parse_members].
    destruct (after_char "034" (skip_ws s)) as [r0|]; [|discriminate].
    destruct (parse_chars r0) as [k r1| |]; try discriminate.
    destruct (after_char ":" (skip_ws r1)) as [r2|]; [|discriminate].
    destruct (parse_value fuel r2) as [v r3| |] eqn:Ev; try discriminate.
    destruct (after_char "," (skip_ws r3)) as [r4|].
    + destruct (parse_members fuel r4) as [ms' r5| |] eqn:Em; try discriminate.
      intros [= <- _]. constructor; [exact (IHv _ _ _ Ev) | exact (IHm _ _ _ Em)].
    + destruct (after_char "}" (skip_ws r3)); [|discriminate].
      intros [= <- _]. constructor; [exact (IHv _ _ _ Ev) | constructor].
Qed.

(** A parsed value can be printed and parsed again. *)
Theorem parse_gives_printable text v r :
  parse text = POk v r -> printable v.
Proof.
  unfold parse.
  destruct (parse_value _ text) as [v' r'| |] eqn:E; try discriminate.
  - destruct (skip_ws r'); [|discriminate]. intros [= <- _].
    exact (proj1 (parse_printable _) _ _ _ E).
  - destruct (well_formed text); discriminate.
Qed.


Lemma parse_not_well_formed text :
  well_formed text = false ->
  parse text = PSyntax \/ exists v, parse text = POk v "".
Proof.
  intros Hw. unfold parse. destruct (parse_value _ text) as [v r| |]; [|now left|].
  - destruct (skip_ws r); [right; now exists v | now left].
  - rewrite Hw. now left.
Qed.

End JSONFacts.

(* ===================================================================== *)
(** * Facts about the built-ins *)
(* ===================================================================== *)

Module JsFacts.
Import Js.



Lemma parse_truthy text v r :
  JSON.parse text = JSON.POk v r -> truthy_item (Some text) = true.
Proof. destruct text; [discriminate | reflexivity]. Qed.

Lemma JSON_parse_ok {S} text v (s : S) :
  JSON.parse text = JSON.POk v "" -> JSON_parse text s = Ret v s.
Proof. unfold JSON_parse. now intros ->. Qed.

Lemma JSON_parse_syntax {S} text (s : S) :
  JSON.parse text = JSON.PSyntax -> JSON_parse text s = Exn SyntaxError s.
Proof. unfold JSON_parse. now intros ->. Qed.

(** A parse that succeeds has read the whole text. *)
Lemma parse_rest text v r : JSON.parse text = JSON.POk v r -> r = "".
Proof.
  unfold JSON.parse.
  destruct (JSON.parse_value _ text) as [v' r'| |]; [|discriminate|].
  - destruct (JSON.skip_ws r'); [|discriminate]. now intros [= _ <-].
  - destruct (JSON.well_formed text); discriminate.
Qed.

End JsFacts.

(* ===================================================================== *)
(** * ResponseCacheService: properties *)
(* ===================================================================== *)

Module ResponseCacheFacts.
Import Js JsFacts JSONFacts ResponseCacheService Samples.
Local Open Scope list_scope.

Lemma filterM_entries now es b :
  filterM (not_expired now) (List.map entry_json es) b
  = Ret (List.map entry_json (List.filter (fresh_at now) es)) b.
Proof.
  induction es as [|e es IH]; [reflexivity|].
  cbn [List.map filterM]. unfold bind at 1.
  change (not_expired now (entry_json e) b) with (Ret (fresh_at now e) b).
  unfold bind at 1. rewrite IH. cbn. now destruct (fresh_at now e).
Qed.

Lemma mapM_response es (b : Browser) :
  mapM (read_prop "response") (List.map entry_json es) b
  = Ret (List.map (fun e => Some (response e)) es) b.
Proof.
  induction es as [|e es IH]; [reflexivity|].
  cbn [List.map mapM]. unfold bind at 1. cbn. unfold bind. now rewrite IH.
Qed.

(** Draining a stored list of entries. *)
Lemma getAndClearCache_list threadId (entries : list CachedResponse) text b :
  localStorage b !! _getCacheKey threadId = Some text ->
  JSON.parse text = JSON.POk (JArr (List.map entry_json entries)) "" ->
  getAndClearCache threadId b
  = Ret (List.map (fun e => Some (response e))
                  (List.filter (fresh_at (clock b)) entries))
        (drained threadId b).
Proof.
  intros Hget Hparse.
  unfold getAndClearCache, try_catch, bind at 1, getItem, gets.
  rewrite Hget, (parse_truthy _ _ _ Hparse). cbn [negb default].
  unfold bind at 1. rewrite (JSON_parse_ok _ _ _ Hparse).
  unfold bind at 1, removeItem, modify.
  unfold bind at 1, Date_now, gets. cbn [clock].
  unfold bind at 1, filter. now rewrite filterM_entries, mapM_response.
Qed.

(** Draining an absent list. *)
Lemma getAndClearCache_absent threadId b :
  localStorage b !! _getCacheKey threadId = None ->
  getAndClearCache threadId b = Ret [] b.
Proof.
  intros Hget. unfold getAndClearCache, try_catch, bind, getItem, gets.
  now rewrite Hget.
Qed.

(** C4. For every conversation id and every stored list of cache
    entries, [getAndClearCache] returns the responses of the entries
    whose age is below the 24-hour TTL, in the order of the stored
    list, and removes the list; a second call right after returns the
    empty list. *)
Theorem drain_returns_fresh_entries_in_order
  threadId (entries : list CachedResponse) text b :
  localStorage b !! _getCacheKey threadId = Some text ->
  JSON.parse text = JSON.POk (JArr (List.map entry_json entries)) "" ->
  getAndClearCache threadId b
  = Ret (List.map (fun e => Some (response e))
                  (List.filter (fresh_at (clock b)) entries))
        (drained threadId b)
  /\ getAndClearCache threadId (drained threadId b) = Ret [] (drained threadId b).
Proof.
  intros Hget Hparse. split.
  - now apply getAndClearCache_list with (text := text).
  - apply getAndClearCache_absent. unfold drained. cbn [localStorage].
    apply lookup_delete_eq.
Qed.

Lemma drain_returns_fresh_entries_in_order_witness :
  getAndClearCache "abc" (two_entries_browser 90000001)
  = Ret [Some (JObj [("reply", JStr "second")])]
        (drained "abc" (two_entries_browser 90000001))
  /\ getAndClearCache "abc" (drained "abc" (two_entries_browser 90000001))
     = Ret [] (drained "abc" (two_entries_browser 90000001)).
Proof.
  apply (drain_returns_fresh_entries_in_order
           "abc" two_entries two_entries_text (two_entries_browser 90000001));
    vm_compute; reflexivity.
Defined.




(** ** Unparsable cache text *)

(** The cache read treats text that is not JSON as an empty list: it
    returns normally and leaves the cell as it is. *)
Lemma getAndClearCache_corrupt threadId text b :
  localStorage b !! _getCacheKey threadId = Some text ->
  JSON.parse text = JSON.PSyntax ->
  getAndClearCache threadId b = Ret [] b.
Proof.
  intros Hget Hsyn.
  unfold getAndClearCache, try_catch, bind at 1, getItem, gets. rewrite Hget.
  destruct (truthy_item (Some text)); cbn [negb default]; [|reflexivity].
  unfold bind at 1. now rewrite (JSON_parse_syntax _ _ Hsyn).
Qed.

(** The next [cacheResponse] overwrites such text with a list of the
    one new entry. *)
Lemma cacheResponse_heals threadId text response b :
  localStorage b !! _getCacheKey threadId = Some text ->
  JSON.parse text = JSON.PSyntax ->
  cacheResponse threadId response b
  = Ret tt (mkBrowser
              (<[_getCacheKey threadId :=
                   JSON.stringify (JArr [entry_json (mkCachedResponse response (clock b))])]>
                 (localStorage b))
              (clock b)).
Proof.
  intros Hget Hsyn.
  unfold cacheResponse, try_catch at 1, bind at 1, getItem, gets. rewrite Hget.
  destruct (truthy_item (Some text)); cbn [default].
  - unfold bind at 1, try_catch. now rewrite (JSON_parse_syntax _ _ Hsyn).
  - reflexivity.
Qed.

(** ** Caching, then draining *)

Lemma printable_entry e :
  JSON.printable (response e) ->
  - JSON.MAX_SAFE_INTEGER <= cachedAt e <= JSON.MAX_SAFE_INTEGER ->
  JSON.printable (entry_json e).
Proof.
  intros Hr Ht. cbn. split; [|split; [reflexivity|]].
  - repeat constructor; cbn; intuition discriminate.
  - auto.
Qed.

Lemma parse_entries entries :
  printable_entries entries ->
  JSON.parse (JSON.stringify (JArr (List.map entry_json entries)))
  = JSON.POk (JArr (List.map entry_json entries)) "".
Proof.
  intros Hp. apply parse_stringify. cbn [JSON.printable].
  apply all_Forall. apply List.Forall_forall. intros v Hv.
  apply in_map_iff in Hv as (e & <- & He).
  unfold printable_entries in Hp. rewrite List.Forall_forall in Hp.
  destruct (Hp e He). now apply printable_entry.
Qed.

(** [cacheResponse] appends the new entry to the stored list. *)
Lemma cacheResponse_appends threadId response items text b :
  localStorage b !! _getCacheKey threadId = Some text ->
  JSON.parse text = JSON.POk (JArr items) "" ->
  cacheResponse threadId response b
  = Ret tt (mkBrowser
              (<[_getCacheKey threadId :=
                   JSON.stringify
                     (JArr (items ++ [entry_json (mkCachedResponse response (clock b))]))]>
                 (localStorage b))
              (clock b)).
Proof.
  intros Hget Hparse.
  unfold cacheResponse, try_catch at 1, bind at 1, getItem, gets. rewrite Hget.
  rewrite (parse_truthy _ _ _ Hparse). cbn [default].
  unfold bind at 1, try_catch. now rewrite (JSON_parse_ok _ _ _ Hparse).
Qed.

Lemma cacheResponse_first threadId response b :
  localStorage b !! _getCacheKey threadId = None ->
  cacheResponse threadId response b
  = Ret tt (mkBrowser
              (<[_getCacheKey threadId :=
                   JSON.stringify (JArr [entry_json (mkCachedResponse response (clock b))])]>
                 (localStorage b))
              (clock b)).
Proof.
  intros Hget.
  unfold cacheResponse, try_catch at 1, bind at 1, getItem, gets. now rewrite Hget.
Qed.

Lemma cache_all_from threadId rest : forall done b,
  printable_entries (done ++ rest) -> cell_holds threadId done b ->
  exists b', cache_all threadId rest b = Ret tt b'
             /\ cell_holds threadId (done ++ rest) b'.
Proof.
  induction rest as [|e rest IH]; intros done b Hp Hcell.
  - exists b. split; [reflexivity|]. now rewrite app_nil_r.
  - cbn [cache_all].
    assert (Hstep : cacheResponse threadId (response e)
                      (mkBrowser (localStorage b) (cachedAt e))
                    = Ret tt (mkBrowser
                                (<[_getCacheKey threadId :=
                                     JSON.stringify
                                       (JArr (List.map entry_json (done ++ [e])))]>
                                   (localStorage b))
                                (cachedAt e))).
    { unfold cell_holds in Hcell. destruct done as [|d done].
      - rewrite cacheResponse_first by exact Hcell. now destruct e.
      - rewrite (cacheResponse_appends _ _ (List.map entry_json (d :: done))
                   (JSON.stringify (JArr (List.map entry_json (d :: done)))));
          [| exact Hcell |].
        + cbn [clock localStorage]. rewrite List.map_app. now destruct e.
        + apply parse_entries. unfold printable_entries in *.
          apply List.Forall_app in Hp. apply Hp. }
    rewrite Hstep.
    destruct (IH (done ++ [e])
                 (mkBrowser
                    (<[_getCacheKey threadId :=
                         JSON.stringify (JArr (List.map entry_json (done ++ [e])))]>
                       (localStorage b))
                    (cachedAt e))) as (b' & Hrun & Hcell').
    + now rewrite <- app_assoc.
    + unfold cell_holds. cbn [localStorage]. rewrite lookup_insert_eq.
      now destruct done.
    + exists b'. split; [exact Hrun|]. now rewrite <- app_assoc in Hcell'.
Qed.

(** X1.  Cache round trip: whatever was cached for a conversation by
    successive calls of [cacheResponse], in whatever number, is
    returned by [getAndClearCache] in the order it was cached, without
    the entries that have reached the TTL, and nothing is left. *)
Theorem cache_round_trip threadId entries b now :
  printable_entries entries ->
  localStorage b !! _getCacheKey threadId = None ->
  exists cached after,
    cache_all threadId entries b = Ret tt cached
    /\ getAndClearCache threadId (mkBrowser (localStorage cached) now)
       = Ret (List.map (fun e => Some (response e))
                       (List.filter (fresh_at now) entries))
             after
    /\ localStorage after !! _getCacheKey threadId = None.
Proof.
  intros Hp Hnone.
  destruct (cache_all_from threadId entries [] b Hp Hnone) as (cached & Hrun & Hcell).
  cbn [app] in Hcell. unfold cell_holds in Hcell.
  exists cached. destruct entries as [|e entries].
  - exists (mkBrowser (localStorage cached) now). split; [exact Hrun|].
    split; [now apply getAndClearCache_absent | exact Hcell].
  - exists (drained threadId (mkBrowser (localStorage cached) now)).
    split; [exact Hrun|]. split.
    + apply getAndClearCache_list
        with (text := JSON.stringify (JArr (List.map entry_json (e :: entries))));
        [exact Hcell | now apply parse_entries].
    + unfold drained. cbn [localStorage]. apply lookup_delete_eq.
Qed.

(** After a cell of text that is not JSON was overwritten, the cell can
    be read again. *)
Lemma cacheResponse_heals_readable threadId text response b :
  localStorage b !! _getCacheKey threadId = Some text ->
  JSON.parse text = JSON.PSyntax ->
  JSON.printable response ->
  - JSON.MAX_SAFE_INTEGER <= clock b <= JSON.MAX_SAFE_INTEGER ->
  exists b' healed,
    cacheResponse threadId response b = Ret tt b'
    /\ localStorage b' !! _getCacheKey threadId = Some healed
    /\ JSON.parse healed
       = JSON.POk (JArr [entry_json (mkCachedResponse response (clock b))]) "".
Proof.
  intros Hget Hsyn Hr Ht. eexists _, _.
  split; [now apply cacheResponse_heals with (text := text)|].
  cbn [localStorage]. split; [apply lookup_insert_eq|].
  apply (parse_entries [mkCachedResponse response (clock b)]).
  constructor; [split; assumption | constructor].
Qed.

End ResponseCacheFacts.

(* ===================================================================== *)
(** * SharedWebSocketService: properties *)
(* ===================================================================== *)

Module SharedWebSocketFacts.
Import Js JsFacts JSONFacts SharedWebSocketService Samples.

Ltac unfold_m :=
  unfold bind, ret, gets, modify, throw, unmodelled, try_catch, when, zoom in *.

(** ** Stepping through a handler *)

Lemma bind_Ret {S A B} (m : M S A) (k : A -> M S B) s a s' :
  m s = Ret a s' -> bind m k s = k a s'.
Proof. unfold bind. now intros ->. Qed.

Lemma set_browser_same w : set_browser (browser w) w = w.
Proof. now destruct w. Qed.

Lemma in_browser_getItem k w :
  in_browser (getItem k) w = Ret (localStorage (browser w) !! k) w.
Proof. unfold in_browser, zoom, getItem, gets. now rewrite set_browser_same. Qed.

Lemma in_browser_Date_now w : in_browser Date_now w = Ret (clock (browser w)) w.
Proof. unfold in_browser, zoom, Date_now, gets. now rewrite set_browser_same. Qed.

Lemma read_prop_obj {S} k fields (s : S) :
  read_prop k (JObj fields) s = Ret (JSON.get k fields) s.
Proof. reflexivity. Qed.

Lemma strict_ne_string_true owner me :
  strict_ne_string (Some (JStr owner)) me = true <-> owner <> me.
Proof.
  cbn. destruct (String.eqb owner me) eqn:E; cbn.
  - apply String.eqb_eq in E. split; [discriminate | contradiction].
  - apply String.eqb_neq in E. split; [auto | reflexivity].
Qed.

(** ** Scheduling and leadership *)

Lemma _scheduleConnect_returns w :
  exists w', _scheduleConnect w = Ret tt w' /\ same_but_timers w w'.
Proof.
  destruct w as [? ? sock ct dt ? ? ? ? ? ? socks ? ? ? ?].
  unfold _scheduleConnect, setTimer, clearTimer, same_but_timers. unfold_m.
  unfold socket_open_or_connecting, readyState. cbn.
  destruct dt as [dt|]; cbn; destruct sock as [id|]; cbn.
  all: try destruct (default CLOSED (socks !! id)); cbn.
  all: try destruct ct as [ct|]; cbn.
  all: eexists; split; [reflexivity|]; cbn; repeat split; reflexivity.
Qed.

Lemma _becomeLeader_returns w :
  exists w', _becomeLeader w = Ret tt w'
    /\ isLeader w' = true
    /\ tabId w' = tabId w
    /\ activeThreads w' = activeThreads w
    /\ channel w' = (channel w ++ [LEADER_ELECTED (tabId w)])%list
    /\ browser w'
       = mkBrowser
           (<[LEADER_KEY := JSON.stringify (JObj [("tabId", JStr (tabId w));
                                                   ("timestamp", JNum (clock (browser w)))])]>
              (localStorage (browser w)))
           (clock (browser w)).
Proof.
  unfold _becomeLeader, _updateLeaderHeartbeat, in_browser, Date_now, setItem, setTimer,
    postMessage.
  unfold_m. cbn -[_scheduleConnect JSON.stringify].
  destruct (bool_decide (activeThreads w = ∅)); cbn -[_scheduleConnect JSON.stringify].
  - eexists. split; [reflexivity|]. cbn -[JSON.stringify]. repeat split; reflexivity.
  - match goal with |- context [_scheduleConnect ?x] =>
      destruct (_scheduleConnect_returns x) as (w' & -> & Hs) end.
    exists w'. split; [reflexivity|].
    destruct Hs as (Ht & Hl & _ & _ & Ha & _ & _ & Hb & Hc & _).
    rewrite Hl, Ht, Ha, Hc, Hb. cbn -[JSON.stringify]. repeat split; reflexivity.
Qed.

(** The election reads of a well-formed record. *)
Lemma passive_election_eval w owner timestamp :
  owner_record w owner timestamp ->
  _attemptLeaderElection w =
  if (clock (browser w) - timestamp <? LEADER_TIMEOUT)
     && strict_ne_string (Some (JStr owner)) (tabId w)
  then Ret tt (set_isLeader false w) else _becomeLeader w.
Proof.
  intros (text & fields & Hget & Hparse & Howner & Hts).
  unfold _attemptLeaderElection.
  rewrite (bind_Ret _ _ _ _ _ (in_browser_getItem _ _)).
  rewrite (bind_Ret _ _ _ _ _ (in_browser_Date_now _)).
  rewrite Hget, (parse_truthy _ _ _ Hparse). cbn [default].
  rewrite (bind_Ret _ _ _ _ _ (JSON_parse_ok _ _ _ Hparse)).
  rewrite (bind_Ret _ _ _ _ _ (read_prop_obj _ _ _)), Howner.
  rewrite (bind_Ret _ _ _ _ _ (read_prop_obj _ _ _)), Hts.
  unfold ToNumber. rewrite (bind_Ret (ret (Num timestamp)) _ w _ w eq_refl).
  rewrite (bind_Ret (gets tabId) _ w _ w eq_refl).
  unfold lt, sub. now destruct (_ && _).
Qed.

Lemma aggressive_election_eval w owner timestamp :
  owner_record w owner timestamp ->
  _attemptAggressiveLeaderElection w =
  if (VISIBILITY_FAILOVER_MS <? clock (browser w) - timestamp)
     && strict_ne_string (Some (JStr owner)) (tabId w)
  then _becomeLeader w else Ret tt w.
Proof.
  intros (text & fields & Hget & Hparse & Howner & Hts).
  unfold _attemptAggressiveLeaderElection.
  rewrite (bind_Ret _ _ _ _ _ (in_browser_getItem _ _)).
  rewrite (bind_Ret _ _ _ _ _ (in_browser_Date_now _)).
  rewrite Hget, (parse_truthy _ _ _ Hparse). cbn [default].
  rewrite (bind_Ret _ _ _ _ _ (JSON_parse_ok _ _ _ Hparse)).
  rewrite (bind_Ret _ _ _ _ _ (read_prop_obj _ _ _)), Howner.
  rewrite (bind_Ret _ _ _ _ _ (read_prop_obj _ _ _)), Hts.
  unfold ToNumber. rewrite (bind_Ret (ret (Num timestamp)) _ w _ w eq_refl).
  rewrite (bind_Ret (gets tabId) _ w _ w eq_refl).
  unfold gt, lt, sub. now destruct (_ && _).
Qed.

Lemma election_absent_eval w :
  truthy_item (localStorage (browser w) !! LEADER_KEY) = false ->
  _attemptLeaderElection w = _becomeLeader w
  /\ _attemptAggressiveLeaderElection w = _becomeLeader w.
Proof.
  intros Hnone. unfold _attemptLeaderElection, _attemptAggressiveLeaderElection.
  rewrite !(bind_Ret _ _ _ _ _ (in_browser_getItem _ _)).
  rewrite !(bind_Ret _ _ _ _ _ (in_browser_Date_now _)).
  now rewrite Hnone.
Qed.

Lemma visibility_follower_eval w :
  isLeader w = false ->
  _handleVisibilityChange false w = _attemptAggressiveLeaderElection w.
Proof.
  intros Hl. unfold _handleVisibilityChange.
  rewrite (bind_Ret (gets isLeader) _ w _ w eq_refl). now rewrite Hl.
Qed.

(** The check case by case.  When a context that is not Leader becomes
    visible it re-checks the ownership record against the 3-second
    [VISIBILITY_FAILOVER_MS]: it becomes Leader if the record is
    absent, or if the record names another context and its age
    exceeds 3 s; otherwise (age at most 3 s, or the record names this
    context) it remains Follower, with its state unchanged.  The
    passive election keeps it Follower up to an age of 5 s. *)
Theorem visibility_election w :
  isLeader w = false ->
  (_handleVisibilityChange true w = Ret tt w)
  /\ (truthy_item (localStorage (browser w) !! LEADER_KEY) = false ->
      becomes_leader (_handleVisibilityChange false w))
  /\ (forall owner timestamp,
        owner_record w owner timestamp ->
        (VISIBILITY_FAILOVER_MS < clock (browser w) - timestamp ->
         owner <> tabId w ->
         becomes_leader (_handleVisibilityChange false w))
        /\ (clock (browser w) - timestamp <= VISIBILITY_FAILOVER_MS \/ owner = tabId w ->
            _handleVisibilityChange false w = Ret tt w)
        /\ (clock (browser w) - timestamp < LEADER_TIMEOUT ->
            owner <> tabId w ->
            _attemptLeaderElection w = Ret tt w)).
Proof.
  intros Hl. split; [reflexivity|].
  rewrite (visibility_follower_eval w Hl). split.
  - intros Hnone. destruct (election_absent_eval w Hnone) as [_ ->].
    destruct (_becomeLeader_returns w) as (w' & Hb & Hl' & _). now exists w'.
  - intros owner ts Hrec.
    rewrite (aggressive_election_eval w owner ts Hrec).
    rewrite (passive_election_eval w owner ts Hrec).
    split; [|split].
    + intros Hage Hne.
      apply Z.ltb_lt in Hage. apply strict_ne_string_true in Hne.
      rewrite Hage, Hne. cbn [andb].
      destruct (_becomeLeader_returns w) as (w' & Hb & Hl' & _). now exists w'.
    + intros [Hage | ->].
      * apply Z.ltb_ge in Hage. now rewrite Hage.
      * replace (strict_ne_string _ _) with false; [now rewrite andb_false_r|].
        cbn. now rewrite String.eqb_refl.
    + intros Hage Hne.
      apply Z.ltb_lt in Hage. apply strict_ne_string_true in Hne.
      rewrite Hage, Hne. cbn [andb]. f_equal.
      destruct w. cbn in Hl. now subst.
Qed.

(** ** A heartbeat can be read by every context *)

Lemma heartbeat_readable me now :
  - JSON.MAX_SAFE_INTEGER <= now <= JSON.MAX_SAFE_INTEGER ->
  JSON.parse (JSON.stringify (JObj [("tabId", JStr me); ("timestamp", JNum now)]))
  = JSON.POk (JObj [("tabId", JStr me); ("timestamp", JNum now)]) "".
Proof.
  intros Hnow. apply parse_stringify. cbn. split; [|split; [reflexivity | auto]].
  repeat constructor; cbn; intuition discriminate.
Qed.

Lemma _becomeLeader_writes_record w :
  - JSON.MAX_SAFE_INTEGER <= clock (browser w) <= JSON.MAX_SAFE_INTEGER ->
  exists w', _becomeLeader w = Ret tt w'
    /\ isLeader w' = true
    /\ clock (browser w') = clock (browser w)
    /\ owner_record w' (tabId w) (clock (browser w)).
Proof.
  intros Hnow.
  destruct (_becomeLeader_returns w) as (w' & Hrun & Hl & _ & _ & _ & Hb).
  exists w'. split; [exact Hrun|]. split; [exact Hl|].
  unfold owner_record. rewrite Hb. cbn [clock]. split; [reflexivity|].
  eexists _, _. cbn [localStorage].
  split; [apply lookup_insert_eq|]. split; [now apply heartbeat_readable|].
  split; reflexivity.
Qed.

(** X9.  A context that starts while the heartbeat another context
    wrote on becoming Leader is less than [LEADER_TIMEOUT] old becomes
    Follower and changes nothing; once the heartbeat is that old, it
    takes over. *)
Theorem newcomer_election w tab now :
  - JSON.MAX_SAFE_INTEGER <= clock (browser w) <= JSON.MAX_SAFE_INTEGER ->
  tab <> tabId w ->
  exists w', _becomeLeader w = Ret tt w'
    /\ let b := mkBrowser (localStorage (browser w')) now in
       (now - clock (browser w) < LEADER_TIMEOUT ->
        constructor tab b = Ret tt (fresh tab b))
       /\ (LEADER_TIMEOUT <= now - clock (browser w) ->
           becomes_leader (constructor tab b)).
Proof.
  intros Hnow Hne.
  destruct (_becomeLeader_writes_record w Hnow) as (w' & Hrun & _ & _ & Hrec).
  exists w'. split; [exact Hrun|]. cbn zeta.
  set (b := mkBrowser (localStorage (browser w')) now).
  assert (Hrec' : owner_record (fresh tab b) (tabId w) (clock (browser w))).
  { destruct Hrec as (text & fields & Hget & Hrest). now exists text, fields. }
  unfold constructor. rewrite (passive_election_eval _ _ _ Hrec').
  assert (Hother : strict_ne_string (Some (JStr (tabId w))) (tabId (fresh tab b)) = true).
  { apply strict_ne_string_true. cbn. congruence. }
  rewrite Hother, andb_true_r. cbn [fresh browser clock b].
  split; intros Hage.
  - apply Z.ltb_lt in Hage. now rewrite Hage.
  - apply Z.ltb_ge in Hage. rewrite Hage.
    destruct (_becomeLeader_returns (fresh tab b)) as (w'' & Hb & Hl & _).
    now exists w''.
Qed.

(** ** Frames *)

Lemma frame_of_spec t p w :
  frame_of t p w =
  match JSON.parse p with
  | JSON.POk v _ =>
      match own_props v with
      | Some props =>
          Ret (JSON.stringify (JObj (JSON.set "threadId" (JStr t) props))) w
      | None => Unmodelled
      end
  | JSON.PSyntax =>
      Ret (JSON.stringify (JObj [("threadId", JStr t); ("content", JStr p)])) w
  | JSON.PUnsupported => Unmodelled
  end.
Proof.
  unfold frame_of, JSON_parse, spread. unfold_m.
  destruct (JSON.parse p) as [v r| |]; [|reflexivity..].
  now destruct (own_props v).
Qed.

Lemma frame_of_pure t p w f w' :
  frame_of t p w = Ret f w' -> w' = w /\ forall w0, frame_of t p w0 = Ret f w0.
Proof.
  rewrite frame_of_spec. intros H. split.
  - destruct (JSON.parse p) as [v r| |]; [destruct (own_props v)|..]; congruence.
  - intros w0. rewrite frame_of_spec.
    destruct (JSON.parse p) as [v r| |]; [destruct (own_props v)|..]; congruence.
Qed.

Lemma frame_of_never_throws t p w : throws (frame_of t p w) = false.
Proof.
  rewrite frame_of_spec.
  destruct (JSON.parse p) as [v r| |]; [destruct (own_props v)|..]; reflexivity.
Qed.

(** The three outcomes of a Leader's send, by the state of its socket. *)
Lemma _sendViaWebSocket_leader t p f w :
  isLeader w = true -> frame_of t p w = Ret f w ->
  _sendViaWebSocket t p w =
  match socket w with
  | Some id =>
      match readyState w id with
      | OPEN => Ret true (set_wire (wire w ++ [(id, f)]) w)
      | CONNECTING => Ret true (set_messageQueue (messageQueue w ++ [f]) w)
      | CLOSING | CLOSED => Ret false w
      end
  | None => Ret false w
  end.
Proof.
  intros Hl Hf. unfold _sendViaWebSocket.
  rewrite (bind_Ret (gets isLeader) _ w _ w eq_refl), Hl. cbn [negb].
  rewrite (bind_Ret _ _ _ _ _ Hf).
  unfold_m. unfold socket_is, socket_send.
  destruct (socket w) as [id|]; [|reflexivity].
  destruct (readyState w id) eqn:Hr; cbn; rewrite ?Hr; reflexivity.
Qed.

Lemma sendMessage_leader t p w :
  isLeader w = true -> sendMessage t p w = _sendViaWebSocket t p w.
Proof.
  intros Hl. unfold sendMessage.
  now rewrite (bind_Ret (gets isLeader) _ w _ w eq_refl), Hl.
Qed.

Lemma socket_open_or_connecting_false w id :
  socket w = Some id -> socket_open_or_connecting w = false ->
  readyState w id = CLOSING \/ readyState w id = CLOSED.
Proof.
  unfold socket_open_or_connecting. intros ->.
  destruct (readyState w id); cbn; intros; try discriminate; auto.
Qed.

(** C1 (amended).  [sendMessage] never throws.  In a context that is
    not Leader it posts a [SEND_MESSAGE] request carrying the raw
    payload on the channel and returns true, whatever the state of
    the connection.  In the Leader it transmits the frame at once and
    returns true when the socket is open, appends the frame to the
    end of [messageQueue] and returns true when the socket is
    connecting, and returns false, changing nothing, when there is no
    open or opening socket. *)
Theorem sendMessage_cases t p w :
  throws (sendMessage t p w) = false
  /\ (isLeader w = false ->
      sendMessage t p w
      = Ret true (set_channel (channel w ++ [SEND_MESSAGE t p (tabId w)]) w))
  /\ (isLeader w = true -> forall f, frame_of t p w = Ret f w ->
      (forall id, socket w = Some id -> readyState w id = OPEN ->
         sendMessage t p w = Ret true (set_wire (wire w ++ [(id, f)]) w))
      /\ (forall id, socket w = Some id -> readyState w id = CONNECTING ->
         sendMessage t p w = Ret true (set_messageQueue (messageQueue w ++ [f]) w))
      /\ (socket_open_or_connecting w = false ->
         sendMessage t p w = Ret false w)).
Proof.
  split; [|split].
  - destruct (isLeader w) eqn:Hl.
    + rewrite (sendMessage_leader _ _ _ Hl).
      pose proof (frame_of_never_throws t p w) as Hn.
      destruct (frame_of t p w) as [f w'| |] eqn:Hf; [|discriminate|].
      * destruct (frame_of_pure _ _ _ _ _ Hf) as [-> _].
        rewrite (_sendViaWebSocket_leader _ _ _ _ Hl Hf).
        destruct (socket w) as [id|]; [|reflexivity].
        now destruct (readyState w id).
      * unfold _sendViaWebSocket.
        rewrite (bind_Ret (gets isLeader) _ w _ w eq_refl), Hl. cbn [negb].
        unfold bind at 1. now rewrite Hf.
    + unfold sendMessage. unfold_m. now rewrite Hl.
  - intros Hl. unfold sendMessage. unfold_m. now rewrite Hl.
  - intros Hl f Hf. rewrite (sendMessage_leader _ _ _ Hl).
    rewrite (_sendViaWebSocket_leader _ _ _ _ Hl Hf).
    split; [|split].
    + intros id -> ->. reflexivity.
    + intros id -> ->. reflexivity.
    + intros Hno. destruct (socket w) as [id|] eqn:Hs; [|reflexivity].
      now destruct (socket_open_or_connecting_false w id Hs Hno) as [-> | ->].
Qed.

(** ** Registration *)

(** C2 (amended).  A Follower calling [connectThread] adds the id to
    its own [activeThreads] and posts a [REGISTER_THREAD] request; the
    Leader's set gains the id when it handles the request of another
    context, and a context that is not Leader ignores the request. *)
Theorem connectThread_registers t w :
  (isLeader w = false ->
   connectThread t w
   = Ret tt (set_channel (channel w ++ [REGISTER_THREAD t (tabId w)])
               (set_activeThreads ({[t]} ∪ activeThreads w) w)))
  /\ (forall origin, isLeader w = true -> origin <> tabId w ->
      exists w', _handleBroadcast (REGISTER_THREAD t origin) w = Ret tt w'
                 /\ activeThreads w' = {[t]} ∪ activeThreads w)
  /\ (forall origin, isLeader w = false ->
      _handleBroadcast (REGISTER_THREAD t origin) w = Ret tt w).
Proof.
  split; [|split].
  - intros Hl. unfold connectThread, postMessage. unfold_m. cbn. now rewrite Hl.
  - intros origin Hl Hne. unfold _handleBroadcast.
    rewrite (bind_Ret (gets tabId) _ w _ w eq_refl).
    rewrite (bind_Ret (gets isLeader) _ w _ w eq_refl), Hl.
    apply String.eqb_neq in Hne. rewrite Hne. cbn [andb negb when].
    unfold bind at 1, modify at 1.
    match goal with |- context [_scheduleConnect ?x] =>
      destruct (_scheduleConnect_returns x) as (w' & -> & Hs) end.
    exists w'. split; [reflexivity|].
    destruct Hs as (_ & _ & _ & _ & -> & _). reflexivity.
  - intros origin Hl. unfold _handleBroadcast.
    rewrite (bind_Ret (gets tabId) _ w _ w eq_refl).
    rewrite (bind_Ret (gets isLeader) _ w _ w eq_refl), Hl. reflexivity.
Qed.

(** ** Unparsable ownership records *)

(** C3 (what the code does).  On an ownership record that is not
    JSON, the election read and the storage-change handler throw
    [SyntaxError]; the state is left as it was, so the context does not
    become Leader and the record is not rewritten.  (The cache read
    does treat such text as empty: [getAndClearCache_corrupt].) *)
Theorem corrupt_owner_record_throws text w :
  text <> "" -> JSON.parse text = JSON.PSyntax ->
  (localStorage (browser w) !! LEADER_KEY = Some text ->
     _attemptLeaderElection w = Exn SyntaxError w)
  /\ _handleStorageChange (mkStorageEvent (Some LEADER_KEY) (Some text)) w
     = Exn SyntaxError w.
Proof.
  intros Hne Hsyn.
  assert (Ht : truthy_item (Some text) = true).
  { cbn. apply negb_true_iff, String.eqb_neq, Hne. }
  split.
  - intros Hget. unfold _attemptLeaderElection.
    rewrite (bind_Ret _ _ _ _ _ (in_browser_getItem _ _)).
    rewrite (bind_Ret _ _ _ _ _ (in_browser_Date_now _)).
    rewrite Hget, Ht. cbn [default].
    unfold bind at 1. now rewrite (JSON_parse_syntax _ _ Hsyn).
  - unfold _handleStorageChange. cbn [key newValue].
    rewrite bool_decide_eq_true_2 by reflexivity. cbn [negb].
    rewrite Ht. cbn [negb default].
    unfold bind at 1. now rewrite (JSON_parse_syntax _ _ Hsyn).
Qed.

(** ** The outbound queue *)

Lemma sendMessage_queues t p f w id :
  isLeader w = true -> socket w = Some id -> sockets w !! id = Some CONNECTING ->
  frame_of t p w = Ret f w ->
  sendMessage t p w = Ret true (set_messageQueue (messageQueue w ++ [f]) w).
Proof.
  intros Hl Hs Hr Hf.
  rewrite (sendMessage_leader _ _ _ Hl), (_sendViaWebSocket_leader _ _ _ _ Hl Hf).
  rewrite Hs. unfold readyState. now rewrite Hr.
Qed.

Lemma sendAll_queues sends frames : forall w id,
  isLeader w = true -> socket w = Some id -> sockets w !! id = Some CONNECTING ->
  Forall2 has_frame sends frames ->
  sendAll sends w
  = Ret (List.map (fun _ => true) sends)
        (set_messageQueue (messageQueue w ++ frames) w).
Proof.
  intros w id Hl Hs Hr HF. revert w Hl Hs Hr.
  induction HF as [|send f sends frames Hf HF IH]; intros w Hl Hs Hr.
  - cbn. unfold ret. f_equal. rewrite app_nil_r. now destruct w.
  - unfold sendAll in *. cbn [mapM List.map].
    rewrite (bind_Ret _ _ _ _ _ (sendMessage_queues _ _ f w id Hl Hs Hr (Hf w))).
    rewrite (bind_Ret _ _ _ _ _ (IH (set_messageQueue (messageQueue w ++ [f]) w) Hl Hs Hr)).
    unfold ret. f_equal. cbn. now rewrite <- app_assoc.
Qed.

(** Flushing onto an open socket hands every queued frame to it, in
    queue order. *)
Lemma forEach_send queue : forall w id,
  socket w = Some id -> sockets w !! id = Some OPEN ->
  forEach (fun msg =>
             bind (gets socket) (fun sock =>
             bind (gets (socket_is OPEN)) (fun is_open =>
             match sock with
             | Some id => if is_open then socket_send id msg else ret tt
             | None => ret tt
             end))) queue w
  = Ret tt (set_wire (wire w ++ List.map (pair id) queue) w).
Proof.
  induction queue as [|msg queue IH]; intros w id Hs Hr.
  - cbn. unfold ret. f_equal. rewrite app_nil_r. now destruct w.
  - cbn [forEach List.map].
    assert (Hstep : forall k : unit -> M World unit,
               bind (bind (gets socket) (fun sock =>
                     bind (gets (socket_is OPEN)) (fun is_open =>
                     match sock with
                     | Some id => if is_open then socket_send id msg else ret tt
                     | None => ret tt
                     end))) k w
               = k tt (set_wire (wire w ++ [(id, msg)]) w)).
    { intros k. unfold bind, gets, socket_is, socket_send, readyState.
      rewrite Hs, Hr. cbn. now rewrite Hr. }
    rewrite Hstep. rewrite (IH _ id) by (cbn; assumption).
    f_equal. cbn. now rewrite <- app_assoc.
Qed.

Lemma _flushMessageQueue_open w id :
  socket w = Some id -> sockets w !! id = Some OPEN ->
  _flushMessageQueue w
  = Ret tt (set_messageQueue []
              (set_wire (wire w ++ List.map (pair id) (messageQueue w)) w)).
Proof.
  intros Hs Hr. unfold _flushMessageQueue.
  rewrite (bind_Ret (gets messageQueue) _ w _ w eq_refl).
  destruct (messageQueue w) as [|msg queue] eqn:Hq.
  - unfold ret. f_equal. cbn. rewrite app_nil_r. destruct w. cbn in *. now subst.
  - rewrite (bind_Ret _ _ _ _ _ (forEach_send _ w id Hs Hr)). reflexivity.
Qed.

(** When no other event comes between: payloads sent while the
    Leader's socket is connecting are appended to [messageQueue] in
    the order of the calls and nothing is transmitted yet; when the
    socket opens, [onopen] hands the whole queue to the socket in that
    order, each frame once, and empties the queue, so that a later
    flush transmits nothing. *)
Theorem queued_sends_flushed_in_order w id sends frames :
  isLeader w = true -> socket w = Some id -> sockets w !! id = Some CONNECTING ->
  Forall2 has_frame sends frames ->
  let queued := set_messageQueue (messageQueue w ++ frames) w in
  let flushed :=
    set_messageQueue []
      (set_wire (wire w ++ List.map (pair id) (messageQueue w ++ frames))
         (set_sockets (<[id := OPEN]> (sockets w)) w)) in
  sendAll sends w = Ret (List.map (fun _ => true) sends) queued
  /\ wire queued = wire w
  /\ socket_onopen id queued = Ret tt flushed
  /\ _flushMessageQueue flushed = Ret tt flushed.
Proof.
  intros Hl Hs Hr HF queued flushed.
  assert (Hlt : (id < length (sockets w))%nat) by (eapply lookup_lt_Some; eauto).
  split; [now apply (sendAll_queues sends frames w id)|].
  split; [reflexivity|]. split.
  - unfold socket_onopen, set_readyState.
    rewrite (bind_Ret (modify _) _ queued tt _ eq_refl).
    rewrite (_flushMessageQueue_open _ id); [reflexivity | exact Hs |].
    cbn. now apply list_lookup_insert_eq.
  - rewrite (_flushMessageQueue_open _ id); [| exact Hs |].
    + unfold flushed. cbn. now rewrite app_nil_r.
    + cbn. now apply list_lookup_insert_eq.
Qed.

(** ** The statements on the sample states *)

Lemma follower_B_constructed :
  constructor "tab_B" (mkBrowser {[ LEADER_KEY := record_of_A ]} 2000)
  = Ret tt follower_B.
Proof. vm_compute. reflexivity. Qed.

Lemma sendMessage_follower_counterexample :
  isLeader follower_B = false
  /\ socket_open_or_connecting follower_B = false
  /\ ~ (exists w', sendMessage "abc" hi_payload follower_B = Ret false w').
Proof.
  split; [reflexivity|]. split; [reflexivity|].
  intros [w' H]. vm_compute in H. discriminate.
Qed.

Lemma sendMessage_cases_witness :
  sendMessage "abc" hi_payload follower_B
  = Ret true (set_channel
                (channel follower_B
                   ++ [SEND_MESSAGE "abc" hi_payload (tabId follower_B)])
                follower_B).
Proof.
  apply (proj1 (proj2 (sendMessage_cases "abc" hi_payload follower_B))).
  reflexivity.
Defined.

Lemma connectThread_follower_counterexample :
  isLeader follower_B = false
  /\ ~ (exists w', connectThread "abc" follower_B = Ret tt w'
                   /\ activeThreads w' = activeThreads follower_B).
Proof.
  split; [reflexivity|].
  intros (w' & H & Heq). vm_compute in H. injection H as <-.
  vm_compute in Heq. discriminate.
Qed.

Lemma connectThread_registers_witness :
  connectThread "abc" follower_B
  = Ret tt (set_channel (channel follower_B
                           ++ [REGISTER_THREAD "abc" (tabId follower_B)])
              (set_activeThreads ({[ "abc" ]} ∪ activeThreads follower_B) follower_B)).
Proof.
  apply (proj1 (connectThread_registers "abc" follower_B)). reflexivity.
Defined.

Lemma corrupt_owner_record_throws_witness :
  (localStorage (browser corrupt_start) !! LEADER_KEY = Some corrupt_record ->
     _attemptLeaderElection corrupt_start = Exn SyntaxError corrupt_start)
  /\ _handleStorageChange (mkStorageEvent (Some LEADER_KEY) (Some corrupt_record))
       corrupt_start
     = Exn SyntaxError corrupt_start.
Proof.
  apply (corrupt_owner_record_throws corrupt_record corrupt_start).
  - discriminate.
  - vm_compute. reflexivity.
Defined.

Lemma queued_sends_flushed_in_order_witness :
  sendAll two_sends connecting_A
  = Ret [true; true]
        (set_messageQueue (messageQueue connecting_A ++ two_frames) connecting_A)
  /\ wire (set_messageQueue (messageQueue connecting_A ++ two_frames) connecting_A)
     = wire connecting_A
  /\ socket_onopen 0 (set_messageQueue (messageQueue connecting_A ++ two_frames)
                        connecting_A)
     = Ret tt
         (set_messageQueue []
            (set_wire (wire connecting_A
                         ++ List.map (pair 0%nat) (messageQueue connecting_A ++ two_frames))
               (set_sockets (<[0%nat := OPEN]> (sockets connecting_A)) connecting_A)))
  /\ _flushMessageQueue
       (set_messageQueue []
          (set_wire (wire connecting_A
                       ++ List.map (pair 0%nat) (messageQueue connecting_A ++ two_frames))
             (set_sockets (<[0%nat := OPEN]> (sockets connecting_A)) connecting_A)))
     = Ret tt
         (set_messageQueue []
            (set_wire (wire connecting_A
                         ++ List.map (pair 0%nat) (messageQueue connecting_A ++ two_frames))
               (set_sockets (<[0%nat := OPEN]> (sockets connecting_A)) connecting_A))).
Proof.
  apply (queued_sends_flushed_in_order connecting_A 0%nat two_sends two_frames).
  - vm_compute. reflexivity.
  - vm_compute. reflexivity.
  - vm_compute. reflexivity.
  - repeat constructor; intros w; vm_compute; reflexivity.
Defined.

Lemma visibility_own_record_counterexample :
  isLeader resigned_A = false
  /\ localStorage (browser resigned_A) !! LEADER_KEY = Some record_of_A
  /\ JSON.parse record_of_A
     = JSON.POk (JObj [("tabId", JStr "tab_A"); ("timestamp", JNum 1000)]) ""
  /\ VISIBILITY_FAILOVER_MS < clock (browser resigned_A) - 1000
  /\ ~ (exists w', _handleVisibilityChange false resigned_A = Ret tt w'
                   /\ isLeader w' = true).
Proof.
  split; [vm_compute; reflexivity|].
  split; [vm_compute; reflexivity|].
  split; [vm_compute; reflexivity|].
  split; [vm_compute; reflexivity|].
  intros (w' & H & Hl). vm_compute in H. injection H as <-. discriminate.
Qed.

Lemma owner_record_follower_B now : owner_record (at_time now follower_B) "tab_A" 1000.
Proof.
  exists record_of_A, [("tabId", JStr "tab_A"); ("timestamp", JNum 1000)].
  split; [vm_compute; reflexivity|]. split; [vm_compute; reflexivity|].
  split; reflexivity.
Qed.

Lemma visibility_election_witness :
  becomes_leader (_handleVisibilityChange false (at_time 5000 follower_B)).
Proof.
  apply (proj1 (proj2 (proj2 (visibility_election (at_time 5000 follower_B) eq_refl))
                  "tab_A" 1000 (owner_record_follower_B 5000))).
  - vm_compute. reflexivity.
  - discriminate.
Defined.

(** ** A close event that arrives late *)

Lemma forEach_no_socket queue : forall w,
  socket w = None ->
  forEach (fun msg =>
             bind (gets socket) (fun sock =>
             bind (gets (socket_is OPEN)) (fun is_open =>
             match sock with
             | Some id => if is_open then socket_send id msg else ret tt
             | None => ret tt
             end))) queue w
  = Ret tt w.
Proof.
  induction queue as [|msg queue IH]; intros w Hs; [reflexivity|].
  cbn [forEach]. unfold bind at 1, bind at 1, gets at 1. rewrite Hs.
  unfold bind at 1, gets at 1, ret at 1. now apply IH.
Qed.

Lemma _flushMessageQueue_no_socket w :
  socket w = None -> messageQueue w <> [] ->
  _flushMessageQueue w = Ret tt (set_messageQueue [] w).
Proof.
  intros Hs Hq. unfold _flushMessageQueue.
  rewrite (bind_Ret (gets messageQueue) _ w _ w eq_refl).
  destruct (messageQueue w) as [|msg queue]; [contradiction|].
  now rewrite (bind_Ret _ _ _ _ _ (forEach_no_socket _ w Hs)).
Qed.

(** C6.  The flush after the open does not always transmit the queue.
    [onclose] clears [this.socket] whichever socket has closed: when
    the close event of an earlier socket is delivered while the
    Leader's new socket is still connecting, [onopen] of the new
    socket finds no socket, hands none of the queued frames to it and
    empties the queue.  The queued frames are never transmitted, and
    the open socket is not used for later sends either. *)
Theorem stale_close_loses_queued_frames w old new :
  isLeader w = true -> socket w = Some new ->
  sockets w !! new = Some CONNECTING -> sockets w !! old = Some CLOSING ->
  messageQueue w <> [] ->
  exists closed flushed,
    socket_onclose old w = Ret tt closed
    /\ messageQueue closed = messageQueue w
    /\ socket_onopen new closed = Ret tt flushed
    /\ readyState flushed new = OPEN
    /\ wire flushed = wire w
    /\ messageQueue flushed = []
    /\ socket flushed = None
    /\ _flushMessageQueue flushed = Ret tt flushed
    /\ forall t p f,
         frame_of t p flushed = Ret f flushed ->
         sendMessage t p flushed = Ret false flushed.
Proof.
  intros Hl Hs Hnew Hold Hq.
  assert (Hne : old <> new) by (intros ->; congruence).
  set (closed := set_socket None (set_sockets (<[old := CLOSED]> (sockets w)) w)).
  set (opened := set_sockets (<[new := OPEN]> (sockets closed)) closed).
  exists closed, (set_messageQueue [] opened).
  split; [reflexivity|]. split; [reflexivity|].
  split.
  { unfold socket_onopen, set_readyState.
    rewrite (bind_Ret (modify _) _ closed tt _ eq_refl).
    apply (_flushMessageQueue_no_socket opened); [reflexivity | exact Hq]. }
  split.
  { unfold readyState. cbn.
    rewrite list_lookup_insert_eq; [reflexivity|].
    rewrite length_insert. eapply lookup_lt_Some; eauto. }
  split; [reflexivity|]. split; [reflexivity|]. split; [reflexivity|].
  split; [reflexivity|].
  intros t p f Hf.
  assert (Hl' : isLeader (set_messageQueue [] opened) = true) by exact Hl.
  rewrite (sendMessage_leader _ _ _ Hl'), (_sendViaWebSocket_leader _ _ _ _ Hl' Hf).
  reflexivity.
Qed.

(** ** The visibility check on a record of one's own *)

(** C7.  The check on becoming visible does not take over from a
    stale record that names the checking context itself: whatever the
    age of the record, a context that is not Leader stays as it is,
    although the passive election on the same state makes it Leader.
    The test [tabId !== this.tabId], which spares a live Leader that
    is another context in the passive election, was kept when the
    test of the age was inverted. *)
Theorem visibility_check_spares_own_stale_record w timestamp :
  isLeader w = false ->
  owner_record w (tabId w) timestamp ->
  _handleVisibilityChange false w = Ret tt w
  /\ becomes_leader (_attemptLeaderElection w).
Proof.
  intros Hl Hrec.
  assert (Hself : strict_ne_string (Some (JStr (tabId w))) (tabId w) = false).
  { cbn. now rewrite String.eqb_refl. }
  split.
  - rewrite (visibility_follower_eval w Hl), (aggressive_election_eval w _ _ Hrec).
    now rewrite Hself, andb_false_r.
  - rewrite (passive_election_eval w _ _ Hrec), Hself, andb_false_r.
    destruct (_becomeLeader_returns w) as (w' & Hb & Hl' & _). now exists w'.
Qed.

(** ** What a frame carries, for every payload *)


Lemma stale_close_loses_queued_frames_witness :
  messageQueue reconnecting_A <> []
  /\ exists closed flushed,
       socket_onclose 0 reconnecting_A = Ret tt closed
       /\ socket_onopen 1 closed = Ret tt flushed
       /\ readyState flushed 1 = OPEN
       /\ wire flushed = []
       /\ messageQueue flushed = []
       /\ socket flushed = None.
Proof.
  assert (Hq : messageQueue reconnecting_A <> []).
  { intros H. vm_compute in H. discriminate. }
  split; [exact Hq|].
  destruct (stale_close_loses_queued_frames reconnecting_A 0%nat 1%nat)
    as (closed & flushed & Hclose & _ & Hopen & Hready & Hwire & Hqueue & Hs & _).
  - vm_compute. reflexivity.
  - vm_compute. reflexivity.
  - vm_compute. reflexivity.
  - vm_compute. reflexivity.
  - exact Hq.
  - exists closed, flushed. repeat split; assumption.
Defined.

Lemma owner_record_resigned_A : owner_record resigned_A "tab_A" 1000.
Proof.
  exists record_of_A, [("tabId", JStr "tab_A"); ("timestamp", JNum 1000)].
  repeat split; vm_compute; reflexivity.
Qed.

Lemma visibility_check_spares_own_stale_record_witness :
  isLeader resigned_A = false
  /\ VISIBILITY_FAILOVER_MS < clock (browser resigned_A) - 1000
  /\ _handleVisibilityChange false resigned_A = Ret tt resigned_A
  /\ becomes_leader (_attemptLeaderElection resigned_A).
Proof.
  split; [vm_compute; reflexivity|]. split; [vm_compute; reflexivity|].
  apply (visibility_check_spares_own_stale_record resigned_A 1000).
  - vm_compute. reflexivity.
  - exact owner_record_resigned_A.
Defined.


End SharedWebSocketFacts.

(* ===================================================================== *)
(** * useChatSessions: properties *)
(* ===================================================================== *)

Module ChatSessionsFacts.
Import useChatSessions Samples.
Local Open Scope list_scope.

Lemma has_id_true i s : has_id i s = true <-> id s = i.
Proof. unfold has_id. apply String.eqb_eq. Qed.

Lemma has_id_false i s : has_id i s = false <-> id s <> i.
Proof. unfold has_id. apply String.eqb_neq. Qed.

(** The fold keeps a session of the list (or the seed) that is no
    younger than the seed and than every session of the list. *)
Lemma fold_older l : forall seed,
  let r := fold_left older l seed in
  (r = seed \/ In r l)
  /\ lastAccessedAt r <= lastAccessedAt seed
  /\ (forall s, In s l -> lastAccessedAt r <= lastAccessedAt s).
Proof.
  induction l as [|x l IH]; intros seed; cbn.
  - split; [now left|]. split; [lia|]. intros s [].
  - destruct (IH (older seed x)) as (Hin & Hle & Hall).
    assert (Ho : (older seed x = seed \/ older seed x = x)
                 /\ lastAccessedAt (older seed x) <= lastAccessedAt seed
                 /\ lastAccessedAt (older seed x) <= lastAccessedAt x).
    { unfold older. destruct (lastAccessedAt x <? lastAccessedAt seed) eqn:E.
      - apply Z.ltb_lt in E. split; [now right|]. lia.
      - apply Z.ltb_ge in E. split; [now left|]. lia. }
    destruct Ho as (Hcase & Hs & Hx).
    split; [|split].
    + destruct Hin as [-> | Hin]; [|now right; right].
      destruct Hcase as [-> | ->]; [now left | now right; left].
    + lia.
    + intros s [<- | Hs']; [lia | now apply Hall].
Qed.

(** In a list without repeated ids, filtering out the id of a member
    removes that member and nothing else. *)
Lemma filter_out_member x : forall l,
  List.NoDup (List.map id l) -> In x l ->
  exists l1 l2, l = l1 ++ x :: l2
    /\ List.filter (fun s => negb (has_id (id x) s)) l = l1 ++ l2.
Proof.
  induction l as [|y l IH]; intros Hnd Hin; [destruct Hin|].
  cbn [List.map] in Hnd. apply NoDup_cons_iff in Hnd as [Hnotin Hnd].
  destruct Hin as [-> | Hin].
  - exists [], l. split; [reflexivity|]. cbn.
    replace (has_id (id x) x) with true by (symmetry; now apply has_id_true).
    cbn. apply forallb_filter_id, forallb_forall. intros s Hs.
    apply negb_true_iff, has_id_false. intros Heq. apply Hnotin.
    rewrite <- Heq. now apply in_map.
  - destruct (IH Hnd Hin) as (l1 & l2 & -> & Hf).
    exists (y :: l1), l2. split; [reflexivity|]. cbn.
    replace (has_id (id x) y) with false; [cbn; now rewrite Hf|].
    symmetry. apply has_id_false. intros Heq. apply Hnotin.
    rewrite Heq. apply in_map. apply in_or_app. right. now left.
Qed.

Lemma removeLRUSession_spec sessions active :
  List.NoDup (List.map id sessions) -> (2 <= List.length sessions)%nat ->
  exists lru l1 l2,
    sessions = l1 ++ lru :: l2
    /\ removeLRUSession sessions active = l1 ++ l2
    /\ id lru <> active
    /\ (forall s, In s sessions -> id s <> active ->
                  lastAccessedAt lru <= lastAccessedAt s).
Proof.
  intros Hnd Hlen. unfold removeLRUSession.
  destruct (List.filter (fun s => negb (has_id active s)) sessions)
    as [|first others] eqn:Hfilter.
  - exfalso.
    assert (Hall : forall s, In s sessions -> id s = active).
    { intros s Hs. destruct (has_id active s) eqn:E; [now apply has_id_true|].
      assert (In s []) as [].
      rewrite <- Hfilter. apply filter_In. split; [exact Hs|]. now rewrite E. }
    destruct sessions as [|a [|b l]]; cbn in Hlen; try lia.
    cbn in Hnd. apply NoDup_cons_iff in Hnd as [Hnotin _]. apply Hnotin.
    left. rewrite (Hall a), (Hall b); cbn; auto.
  - set (lru := fold_left older (first :: others) first).
    destruct (fold_older (first :: others) first) as (Hin & _ & Hmin).
    fold lru in Hin, Hmin.
    assert (Hlru : In lru (first :: others)).
    { destruct Hin as [-> | Hin]; [now left | exact Hin]. }
    rewrite <- Hfilter in Hlru, Hmin.
    apply filter_In in Hlru as [Hlru_in Hlru_ne].
    destruct (filter_out_member lru sessions Hnd Hlru_in) as (l1 & l2 & Hsplit & Hrem).
    exists lru, l1, l2. split; [exact Hsplit|]. split; [exact Hrem|].
    split; [now apply has_id_false, negb_true_iff|].
    intros s Hs Hne. apply Hmin. apply filter_In. split; [exact Hs|].
    now apply negb_true_iff, has_id_false.
Qed.

(** C5. When the collection holds [MAX_ACTIVE_SESSIONS] = 6 sessions
    (with distinct ids), [handleNewChat] removes exactly one session,
    which is not the active one and whose [lastAccessedAt] is smallest
    among the sessions other than the active one; it appends the new
    session and makes it active, and the collection still holds 6. *)
Theorem create_at_capacity_evicts_lru uuid now st :
  List.length (activeSessions st) = MAX_ACTIVE_SESSIONS ->
  List.NoDup (ids st) ->
  exists lru before after,
    activeSessions st = before ++ lru :: after
    /\ id lru <> activeSessionId st
    /\ (forall s, In s (activeSessions st) -> id s <> activeSessionId st ->
                  lastAccessedAt lru <= lastAccessedAt s)
    /\ activeSessions (handleNewChat uuid now st)
       = before ++ after ++ [newSession uuid now]
    /\ activeSessionId (handleNewChat uuid now st) = uuid
    /\ List.length (activeSessions (handleNewChat uuid now st)) = MAX_ACTIVE_SESSIONS.
Proof.
  intros Hlen Hnd. unfold ids in Hnd.
  destruct (removeLRUSession_spec (activeSessions st) (activeSessionId st) Hnd)
    as (lru & l1 & l2 & Hsplit & Hrem & Hne & Hmin).
  { rewrite Hlen. unfold MAX_ACTIVE_SESSIONS. lia. }
  exists lru, l1, l2. split; [exact Hsplit|]. split; [exact Hne|]. split; [exact Hmin|].
  assert (Hadd : activeSessions (handleNewChat uuid now st)
                 = l1 ++ l2 ++ [newSession uuid now]).
  { cbn. unfold add_session. rewrite Hlen. cbn. rewrite Hrem. now rewrite <- app_assoc. }
  split; [exact Hadd|]. split; [reflexivity|].
  rewrite Hadd. rewrite Hsplit in Hlen.
  rewrite !length_app in *. cbn in *. unfold MAX_ACTIVE_SESSIONS in *. lia.
Qed.

Lemma map_session_ids i f l :
  (forall s, id (f s) = id s) -> List.map id (map_session i f l) = List.map id l.
Proof.
  intros Hf. unfold map_session. rewrite List.map_map. apply List.map_ext.
  intros s. now destruct (has_id i s).
Qed.

Lemma map_session_length i f l : List.length (map_session i f l) = List.length l.
Proof. apply List.length_map. Qed.

Lemma find_none_not_in i l :
  List.find (has_id i) l = None -> ~ In i (List.map id l).
Proof.
  intros Hfind Hin. apply in_map_iff in Hin as (s & Hid & Hs).
  pose proof (List.find_none _ _ Hfind s Hs) as Hn.
  apply has_id_false in Hn. contradiction.
Qed.

Lemma NoDup_snoc (x : string) l :
  List.NoDup l -> ~ In x l -> List.NoDup (l ++ [x]).
Proof.
  intros Hnd Hx. apply List.NoDup_app; [exact Hnd | |].
  - constructor; [intros [] | constructor].
  - intros a Ha [<- | []]. contradiction.
Qed.

Lemma add_session_bounded s st :
  bounded st -> ~ In (id s) (ids st) ->
  (1 <= List.length (add_session s st) <= MAX_ACTIVE_SESSIONS)%nat
  /\ List.NoDup (List.map id (add_session s st)).
Proof.
  intros [[Hlo Hhi] Hnd] Hfresh. unfold add_session, ids in *.
  destruct (MAX_ACTIVE_SESSIONS <=? List.length (activeSessions st))%nat eqn:Hfull.
  - apply Nat.leb_le in Hfull.
    destruct (removeLRUSession_spec (activeSessions st) (activeSessionId st) Hnd)
      as (lru & l1 & l2 & Hsplit & -> & _).
    { unfold MAX_ACTIVE_SESSIONS in *. lia. }
    rewrite Hsplit in Hhi, Hnd, Hfresh.
    rewrite List.map_app in Hnd, Hfresh. cbn [List.map] in Hnd, Hfresh.
    rewrite !length_app in *. cbn [List.length] in *. split; [lia|].
    rewrite List.map_app. cbn [List.map].
    apply NoDup_snoc.
    + rewrite List.map_app. now apply List.NoDup_remove_1 in Hnd.
    + rewrite List.map_app. intros Hin. apply Hfresh.
      apply in_app_or in Hin as [Hin | Hin]; apply in_or_app; [now left|].
      right. now right.
  - apply Nat.leb_gt in Hfull.
    rewrite length_app. cbn [List.length]. split; [lia|].
    rewrite List.map_app. cbn [List.map]. now apply NoDup_snoc.
Qed.

Lemma filter_survivor i l :
  List.NoDup (List.map id l) -> (2 <= List.length l)%nat ->
  (1 <= List.length (List.filter (fun s => negb (has_id i s)) l))%nat.
Proof.
  intros Hnd Hlen.
  destruct l as [|a [|b l]]; cbn [List.length] in Hlen; try lia.
  cbn [List.filter].
  destruct (has_id i a) eqn:Ea; cbn [negb]; [|cbn; lia].
  destruct (has_id i b) eqn:Eb; cbn [negb]; [|cbn; lia].
  apply has_id_true in Ea, Eb. cbn in Hnd.
  apply NoDup_cons_iff in Hnd as [Hnotin _]. exfalso. apply Hnotin.
  left. congruence.
Qed.

Lemma NoDup_map_filter (p : Session -> bool) l :
  List.NoDup (List.map id l) -> List.NoDup (List.map id (List.filter p l)).
Proof.
  induction l as [|x l IH]; cbn; intros Hnd; [constructor|].
  apply NoDup_cons_iff in Hnd as [Hnotin Hnd].
  destruct (p x); cbn; [|now apply IH].
  constructor; [|now apply IH].
  intros Hin. apply Hnotin.
  apply in_map_iff in Hin as (s & <- & Hs). apply in_map.
  now apply filter_In in Hs as [Hs _].
Qed.

Lemma step_bounded st a : bounded st -> uuid_fresh st a -> bounded (step st a).
Proof.
  intros Hb Hfresh. pose proof Hb as [[Hlo Hhi] Hnd]. unfold bounded, ids in *.
  destruct a as [uuid now | i now | i uuid | threadId now | threadId msgs t | threadId];
    cbn [step].
  - cbn [handleNewChat activeSessions]. now apply add_session_bounded.
  - unfold handleTabClick. destruct (String.eqb (activeSessionId st) i); [exact Hb|].
    cbn [activeSessions]. rewrite map_session_length, map_session_ids; auto.
  - unfold handleTabClose.
    destruct (List.length (activeSessions st) =? 1)%nat eqn:Hone.
    + apply Nat.eqb_eq in Hone. unfold updateActiveSession. cbn [activeSessions].
      rewrite map_session_length. split; [lia|].
      destruct (activeSessions st) as [|s [|? ?]]; try discriminate.
      cbn. constructor; [intros [] | constructor].
    + apply Nat.eqb_neq in Hone.
      assert (Hlen : (1 <= List.length (List.filter (fun s => negb (has_id i s))
                                          (activeSessions st))
                      <= MAX_ACTIVE_SESSIONS)%nat).
      { split; [apply filter_survivor; [exact Hnd | lia]|].
        etransitivity; [apply List.filter_length_le | exact Hhi]. }
      destruct (String.eqb (activeSessionId st) i);
        [destruct (last _)|]; cbn [activeSessions];
        (split; [exact Hlen | now apply NoDup_map_filter]).
  - unfold handleLoadChat. destruct (String.eqb threadId ""); [exact Hb|].
    destruct (List.find (has_id threadId) (activeSessions st)) eqn:Hfind;
      cbn [activeSessions].
    + rewrite map_session_length, map_session_ids; auto.
    + apply add_session_bounded; [exact Hb|]. now apply find_none_not_in.
  - cbn [handleLoadChat_resolved activeSessions].
    rewrite map_session_length, map_session_ids; auto.
  - cbn [handleLoadChat_rejected activeSessions].
    rewrite map_session_length, map_session_ids; auto.
Qed.

Lemma activeSession_member st :
  (1 <= List.length (activeSessions st))%nat ->
  exists s, activeSession st = Some s /\ In s (activeSessions st).
Proof.
  intros Hlen. unfold activeSession.
  destruct (List.find _ _) as [s|] eqn:Hfind.
  - exists s. split; [reflexivity|]. now apply List.find_some in Hfind as [Hs _].
  - destruct (activeSessions st) as [|s l]; [cbn in Hlen; lia|].
    exists s. split; [reflexivity | now left].
Qed.

(** X21.  From the initial single-session state, every run of create,
    activate, load and close actions (with fresh generated
    identifiers) keeps between 1 and [MAX_ACTIVE_SESSIONS] sessions
    with distinct ids, and the hook's [activeSession], which falls
    back to the first session, is a member of the collection. *)
Theorem run_keeps_sessions_bounded uuid now actions :
  fresh_run (initial uuid now) actions ->
  let st := run (initial uuid now) actions in
  (1 <= List.length (activeSessions st) <= MAX_ACTIVE_SESSIONS)%nat
  /\ List.NoDup (ids st)
  /\ exists s, activeSession st = Some s /\ In s (activeSessions st).
Proof.
  intros Hfresh.
  assert (Hb : bounded (run (initial uuid now) actions)).
  { assert (H0 : bounded (initial uuid now)).
    { split; [cbn; unfold MAX_ACTIVE_SESSIONS; lia|].
      cbn. constructor; [intros [] | constructor]. }
    revert Hfresh H0. generalize (initial uuid now) as st.
    induction actions as [|a actions IH]; intros st Hfresh H0; [exact H0|].
    destruct Hfresh as [Ha Hrest]. cbn [run fold_left].
    apply IH; [exact Hrest | now apply step_bounded]. }
  destruct Hb as [Hlen Hnd]. cbn zeta.
  split; [exact Hlen|]. split; [exact Hnd|].
  apply activeSession_member. lia.
Qed.

(** C8 (where the code departs).  Closing the only session resets it
    under a new id but leaves [activeSessionId] at the old one, which
    no session carries any more; a second close then resets nothing,
    because the reset is applied to the session whose id is
    [activeSessionId]. *)
Theorem close_last_session_dangling_active_id :
  let st := handleTabClose "u0" "u1" (initial "u0" 1000) in
  ids st = ["u1"]
  /\ activeSessionId st = "u0"
  /\ ~ In (activeSessionId st) (ids st)
  /\ List.find (has_id (activeSessionId st)) (activeSessions st) = None
  /\ handleTabClose "u1" "u2" st = st.
Proof.
  cbn. split; [reflexivity|]. split; [reflexivity|].
  split; [intros [H | []]; discriminate|]. split; reflexivity.
Qed.

(** ** The statements on the sample state *)

Lemma create_at_capacity_evicts_lru_witness :
  exists lru before after,
    activeSessions six_sessions = before ++ lru :: after
    /\ id lru <> activeSessionId six_sessions
    /\ (forall s, In s (activeSessions six_sessions) ->
                  id s <> activeSessionId six_sessions ->
                  lastAccessedAt lru <= lastAccessedAt s)
    /\ activeSessions (handleNewChat "u6" 8 six_sessions)
       = before ++ after ++ [newSession "u6" 8]
    /\ activeSessionId (handleNewChat "u6" 8 six_sessions) = "u6"
    /\ List.length (activeSessions (handleNewChat "u6" 8 six_sessions))
       = MAX_ACTIVE_SESSIONS.
Proof.
  apply (create_at_capacity_evicts_lru "u6" 8 six_sessions).
  - reflexivity.
  - vm_compute. repeat (constructor; [cbn; intuition discriminate|]). constructor.
Defined.

Lemma run_keeps_sessions_bounded_witness :
  (1 <= List.length (activeSessions six_sessions) <= MAX_ACTIVE_SESSIONS)%nat
  /\ List.NoDup (ids six_sessions)
  /\ exists s, activeSession six_sessions = Some s /\ In s (activeSessions six_sessions).
Proof.
  apply (run_keeps_sessions_bounded "u0" 0
           [NewChat "u1" 1; NewChat "u2" 2; NewChat "u3" 3; NewChat "u4" 4;
            NewChat "u5" 5; TabClick "u0" 6; TabClick "u5" 7]).
  cbn. repeat split; intuition discriminate.
Defined.

End ChatSessionsFacts.

(* ===================================================================== *)
(** * ResponseCacheService: further properties *)
(* ===================================================================== *)

Module CacheFacts.
Import Js JsFacts JSONFacts ResponseCacheService Samples ResponseCacheFacts.
Local Open Scope list_scope.

(** ** What the operations never do *)

Lemma try_catch_total {S A} (m : M S A) (a : A) s :
  throws (try_catch m (fun _ => ret a) s) = false.
Proof. unfold try_catch, ret. now destruct (m s). Qed.

Lemma JSON_parse_unsupported {S} text (s : S) :
  JSON.parse text = JSON.PUnsupported -> JSON_parse text s = Unmodelled.
Proof. unfold JSON_parse. now intros ->. Qed.

(** Reading a property and testing the age of an entry leave the
    storage alone, also when they throw. *)
Lemma not_expired_state now item (b : Browser) :
  match not_expired now item b with
  | Ret _ b' | Exn _ b' => b' = b
  | Unmodelled => True
  end.
Proof.
  unfold not_expired, bind, read_prop, ToNumber, ret, throw, unmodelled.
  destruct item as [| bb | n | s | items | fields]; cbn; try reflexivity.
  destruct (JSON.get "cachedAt" fields) as [[]|]; reflexivity.
Qed.

Lemma filterM_state {A} (f : A -> M Browser bool) l (b : Browser) :
  (forall x b0, match f x b0 with Ret _ b' | Exn _ b' => b' = b0 | Unmodelled => True end) ->
  match filterM f l b with
  | Ret _ b' | Exn _ b' => b' = b
  | Unmodelled => True
  end.
Proof.
  intros Hf. induction l as [|x l IH]; [reflexivity|].
  cbn [filterM]. unfold bind at 1. specialize (Hf x b).
  destruct (f x b) as [keep b1|e b1|]; [|exact Hf|exact I]. subst b1.
  unfold bind at 1. destruct (filterM f l b) as [rest b2|e b2|]; [|exact IH|exact I].
  exact IH.
Qed.

Lemma mapM_state {A B} (f : A -> M Browser B) l (b : Browser) :
  (forall x b0, match f x b0 with Ret _ b' | Exn _ b' => b' = b0 | Unmodelled => True end) ->
  match mapM f l b with
  | Ret _ b' | Exn _ b' => b' = b
  | Unmodelled => True
  end.
Proof.
  intros Hf. induction l as [|x l IH]; [reflexivity|].
  cbn [mapM]. unfold bind at 1. specialize (Hf x b).
  destruct (f x b) as [y b1|e b1|]; [|exact Hf|exact I]. subst b1.
  unfold bind at 1. destruct (mapM f l b) as [rest b2|e b2|]; [|exact IH|exact I].
  exact IH.
Qed.

Lemma read_prop_state k v (b : Browser) :
  match read_prop k v b with
  | Ret _ b' | Exn _ b' => b' = b
  | Unmodelled => True
  end.
Proof.
  destruct v as [| bb | n | s | items | fields]; cbn; try reflexivity.
  - destruct (String.eqb k "length"); [|reflexivity]. destruct (ascii_only s); reflexivity.
  - destruct (String.eqb k "length"); reflexivity.
Qed.

(** After a drain the storage is as before (nothing or no JSON was
    stored) or lacks the cell (JSON was stored). *)
Lemma getAndClearCache_state threadId b rs b' :
  getAndClearCache threadId b = Ret rs b' ->
  (b' = b /\ rs = []
   /\ (truthy_item (localStorage b !! _getCacheKey threadId) = false
       \/ exists text, localStorage b !! _getCacheKey threadId = Some text
                       /\ JSON.parse text = JSON.PSyntax))
  \/ (b' = drained threadId b
      /\ exists text v, localStorage b !! _getCacheKey threadId = Some text
                        /\ JSON.parse text = JSON.POk v "").
Proof.
  unfold getAndClearCache, try_catch, bind at 1, getItem, gets.
  destruct (localStorage b !! _getCacheKey threadId) as [text|] eqn:Hget.
  2:{ cbn. intros [= <- <-]. left. auto. }
  destruct (truthy_item (Some text)) eqn:Ht; cbn [negb default].
  2:{ intros [= <- <-]. left. auto. }
  destruct (JSON.parse text) as [v r| |] eqn:Hp.
  - pose proof (parse_rest _ _ _ Hp) as ->.
    unfold bind at 1. rewrite (JSON_parse_ok _ _ _ Hp).
    unfold bind at 1, removeItem, modify.
    unfold bind at 1, Date_now, gets. cbn [clock].
    fold (drained threadId b).
    unfold bind at 1, filter.
    intros H. right. split; [|eauto].
    destruct v as [| bb | n | s | items | fields]; try (cbn in H; now injection H as <- <-).
    pose proof (filterM_state (not_expired (clock b)) items (drained threadId b)
                  (not_expired_state (clock b))) as Hf.
    destruct (filterM _ items _) as [valid b1|e b1|]; [|now injection H as <- <-|discriminate].
    subst b1.
    pose proof (mapM_state (read_prop "response") valid (drained threadId b)
                  (read_prop_state "response")) as Hm.
    destruct (mapM _ valid _) as [ys b2|e b2|]; [|now injection H as <- <-|discriminate].
    now injection H as <- <-.
  - unfold bind at 1. rewrite (JSON_parse_syntax _ _ Hp).
    unfold ret. intros [= <- <-]. left. split; [reflexivity|]. split; [reflexivity|]. eauto.
  - unfold bind at 1.
    rewrite (JSON_parse_unsupported _ _ Hp). discriminate.
Qed.

(** X4.  Once [getAndClearCache] has returned, whatever the cell held,
    nothing is pending for the conversation: [hasPendingResponses]
    answers false and another drain returns the empty list, both
    without changing the storage. *)
Theorem nothing_pending_after_drain threadId b rs b' :
  getAndClearCache threadId b = Ret rs b' ->
  hasPendingResponses threadId b' = Ret false b'
  /\ getAndClearCache threadId b' = Ret [] b'.
Proof.
  intros H. apply getAndClearCache_state in H as [(-> & -> & Hc) | (-> & _)].
  - destruct Hc as [Hf | (text & Hget & Hsyn)].
    + split.
      * unfold hasPendingResponses, bind at 1, getItem, gets. now rewrite Hf.
      * unfold getAndClearCache, try_catch, bind at 1, getItem, gets. now rewrite Hf.
    + split; [|now apply getAndClearCache_corrupt with (text := text)].
      unfold hasPendingResponses, bind at 1, getItem, gets. rewrite Hget.
      destruct (truthy_item (Some text)); cbn [negb default]; [|reflexivity].
      unfold try_catch, bind at 1. now rewrite (JSON_parse_syntax _ _ Hsyn).
  - assert (Hnone : localStorage (drained threadId b) !! _getCacheKey threadId = None)
      by (unfold drained; cbn [localStorage]; apply lookup_delete_eq).
    split; [|now apply getAndClearCache_absent].
    unfold hasPendingResponses, bind at 1, getItem, gets. now rewrite Hnone.
Qed.


(** ** One cell per conversation *)

Lemma append_inj_l s a b : (s ++ a)%string = (s ++ b)%string -> a = b.
Proof.
  induction s as [|c s IH]; cbn [String.append]; [auto|].
  intros [= H]. auto.
Qed.

Lemma _getCacheKey_inj t t' : _getCacheKey t = _getCacheKey t' -> t = t'.
Proof. apply append_inj_l. Qed.

Lemma _getCacheKey_not_leader t : _getCacheKey t <> SharedWebSocketService.LEADER_KEY.
Proof. unfold _getCacheKey, CACHE_KEY_PREFIX. cbn [String.append]. discriminate. Qed.

(** What a write can have done to the storage. *)
Lemma cacheResponse_state threadId response b b' :
  cacheResponse threadId response b = Ret tt b' ->
  b' = b \/ exists text, b' = mkBrowser (<[_getCacheKey threadId := text]> (localStorage b))
                                        (clock b).
Proof.
  unfold cacheResponse, try_catch at 1, bind at 1, getItem, gets.
  destruct (localStorage b !! _getCacheKey threadId) as [text|] eqn:Hget.
  2:{ cbn. intros [= <-]. right. eauto. }
  destruct (truthy_item (Some text)) eqn:Ht; cbn [default].
  2:{ cbn. intros [= <-]. right. eauto. }
  destruct (JSON.parse text) as [v r| |] eqn:Hp.
  - pose proof (parse_rest _ _ _ Hp) as ->.
    unfold bind at 1, try_catch. rewrite (JSON_parse_ok _ _ _ Hp).
    destruct v; cbn; intros [= <-]; eauto.
  - unfold bind at 1, try_catch. rewrite (JSON_parse_syntax _ _ Hp).
    cbn. intros [= <-]. right. eauto.
  - unfold bind at 1, try_catch. rewrite (JSON_parse_unsupported _ _ Hp). discriminate.
Qed.

(** X5.  The cache keeps one cell per conversation: caching for,
    draining or clearing one conversation leaves the cell of every
    other conversation, the ownership record of the socket service
    and the clock as they were. *)
Theorem cache_threads_are_isolated threadId other b :
  other <> threadId ->
  (forall response b',
     cacheResponse threadId response b = Ret tt b' ->
     localStorage b' !! _getCacheKey other = localStorage b !! _getCacheKey other
     /\ localStorage b' !! SharedWebSocketService.LEADER_KEY
        = localStorage b !! SharedWebSocketService.LEADER_KEY
     /\ clock b' = clock b)
  /\ (forall rs b',
        getAndClearCache threadId b = Ret rs b' ->
        localStorage b' !! _getCacheKey other = localStorage b !! _getCacheKey other
        /\ localStorage b' !! SharedWebSocketService.LEADER_KEY
           = localStorage b !! SharedWebSocketService.LEADER_KEY
        /\ clock b' = clock b)
  /\ (forall b',
        clearCache threadId b = Ret tt b' ->
        localStorage b' !! _getCacheKey other = localStorage b !! _getCacheKey other
        /\ localStorage b' !! SharedWebSocketService.LEADER_KEY
           = localStorage b !! SharedWebSocketService.LEADER_KEY
        /\ clock b' = clock b).
Proof.
  intros Hne.
  assert (Hk : _getCacheKey threadId <> _getCacheKey other)
    by (intros H; apply _getCacheKey_inj in H; congruence).
  pose proof (_getCacheKey_not_leader threadId) as Hl.
  assert (Hdrained : localStorage (drained threadId b) !! _getCacheKey other
                     = localStorage b !! _getCacheKey other
                     /\ localStorage (drained threadId b) !! SharedWebSocketService.LEADER_KEY
                        = localStorage b !! SharedWebSocketService.LEADER_KEY
                     /\ clock (drained threadId b) = clock b).
  { unfold drained. cbn [localStorage clock].
    rewrite !lookup_delete_ne by assumption. auto. }
  split; [|split].
  - intros response b' H. apply cacheResponse_state in H as [-> | [text ->]]; [auto|].
    cbn [localStorage clock]. rewrite !lookup_insert_ne by assumption. auto.
  - intros rs b' H. apply getAndClearCache_state in H as [(-> & _) | (-> & _)]; auto.
  - intros b'. unfold clearCache, removeItem, modify. intros [= <-]. exact Hdrained.
Qed.

(** ** Cells that do not hold a list *)

(** X2.  A cell whose text is not JSON reads as empty and is left in
    place by the read; the next [cacheResponse] overwrites it with a
    list of the one new entry, which is then pending and is returned
    by the next drain. *)
Theorem corrupt_cache_cell_self_heals threadId text response b now :
  localStorage b !! _getCacheKey threadId = Some text ->
  JSON.parse text = JSON.PSyntax ->
  JSON.printable response ->
  - JSON.MAX_SAFE_INTEGER <= clock b <= JSON.MAX_SAFE_INTEGER ->
  now - clock b < CACHE_EXPIRY_MS ->
  getAndClearCache threadId b = Ret [] b
  /\ hasPendingResponses threadId b = Ret false b
  /\ exists b',
       cacheResponse threadId response b = Ret tt b'
       /\ hasPendingResponses threadId (mkBrowser (localStorage b') now)
          = Ret true (mkBrowser (localStorage b') now)
       /\ getAndClearCache threadId (mkBrowser (localStorage b') now)
          = Ret [Some response] (drained threadId (mkBrowser (localStorage b') now)).
Proof.
  intros Hget Hsyn Hr Ht Hnow.
  split; [now apply getAndClearCache_corrupt with (text := text)|].
  split.
  { unfold hasPendingResponses, bind at 1, getItem, gets. rewrite Hget.
    destruct (truthy_item (Some text)); cbn [negb default]; [|reflexivity].
    unfold try_catch, bind at 1. now rewrite (JSON_parse_syntax _ _ Hsyn). }
  destruct (cacheResponse_heals_readable _ _ _ _ Hget Hsyn Hr Ht)
    as (b' & healed & Hc & Hcell & Hparse).
  exists b'. split; [exact Hc|]. split.
  - unfold hasPendingResponses, bind at 1, getItem, gets. cbn [localStorage].
    rewrite Hcell, (parse_truthy _ _ _ Hparse). cbn [negb default].
    unfold try_catch, bind at 1. rewrite (JSON_parse_ok _ _ _ Hparse). reflexivity.
  - rewrite (getAndClearCache_list threadId [mkCachedResponse response (clock b)] healed);
      [| exact Hcell | exact Hparse].
    cbn [List.filter clock fresh_at cachedAt].
    apply Z.ltb_lt in Hnow. unfold fresh_at. cbn [cachedAt]. now rewrite Hnow.
Qed.

(** X3.  A cell that holds JSON other than an array is not repaired by
    a write: [cacheResponse] leaves it as it is, so the response is
    not cached; [getAndClearCache] removes the cell and returns the
    empty list. *)
Theorem non_array_cell_drops_responses threadId text v response b :
  localStorage b !! _getCacheKey threadId = Some text ->
  JSON.parse text = JSON.POk v "" ->
  (forall items, v <> JArr items) ->
  cacheResponse threadId response b = Ret tt b
  /\ getAndClearCache threadId b = Ret [] (drained threadId b).
Proof.
  intros Hget Hp Hv. split.
  - unfold cacheResponse, try_catch at 1, bind at 1, getItem, gets. rewrite Hget.
    rewrite (parse_truthy _ _ _ Hp). cbn [default].
    unfold bind at 1, try_catch. rewrite (JSON_parse_ok _ _ _ Hp).
    destruct v; try reflexivity. now destruct (Hv items).
  - unfold getAndClearCache, try_catch, bind at 1, getItem, gets.
    rewrite Hget, (parse_truthy _ _ _ Hp). cbn [negb default].
    unfold bind at 1. rewrite (JSON_parse_ok _ _ _ Hp).
    unfold bind at 1, removeItem, modify.
    unfold bind at 1, Date_now, gets. cbn [clock].
    destruct v; try reflexivity. now destruct (Hv items).
Qed.

(** ** The cleanup at start-up *)

Lemma is_cache_key__getCacheKey t : is_cache_key (_getCacheKey t) = true.
Proof. destruct t; reflexivity. Qed.

Lemma same_cell b key text :
  localStorage b !! key = Some text ->
  mkBrowser (<[key := text]> (localStorage b)) (clock b) = b.
Proof. intros H. rewrite insert_id by exact H. now destruct b. Qed.

Lemma length_filter_all {A} (f : A -> bool) l :
  List.length (List.filter f l) = List.length l -> List.filter f l = l.
Proof.
  induction l as [|x l IH]; [reflexivity|]. cbn.
  destruct (f x); cbn; intros H.
  - f_equal. apply IH. lia.
  - pose proof (List.filter_length_le f l). lia.
Qed.

(** One turn of the loop, on a cell of a known shape. *)
Lemma cleanup_key_shaped now key text shape b :
  localStorage b !! key = Some text -> has_shape text shape ->
  cleanup_key now key b
  = Ret (discards now shape)
        (if discards now shape then b
         else mkBrowser (<[key := rewritten now text shape]> (localStorage b)) (clock b)).
Proof.
  intros Hget Hshape.
  unfold cleanup_key, try_catch, bind at 1, getItem, gets. rewrite Hget.
  destruct shape as [| |v|entries]; cbn [has_shape discards rewritten] in *.
  - subst text. cbn. now rewrite same_cell.
  - destruct Hshape as [Hne Hsyn].
    replace (truthy_item (Some text)) with true
      by (cbn; symmetry; apply negb_true_iff, String.eqb_neq, Hne).
    cbn [default]. unfold bind at 1. now rewrite (JSON_parse_syntax _ _ Hsyn).
  - destruct Hshape as [Hp Hv].
    rewrite (parse_truthy _ _ _ Hp). cbn [default].
    unfold bind at 1. rewrite (JSON_parse_ok _ _ _ Hp).
    destruct v; try reflexivity. now destruct (Hv items).
  - rewrite (parse_truthy _ _ _ Hshape). cbn [default].
    unfold bind at 1. rewrite (JSON_parse_ok _ _ _ Hshape).
    unfold bind at 1, filter. rewrite filterM_entries.
    unfold bind at 1. cbn [read_prop String.eqb Ascii.eqb Bool.eqb].
    unfold ret at 1. rewrite !length_map.
    destruct (List.length (List.filter (fresh_at now) entries) =? 0)%nat eqn:E0;
      [reflexivity|].
    unfold strict_ne_length. rewrite Z.eqb_compare, Nat2Z.inj_compare, <- Nat.eqb_compare.
    destruct (List.length (List.filter (fresh_at now) entries)
              =? List.length entries)%nat eqn:E1; cbn [negb].
    + unfold ret. now rewrite same_cell.
    + reflexivity.
Qed.

(** The shapes a text fits agree on what happens to it. *)
Lemma cleanup_key_discards now key text shape shape' b :
  localStorage b !! key = Some text -> has_shape text shape -> has_shape text shape' ->
  discards now shape' = discards now shape
  /\ (discards now shape = false -> rewritten now text shape' = rewritten now text shape).
Proof.
  intros Hget Hs Hs'.
  pose proof (cleanup_key_shaped now key text shape b Hget Hs) as H.
  rewrite (cleanup_key_shaped now key text shape' b Hget Hs') in H.
  injection H as Hd Hb. split; [exact Hd|].
  intros Hf. rewrite Hd, Hf in Hb.
  apply (f_equal (fun x => localStorage x !! key)) in Hb. cbn [localStorage] in Hb.
  rewrite !lookup_insert_eq in Hb. congruence.
Qed.

(** The loop over distinct keys: the keys it collects and the cells it
    rewrites. *)
Lemma scan_keys_shaped now keys : forall acc b,
  NoDup keys ->
  (forall key, key ∈ keys -> is_cache_key key = true ->
               exists text shape, localStorage b !! key = Some text /\ has_shape text shape) ->
  exists removed b',
    scan_keys now keys acc b = Ret (acc ++ removed) b'
    /\ clock b' = clock b
    /\ (forall key, key ∈ removed -> key ∈ keys /\ is_cache_key key = true)
    /\ (forall key, key ∉ keys \/ is_cache_key key = false ->
                    localStorage b' !! key = localStorage b !! key)
    /\ (forall key text shape,
          key ∈ keys -> is_cache_key key = true ->
          localStorage b !! key = Some text -> has_shape text shape ->
          (key ∈ removed <-> discards now shape = true)
          /\ (discards now shape = false ->
              localStorage b' !! key = Some (rewritten now text shape))).
Proof.
  induction keys as [|k keys IH]; intros acc b Hnd Hcells.
  - exists [], b. cbn [scan_keys]. unfold ret. rewrite app_nil_r.
    split; [reflexivity|]. split; [reflexivity|].
    split; [intros key H; now apply elem_of_nil in H|].
    split; [reflexivity|].
    intros key text shape H. now apply elem_of_nil in H.
  - apply NoDup_cons in Hnd as [Hk Hnd]. cbn [scan_keys].
    destruct (is_cache_key k) eqn:Hck.
    + destruct (Hcells k) as (text0 & shape0 & Hget0 & Hs0);
        [apply elem_of_cons; auto | exact Hck |].
      unfold bind at 1. rewrite (cleanup_key_shaped now k text0 shape0 b Hget0 Hs0).
      set (b1 := if discards now shape0 then b
                 else mkBrowser (<[k := rewritten now text0 shape0]> (localStorage b))
                                (clock b)).
      assert (Hother : forall key, key <> k ->
                         localStorage b1 !! key = localStorage b !! key).
      { intros key Hne. unfold b1. destruct (discards now shape0); [reflexivity|].
        cbn [localStorage]. now apply lookup_insert_ne. }
      assert (Hclock : clock b1 = clock b)
        by (unfold b1; now destruct (discards now shape0)).
      destruct (IH (if discards now shape0 then acc ++ [k] else acc) b1 Hnd)
        as (removed & b' & Hrun & Hc & Hrem & Hout & Hin).
      { intros key Hkey Hc. rewrite Hother; [apply Hcells; [apply elem_of_cons|]; auto|].
        intros ->. contradiction. }
      exists ((if discards now shape0 then [k] else []) ++ removed), b'.
      split.
      { rewrite Hrun. f_equal. destruct (discards now shape0).
        - now rewrite <- app_assoc.
        - reflexivity. }
      split; [congruence|].
      split.
      { intros key Hkey. apply elem_of_app in Hkey as [Hkey | Hkey].
        - destruct (discards now shape0); [|now apply elem_of_nil in Hkey].
          apply list_elem_of_singleton in Hkey as ->. split; [apply elem_of_cons; auto|exact Hck].
        - destruct (Hrem key Hkey). split; [apply elem_of_cons; auto | assumption]. }
      split.
      { intros key Hkey.
        assert (Hne : key <> k).
        { destruct Hkey as [Hkey | Hkey]; [intros ->; apply Hkey, elem_of_cons; auto|].
          intros ->. congruence. }
        rewrite Hout; [now apply Hother|].
        destruct Hkey as [Hkey | Hkey]; [left | right; exact Hkey].
        intros H. apply Hkey, elem_of_cons. auto. }
      intros key text shape Hkey Hc' Hget Hs.
      apply elem_of_cons in Hkey as [-> | Hkey].
      * rewrite Hget0 in Hget. injection Hget as <-.
        destruct (cleanup_key_discards now k text0 shape0 shape b Hget0 Hs0 Hs) as [Hd Hr].
        rewrite Hd. split.
        -- split.
           ++ intros H. apply elem_of_app in H as [H | H].
              ** destruct (discards now shape0); [reflexivity | now apply elem_of_nil in H].
              ** destruct (Hrem k H). contradiction.
           ++ intros ->. apply elem_of_app. left. now apply list_elem_of_singleton.
        -- intros Hf. rewrite Hout by auto. rewrite Hr by exact Hf.
           unfold b1. rewrite Hf. cbn [localStorage]. apply lookup_insert_eq.
      * assert (Hne : key <> k) by (intros ->; contradiction).
        destruct (Hin key text shape Hkey Hc') as [Hiff Hcell];
          [now rewrite Hother | exact Hs |].
        split; [|exact Hcell].
        rewrite <- Hiff. rewrite elem_of_app. split; [|auto].
        intros [H | H]; [|exact H].
        destruct (discards now shape0); [|now apply elem_of_nil in H].
        apply list_elem_of_singleton in H. contradiction.
    + destruct (IH acc b Hnd) as (removed & b' & Hrun & Hc & Hrem & Hout & Hin).
      { intros key Hkey. apply Hcells, elem_of_cons. auto. }
      exists removed, b'. split; [exact Hrun|]. split; [exact Hc|].
      split.
      { intros key Hkey. destruct (Hrem key Hkey). split; [apply elem_of_cons; auto|assumption]. }
      split.
      { intros key Hkey. apply Hout. destruct Hkey as [Hkey | Hkey]; [left | right; exact Hkey].
        intros H. apply Hkey, elem_of_cons. auto. }
      intros key text shape Hkey Hc' Hget Hs.
      apply elem_of_cons in Hkey as [-> | Hkey]; [congruence|].
      now apply Hin.
Qed.

Lemma remove_keys_spec keys : forall b,
  exists b', remove_keys keys b = Ret tt b'
    /\ clock b' = clock b
    /\ (forall key, key ∈ keys -> localStorage b' !! key = None)
    /\ (forall key, key ∉ keys -> localStorage b' !! key = localStorage b !! key).
Proof.
  induction keys as [|k keys IH]; intros b.
  - exists b. split; [reflexivity|]. split; [reflexivity|].
    split; [intros key H; now apply elem_of_nil in H | reflexivity].
  - cbn [remove_keys]. unfold bind at 1, removeItem, modify.
    destruct (IH (mkBrowser (delete k (localStorage b)) (clock b)))
      as (b' & Hrun & Hc & Hin & Hout).
    exists b'. split; [exact Hrun|]. split; [exact Hc|]. cbn [localStorage] in *.
    split.
    + intros key Hkey. destruct (decide (key ∈ keys)) as [H | H]; [now apply Hin|].
      rewrite Hout by exact H.
      apply elem_of_cons in Hkey as [-> | Hkey]; [apply lookup_delete_eq | contradiction].
    + intros key Hkey. rewrite Hout.
      * apply lookup_delete_ne. intros ->. apply Hkey, elem_of_cons. auto.
      * intros H. apply Hkey, elem_of_cons. auto.
Qed.

Lemma storage_keys_spec b :
  NoDup (storage_keys b)
  /\ forall key, key ∈ storage_keys b <-> is_Some (localStorage b !! key).
Proof.
  assert (Hmap : storage_keys b = (map_to_list (localStorage b)).*1).
  { unfold storage_keys. generalize (map_to_list (localStorage b)).
    induction l as [|x l IH]; [reflexivity|]. cbn. now rewrite IH. }
  rewrite Hmap. split; [apply NoDup_fst_map_to_list|].
  intros key. rewrite list_elem_of_fmap. split.
  - intros ([k v] & -> & H). apply elem_of_map_to_list in H. cbn. eauto.
  - intros [v H]. exists (key, v). split; [reflexivity|]. now apply elem_of_map_to_list.
Qed.

Lemma _cleanupExpiredCache_cells b :
  shaped_cells b ->
  exists b',
    _cleanupExpiredCache b = Ret tt b'
    /\ clock b' = clock b
    /\ (forall key, is_cache_key key = false ->
                    localStorage b' !! key = localStorage b !! key)
    /\ (forall key, localStorage b !! key = None -> localStorage b' !! key = None)
    /\ (forall key text shape,
          is_cache_key key = true ->
          localStorage b !! key = Some text -> has_shape text shape ->
          localStorage b' !! key = cleaned (clock b) text shape).
Proof.
  intros Hshaped.
  destruct (storage_keys_spec b) as [Hnd Hkeys].
  destruct (scan_keys_shaped (clock b) (storage_keys b) [] b Hnd)
    as (removed & b1 & Hscan & Hc1 & Hrem & Hout & Hin).
  { intros key Hkey Hc. apply Hkeys in Hkey as [text Hget].
    destruct (Hshaped key text Hget Hc) as [shape Hs]. eauto. }
  destruct (remove_keys_spec removed b1) as (b' & Hrun & Hc & Hgone & Hkept).
  exists b'. split.
  { unfold _cleanupExpiredCache, bind at 1, Date_now, gets.
    unfold bind at 1. unfold bind at 1. rewrite Hscan. exact Hrun. }
  split; [congruence|].
  split.
  { intros key Hck. rewrite Hkept, Hout; auto.
    intros H. apply Hrem in H as [_ H]. congruence. }
  split.
  { intros key Hnone.
    assert (Hnot : key ∉ storage_keys b).
    { intros H. apply Hkeys in H as [v H]. congruence. }
    destruct (decide (key ∈ removed)) as [H | H]; [now apply Hgone|].
    rewrite Hkept by exact H. rewrite Hout by auto. exact Hnone. }
  intros key text shape Hck Hget Hs.
  assert (Hkey : key ∈ storage_keys b) by (apply Hkeys; eauto).
  destruct (Hin key text shape Hkey Hck Hget Hs) as [Hiff Hcell].
  unfold cleaned. destruct (discards (clock b) shape) eqn:Hd.
  - apply Hgone, Hiff. reflexivity.
  - rewrite Hkept; [now apply Hcell|]. intros H. apply Hiff in H. discriminate.
Qed.

(** X7.  The cleanup at start-up acts on each cache cell by itself.
    It removes a cell that is not JSON, is not an array, or has no
    entry younger than the TTL; it rewrites a cell with some expired
    entries to its fresh entries, in their order; it leaves alone a
    cell whose entries are all fresh, an empty text, and every key
    that is not a cache key.  It returns normally and the clock is
    untouched. *)
Theorem cleanup_acts_cell_by_cell b :
  shaped_cells b ->
  exists b',
    _cleanupExpiredCache b = Ret tt b'
    /\ clock b' = clock b
    /\ (forall key, is_cache_key key = false ->
                    localStorage b' !! key = localStorage b !! key)
    /\ (forall key, localStorage b !! key = None -> localStorage b' !! key = None)
    /\ (forall key text shape,
          is_cache_key key = true ->
          localStorage b !! key = Some text -> has_shape text shape ->
          localStorage b' !! key = cleaned (clock b) text shape).
Proof. exact (_cleanupExpiredCache_cells b). Qed.

Lemma filter_filter_same {A} (f : A -> bool) l :
  List.filter f (List.filter f l) = List.filter f l.
Proof.
  induction l as [|x l IH]; [reflexivity|]. cbn.
  destruct (f x) eqn:E; cbn; [rewrite E; now f_equal | exact IH].
Qed.

Lemma printable_sublist now entries text :
  JSON.parse text = JSON.POk (JArr (List.map entry_json entries)) "" ->
  JSON.parse (JSON.stringify (JArr (List.map entry_json (List.filter (fresh_at now) entries))))
  = JSON.POk (JArr (List.map entry_json (List.filter (fresh_at now) entries))) "".
Proof.
  intros Hp. apply parse_gives_printable in Hp. cbn [JSON.printable] in Hp.
  apply parse_stringify. cbn [JSON.printable].
  apply all_Forall. apply all_Forall in Hp.
  rewrite List.Forall_forall in *. intros v Hv.
  apply in_map_iff in Hv as (e & <- & He). apply List.filter_In in He as [He _].
  apply Hp. apply in_map_iff. eauto.
Qed.

(** X8.  The cleanup does not change what a drain returns: for a
    conversation whose cell holds a list of entries, [getAndClearCache]
    after the cleanup returns the same responses as it would have
    without it. *)
Theorem cleanup_keeps_what_a_drain_returns b threadId text entries :
  shaped_cells b ->
  localStorage b !! _getCacheKey threadId = Some text ->
  JSON.parse text = JSON.POk (JArr (List.map entry_json entries)) "" ->
  exists b',
    _cleanupExpiredCache b = Ret tt b'
    /\ getAndClearCache threadId b'
       = Ret (List.map (fun e => Some (response e))
                       (List.filter (fresh_at (clock b)) entries))
             (drained threadId b')
    /\ getAndClearCache threadId b
       = Ret (List.map (fun e => Some (response e))
                       (List.filter (fresh_at (clock b)) entries))
             (drained threadId b).
Proof.
  intros Hshaped Hget Hp.
  destruct (_cleanupExpiredCache_cells b Hshaped) as (b' & Hrun & Hc & _ & _ & Hcells).
  exists b'. split; [exact Hrun|].
  split; [|now apply getAndClearCache_list with (text := text)].
  specialize (Hcells (_getCacheKey threadId) text (EntryList entries)
                (is_cache_key__getCacheKey threadId) Hget Hp).
  unfold cleaned in Hcells. cbn [discards rewritten] in Hcells.
  destruct (List.length (List.filter (fresh_at (clock b)) entries) =? 0)%nat eqn:E0.
  - apply Nat.eqb_eq, List.length_zero_iff_nil in E0. rewrite E0. cbn [List.map].
    rewrite (getAndClearCache_absent _ _ Hcells).
    f_equal. unfold drained. destruct b' as [m c]. cbn [localStorage clock] in *.
    f_equal. symmetry. now apply delete_id.
  - destruct (List.length (List.filter (fresh_at (clock b)) entries)
              =? List.length entries)%nat eqn:E1.
    + rewrite (getAndClearCache_list threadId entries text b' Hcells Hp). now rewrite Hc.
    + rewrite (getAndClearCache_list threadId (List.filter (fresh_at (clock b)) entries)
                 _ b' Hcells (printable_sublist _ _ _ Hp)).
      now rewrite Hc, filter_filter_same.
Qed.

(** ** The operations return *)

(** A drain of a cell of a known shape returns, and leaves a cell from
    which nothing more can be read. *)
Lemma getAndClearCache_shaped t b :
  (forall text, localStorage b !! _getCacheKey t = Some text ->
                exists shape, has_shape text shape) ->
  exists rs b',
    getAndClearCache t b = Ret rs b'
    /\ (b' = b \/ b' = drained t b)
    /\ (truthy_item (localStorage b' !! _getCacheKey t) = false
        \/ exists text, localStorage b' !! _getCacheKey t = Some text
                        /\ JSON.parse text = JSON.PSyntax).
Proof.
  intros Hshape.
  assert (Hdrained : truthy_item (localStorage (drained t b) !! _getCacheKey t) = false).
  { unfold drained. cbn [localStorage]. now rewrite lookup_delete_eq. }
  destruct (localStorage b !! _getCacheKey t) as [text|] eqn:Hget.
  2:{ exists [], b. rewrite (getAndClearCache_absent _ _ Hget), Hget.
      cbn. auto. }
  destruct (Hshape text eq_refl) as ([| | v | entries] & Hs); cbn in Hs.
  - subst text. exists [], b. split.
    + unfold getAndClearCache, try_catch, bind at 1, getItem, gets. now rewrite Hget.
    + rewrite Hget. cbn. auto.
  - destruct Hs as [_ Hsyn]. exists [], b.
    rewrite (getAndClearCache_corrupt _ _ _ Hget Hsyn), Hget.
    split; [reflexivity|]. split; [now left|]. right. now exists text.
  - destruct Hs as [Hp Hv]. exists [], (drained t b). split; [|auto].
    unfold getAndClearCache, try_catch, bind at 1, getItem, gets.
    rewrite Hget, (parse_truthy _ _ _ Hp). cbn [negb default].
    unfold bind at 1. rewrite (JSON_parse_ok _ _ _ Hp).
    unfold bind at 1, removeItem, modify.
    unfold bind at 1, Date_now, gets. cbn [clock].
    destruct v; try reflexivity. now destruct (Hv items).
  - eexists _, (drained t b).
    rewrite (getAndClearCache_list _ _ _ _ Hget Hs). auto.
Qed.

Lemma shaped_is_parsed text shape :
  has_shape text shape -> JSON.parse text <> JSON.PUnsupported.
Proof.
  destruct shape as [| | v | entries]; cbn.
  - intros ->. vm_compute. discriminate.
  - intros [_ ->]. discriminate.
  - intros [-> _]. discriminate.
  - intros ->. discriminate.
Qed.

(** A write returns whenever the text of the cell is interpreted. *)
Lemma cacheResponse_returns threadId response b :
  (forall text, localStorage b !! _getCacheKey threadId = Some text ->
                JSON.parse text <> JSON.PUnsupported) ->
  exists b', cacheResponse threadId response b = Ret tt b'.
Proof.
  intros Hparsed.
  unfold cacheResponse, try_catch at 1, bind at 1, getItem, gets.
  destruct (localStorage b !! _getCacheKey threadId) as [text|] eqn:Hget.
  2:{ cbn. eauto. }
  destruct (truthy_item (Some text)) eqn:Ht; cbn [default].
  2:{ cbn. eauto. }
  destruct (JSON.parse text) as [v r| |] eqn:Hp.
  - pose proof (parse_rest _ _ _ Hp) as ->.
    unfold bind at 1, try_catch. rewrite (JSON_parse_ok _ _ _ Hp).
    destruct v; cbn; eauto.
  - unfold bind at 1, try_catch. rewrite (JSON_parse_syntax _ _ Hp). cbn. eauto.
  - now destruct (Hparsed text eq_refl).
Qed.

Lemma hasPendingResponses_returns threadId b :
  holds_list threadId b -> exists r, hasPendingResponses threadId b = Ret r b.
Proof.
  intros Hlist. unfold holds_list in Hlist.
  unfold hasPendingResponses, bind at 1, getItem, gets.
  destruct (localStorage b !! _getCacheKey threadId) as [text|] eqn:Hget; [|cbn; eauto].
  destruct (truthy_item (Some text)) eqn:Ht; cbn [negb default]; [|eauto].
  unfold try_catch, bind at 1.
  destruct (Hlist text eq_refl) as [Hsyn | [items Hok]].
  - rewrite (JSON_parse_syntax _ _ Hsyn). eauto.
  - rewrite (JSON_parse_ok _ _ _ Hok). cbn. eauto.
Qed.

(** X6.  On a cell that is absent or has one of the shapes the service
    tells apart (the empty string, text that is not JSON, JSON that is
    not an array, a list of entries), [cacheResponse],
    [getAndClearCache] and [clearCache] return to their caller: no
    exception leaves them.  [hasPendingResponses] returns on a cell
    that is absent or holds text that is not JSON or an array. *)
Theorem cache_operations_never_throw threadId response b :
  (forall text, localStorage b !! _getCacheKey threadId = Some text ->
                exists shape, has_shape text shape) ->
  returns (cacheResponse threadId response b) = true
  /\ returns (getAndClearCache threadId b) = true
  /\ returns (clearCache threadId b) = true
  /\ (holds_list threadId b -> returns (hasPendingResponses threadId b) = true).
Proof.
  intros Hshape. split; [|split; [|split]].
  - destruct (cacheResponse_returns threadId response b) as (b' & ->); [|reflexivity].
    intros text Hget. destruct (Hshape text Hget) as (shape & Hs).
    now apply shaped_is_parsed with (shape := shape).
  - destruct (getAndClearCache_shaped threadId b Hshape) as (rs & b' & -> & _). reflexivity.
  - reflexivity.
  - intros Hlist. destruct (hasPendingResponses_returns threadId b Hlist) as (r & ->).
    reflexivity.
Qed.

(** ** The statements on the sample states *)

Lemma printable_two_entries : printable_entries two_entries.
Proof.
  unfold printable_entries, two_entries.
  repeat (constructor; [split; [cbn; split; [repeat constructor; cbn; intuition discriminate | auto]
                               | cbn; unfold JSON.MAX_SAFE_INTEGER; lia] |]).
  constructor.
Qed.

Lemma cache_round_trip_witness :
  exists cached after,
    cache_all "abc" two_entries (mkBrowser ∅ 0) = Ret tt cached
    /\ getAndClearCache "abc" (mkBrowser (localStorage cached) 90000001)
       = Ret (List.map (fun e => Some (response e))
                       (List.filter (fresh_at 90000001) two_entries))
             after
    /\ localStorage after !! _getCacheKey "abc" = None.
Proof.
  apply (cache_round_trip "abc" two_entries (mkBrowser ∅ 0) 90000001).
  - exact printable_two_entries.
  - reflexivity.
Defined.

Lemma corrupt_cache_cell_self_heals_witness :
  let b := mkBrowser {[ _getCacheKey "abc" := corrupt_record ]} 1000 in
  getAndClearCache "abc" b = Ret [] b
  /\ hasPendingResponses "abc" b = Ret false b
  /\ exists b',
       cacheResponse "abc" (JObj [("reply", JStr "hi")]) b = Ret tt b'
       /\ hasPendingResponses "abc" (mkBrowser (localStorage b') 2000)
          = Ret true (mkBrowser (localStorage b') 2000)
       /\ getAndClearCache "abc" (mkBrowser (localStorage b') 2000)
          = Ret [Some (JObj [("reply", JStr "hi")])]
                (drained "abc" (mkBrowser (localStorage b') 2000)).
Proof.
  apply (corrupt_cache_cell_self_heals "abc" corrupt_record (JObj [("reply", JStr "hi")])
           (mkBrowser {[ _getCacheKey "abc" := corrupt_record ]} 1000) 2000).
  - vm_compute. reflexivity.
  - vm_compute. reflexivity.
  - cbn. split; [repeat constructor; cbn; intuition discriminate | auto].
  - cbn. unfold JSON.MAX_SAFE_INTEGER. lia.
  - cbn. unfold CACHE_EXPIRY_MS. lia.
Defined.

Lemma non_array_cell_drops_responses_witness :
  let b := mkBrowser {[ _getCacheKey "abc" := "{}" ]} 1000 in
  cacheResponse "abc" (JStr "hi") b = Ret tt b
  /\ getAndClearCache "abc" b = Ret [] (drained "abc" b).
Proof.
  apply (non_array_cell_drops_responses "abc" "{}" (JObj []) (JStr "hi")
           (mkBrowser {[ _getCacheKey "abc" := "{}" ]} 1000)).
  - vm_compute. reflexivity.
  - vm_compute. reflexivity.
  - discriminate.
Defined.

Lemma nothing_pending_after_drain_witness :
  let b := drained "abc" (two_entries_browser 90000001) in
  hasPendingResponses "abc" b = Ret false b
  /\ getAndClearCache "abc" b = Ret [] b.
Proof.
  apply (nothing_pending_after_drain "abc" (two_entries_browser 90000001)
           [Some (JObj [("reply", JStr "second")])]).
  vm_compute. reflexivity.
Defined.

Lemma cache_threads_are_isolated_witness :
  (forall response b',
     cacheResponse "def" response (two_entries_browser 1) = Ret tt b' ->
     localStorage b' !! _getCacheKey "abc"
     = localStorage (two_entries_browser 1) !! _getCacheKey "abc"
     /\ localStorage b' !! SharedWebSocketService.LEADER_KEY
        = localStorage (two_entries_browser 1) !! SharedWebSocketService.LEADER_KEY
     /\ clock b' = clock (two_entries_browser 1))
  /\ (forall rs b',
        getAndClearCache "def" (two_entries_browser 1) = Ret rs b' ->
        localStorage b' !! _getCacheKey "abc"
        = localStorage (two_entries_browser 1) !! _getCacheKey "abc"
        /\ localStorage b' !! SharedWebSocketService.LEADER_KEY
           = localStorage (two_entries_browser 1) !! SharedWebSocketService.LEADER_KEY
        /\ clock b' = clock (two_entries_browser 1))
  /\ (forall b',
        clearCache "def" (two_entries_browser 1) = Ret tt b' ->
        localStorage b' !! _getCacheKey "abc"
        = localStorage (two_entries_browser 1) !! _getCacheKey "abc"
        /\ localStorage b' !! SharedWebSocketService.LEADER_KEY
           = localStorage (two_entries_browser 1) !! SharedWebSocketService.LEADER_KEY
        /\ clock b' = clock (two_entries_browser 1)).
Proof.
  apply (cache_threads_are_isolated "def" "abc" (two_entries_browser 1)). discriminate.
Defined.

Lemma shaped_cluttered_storage : shaped_cells cluttered_storage.
Proof.
  intros key text Hget Hkey. unfold cluttered_storage in Hget. cbn [localStorage] in Hget.
  apply lookup_insert_Some in Hget as [[<- <-] | [_ Hget]].
  { exists (EntryList two_entries). vm_compute. reflexivity. }
  apply lookup_insert_Some in Hget as [[<- <-] | [_ Hget]]; [discriminate|].
  apply lookup_insert_Some in Hget as [[<- <-] | [_ Hget]].
  { exists NotJSON. split; [discriminate | vm_compute; reflexivity]. }
  rewrite lookup_empty in Hget. discriminate.
Qed.

Lemma cache_operations_never_throw_witness :
  returns (cacheResponse "bad" JNull cluttered_storage) = true
  /\ returns (getAndClearCache "bad" cluttered_storage) = true
  /\ returns (clearCache "bad" cluttered_storage) = true
  /\ returns (hasPendingResponses "bad" cluttered_storage) = true.
Proof.
  destruct (cache_operations_never_throw "bad" JNull cluttered_storage)
    as (Hwrite & Hdrain & Hclear & Hpending).
  - intros text Hget.
    exact (shaped_cluttered_storage (_getCacheKey "bad") text Hget
             (is_cache_key__getCacheKey "bad")).
  - split; [exact Hwrite|]. split; [exact Hdrain|]. split; [exact Hclear|].
    apply Hpending.
    intros text Hget. vm_compute in Hget. injection Hget as <-.
    left. vm_compute. reflexivity.
Defined.

Lemma cleanup_acts_cell_by_cell_witness :
  exists b',
    _cleanupExpiredCache cluttered_storage = Ret tt b'
    /\ clock b' = clock cluttered_storage
    /\ (forall key, is_cache_key key = false ->
                    localStorage b' !! key = localStorage cluttered_storage !! key)
    /\ (forall key, localStorage cluttered_storage !! key = None ->
                    localStorage b' !! key = None)
    /\ (forall key text shape,
          is_cache_key key = true ->
          localStorage cluttered_storage !! key = Some text -> has_shape text shape ->
          localStorage b' !! key = cleaned (clock cluttered_storage) text shape).
Proof.
  apply (cleanup_acts_cell_by_cell cluttered_storage). exact shaped_cluttered_storage.
Defined.

Lemma cleanup_keeps_what_a_drain_returns_witness :
  exists b',
    _cleanupExpiredCache cluttered_storage = Ret tt b'
    /\ getAndClearCache "abc" b'
       = Ret [Some (JObj [("reply", JStr "second")])] (drained "abc" b')
    /\ getAndClearCache "abc" cluttered_storage
       = Ret [Some (JObj [("reply", JStr "second")])] (drained "abc" cluttered_storage).
Proof.
  apply (cleanup_keeps_what_a_drain_returns cluttered_storage "abc" two_entries_text
           two_entries).
  - exact shaped_cluttered_storage.
  - vm_compute. reflexivity.
  - vm_compute. reflexivity.
Defined.

End CacheFacts.

(* ===================================================================== *)
(** * SharedWebSocketService: connection, hand-over and routing *)
(* ===================================================================== *)

Module ConnectionFacts.
Import Js JsFacts JSONFacts SharedWebSocketService Samples SharedWebSocketFacts.
Local Open Scope list_scope.

(** ** Scheduling *)

(** What [_scheduleConnect] and [_scheduleDisconnect] do to the
    timers. *)
Lemma _scheduleConnect_busy w :
  socket_open_or_connecting w = true ->
  exists w', _scheduleConnect w = Ret tt w'
    /\ same_but_timers w w'
    /\ connectTimer w' = connectTimer w
    /\ disconnectTimer w' = None
    /\ next_timer w' = next_timer w
    /\ timers w' = match disconnectTimer w with
                   | Some d => delete d (timers w)
                   | None => timers w
                   end.
Proof.
  destruct w as [? ? sock ct dt ? ? ? ? ? ? socks ? ? ? ?].
  unfold _scheduleConnect, setTimer, clearTimer, same_but_timers. unfold_m.
  unfold socket_open_or_connecting, readyState. cbn.
  intros Hbusy.
  destruct dt as [dt|]; cbn; rewrite Hbusy; cbn.
  all: eexists; split; [reflexivity|]; cbn; repeat split; reflexivity.
Qed.

Lemma _scheduleConnect_idle w :
  socket_open_or_connecting w = false ->
  exists w', _scheduleConnect w = Ret tt w'
    /\ same_but_timers w w'
    /\ connectTimer w' = Some (next_timer w)
    /\ disconnectTimer w' = None
    /\ next_timer w' = Datatypes.S (next_timer w)
    /\ timers w'
       = <[next_timer w := Connect]>
           (match connectTimer w with
            | Some c => delete c
            | None => fun m => m
            end
              (match disconnectTimer w with
               | Some d => delete d (timers w)
               | None => timers w
               end)).
Proof.
  destruct w as [? ? sock ct dt ? ? ? ? ? ? socks ? ? ? ?].
  unfold _scheduleConnect, setTimer, clearTimer, same_but_timers. unfold_m.
  unfold socket_open_or_connecting, readyState. cbn.
  intros Hbusy.
  destruct dt as [dt|]; cbn; rewrite Hbusy; cbn.
  all: destruct ct as [ct|]; cbn.
  all: eexists; split; [reflexivity|]; cbn; repeat split; reflexivity.
Qed.

Lemma _scheduleDisconnect_eval w :
  exists w', _scheduleDisconnect w = Ret tt w'
    /\ same_but_timers w w'
    /\ connectTimer w' = None
    /\ disconnectTimer w' = Some (next_timer w)
    /\ next_timer w' = Datatypes.S (next_timer w)
    /\ timers w'
       = <[next_timer w := Disconnect]>
           (match disconnectTimer w with
            | Some d => delete d
            | None => fun m => m
            end
              (match connectTimer w with
               | Some c => delete c (timers w)
               | None => timers w
               end)).
Proof.
  destruct w as [? ? sock ct dt ? ? ? ? ? ? socks ? ? ? ?].
  unfold _scheduleDisconnect, setTimer, clearTimer, same_but_timers. unfold_m. cbn.
  destruct ct as [ct|]; cbn.
  all: destruct dt as [dt|]; cbn.
  all: eexists; split; [reflexivity|]; cbn; repeat split; reflexivity.
Qed.

Lemma none_pending_delete task id m :
  (forall i, m !! i <> Some task) ->
  forall i, (delete id m : gmap nat TimerTask) !! i <> Some task.
Proof.
  intros H i Hi. apply lookup_delete_Some in Hi as [_ Hi]. now apply (H i).
Qed.

Lemma none_pending_delete_opt task (o : option nat) (m : gmap nat TimerTask) :
  (forall i, m !! i <> Some task) ->
  forall i, (match o with Some id => delete id m | None => m end) !! i <> Some task.
Proof. destruct o; [apply none_pending_delete | auto]. Qed.

Lemma none_pending_insert task other id (m : gmap nat TimerTask) :
  other <> task ->
  (forall i, m !! i <> Some task) ->
  forall i, (<[id := other]> m) !! i <> Some task.
Proof.
  intros Hne H i Hi. apply lookup_insert_Some in Hi as [[_ Hi] | [_ Hi]];
    [congruence | now apply (H i)].
Qed.

Lemma busy_same w w' :
  socket w' = socket w -> sockets w' = sockets w ->
  socket_open_or_connecting w' = socket_open_or_connecting w.
Proof.
  intros Hs Hss. unfold socket_open_or_connecting, readyState. now rewrite Hs, Hss.
Qed.

Lemma busy_same_but_timers w w' :
  same_but_timers w w' -> socket_open_or_connecting w' = socket_open_or_connecting w.
Proof.
  intros (_ & _ & Hs & _ & _ & _ & _ & _ & _ & Hss & _). now apply busy_same.
Qed.

Lemma connectThread_leader t w :
  isLeader w = true ->
  connectThread t w = _scheduleConnect (set_activeThreads ({[t]} ∪ activeThreads w) w).
Proof.
  intros Hl. unfold connectThread, bind at 1, modify.
  unfold bind at 1, gets. cbn [isLeader set_activeThreads]. now rewrite Hl.
Qed.

Lemma disconnectThread_leader t w :
  isLeader w = true ->
  disconnectThread t w
  = if bool_decide (activeThreads w ∖ {[t]} = ∅)
    then _scheduleDisconnect (set_activeThreads (activeThreads w ∖ {[t]}) w)
    else Ret tt (set_activeThreads (activeThreads w ∖ {[t]}) w).
Proof.
  intros Hl. unfold disconnectThread, bind at 1, modify.
  unfold bind at 1, gets. cbn [isLeader set_activeThreads]. rewrite Hl.
  unfold bind at 1, gets, when. cbn [activeThreads set_activeThreads].
  now destruct (bool_decide _).
Qed.

(** While no socket is open or opening and no connect is pending, no
    timer creates a socket. *)
Lemma fire_creates_nothing w :
  socket_open_or_connecting w = false -> none_pending Connect w ->
  forall id, exists w', fire id w = Ret tt w' /\ sockets w' = sockets w /\ wire w' = wire w.
Proof.
  intros Hbusy Hnone id. specialize (Hnone id).
  destruct w as [me leader sock ct dt q threads hb subs br ch socks wr tm nt nf].
  unfold fire, _updateLeaderHeartbeat, _closeWebSocket, in_browser, Date_now, setItem,
    clearTimer, socket_close, set_readyState.
  unfold_m. cbn in *.
  destruct (tm !! id) as [[]|]; cbn.
  - eexists. split; [reflexivity|]. split; reflexivity.
  - contradiction.
  - destruct leader; cbn; [|eexists; split; [reflexivity|]; split; reflexivity].
    destruct sock as [sid|]; cbn; [|eexists; split; [reflexivity|]; split; reflexivity].
    unfold socket_open_or_connecting, readyState in *. cbn in *.
    destruct (default CLOSED (socks !! sid)); cbn in *; try discriminate.
    all: eexists; split; [reflexivity|]; split; reflexivity.
  - eexists. split; [reflexivity|]. split; reflexivity.
Qed.

(** While a socket is open or opening and no disconnect is pending,
    no timer closes it or drops the queue. *)
Lemma fire_keeps_connection w :
  socket_open_or_connecting w = true -> none_pending Disconnect w ->
  forall id, exists w', fire id w = Ret tt w'
    /\ socket w' = socket w /\ sockets w' = sockets w
    /\ messageQueue w' = messageQueue w /\ wire w' = wire w.
Proof.
  intros Hbusy Hnone id. specialize (Hnone id).
  destruct w as [me leader sock ct dt q threads hb subs br ch socks wr tm nt nf].
  unfold fire, _updateLeaderHeartbeat, _createWebSocket, in_browser, Date_now, setItem,
    clearTimer, new_WebSocket.
  unfold_m. cbn in *.
  destruct (tm !! id) as [[]|]; cbn.
  - eexists. split; [reflexivity|]. repeat split; reflexivity.
  - destruct leader; cbn; [|eexists; split; [reflexivity|]; repeat split; reflexivity].
    unfold socket_open_or_connecting, readyState in *. cbn in *. rewrite Hbusy.
    eexists. split; [reflexivity|]. repeat split; reflexivity.
  - contradiction.
  - eexists. split; [reflexivity|]. repeat split; reflexivity.
Qed.

(** ** Debouncing *)

(** X11.  Debounce: when a Leader without a connection registers its
    only conversation and unregisters it again before the connect
    timer has run, the pending connect is cancelled: a disconnect is
    pending instead, and whichever timer runs afterwards creates no
    socket and transmits nothing. *)
Theorem connect_then_disconnect_opens_nothing t w :
  isLeader w = true -> socket_open_or_connecting w = false ->
  activeThreads w = ∅ -> none_pending Connect w ->
  exists w1 w2,
    connectThread t w = Ret tt w1
    /\ (exists c, connectTimer w1 = Some c /\ timers w1 !! c = Some Connect)
    /\ disconnectThread t w1 = Ret tt w2
    /\ connectTimer w2 = None
    /\ none_pending Connect w2
    /\ (exists d, disconnectTimer w2 = Some d /\ timers w2 !! d = Some Disconnect)
    /\ forall id, exists w3,
         fire id w2 = Ret tt w3 /\ sockets w3 = sockets w /\ wire w3 = wire w.
Proof.
  intros Hl Hbusy Hthreads Hnone.
  rewrite (connectThread_leader t w Hl).
  set (w0 := set_activeThreads ({[t]} ∪ activeThreads w) w).
  destruct (_scheduleConnect_idle w0) as (w1 & -> & Hs1 & Hct1 & Hdt1 & Hnt1 & Htm1);
    [exact Hbusy|].
  exists w1.
  assert (Hl1 : isLeader w1 = true) by (destruct Hs1 as (_ & -> & _); exact Hl).
  assert (Ha1 : activeThreads w1 = {[t]} ∪ activeThreads w)
    by (destruct Hs1 as (_ & _ & _ & _ & -> & _); reflexivity).
  rewrite (disconnectThread_leader t w1 Hl1).
  assert (Hempty : activeThreads w1 ∖ {[t]} = ∅).
  { rewrite Ha1, Hthreads. apply set_eq. intros x.
    rewrite elem_of_difference, elem_of_union, elem_of_singleton. split.
    - intros [[-> | H] Hn]; [now destruct Hn | now apply elem_of_empty in H].
    - intros H. now apply elem_of_empty in H. }
  rewrite Hempty. rewrite bool_decide_eq_true_2 by reflexivity.
  set (w1' := set_activeThreads ∅ w1).
  destruct (_scheduleDisconnect_eval w1') as (w2 & -> & Hs2 & Hct2 & Hdt2 & Hnt2 & Htm2).
  exists w2. split; [reflexivity|].
  split; [exists (next_timer w0); split; [exact Hct1 | rewrite Htm1; apply lookup_insert_eq]|].
  split; [reflexivity|]. split; [exact Hct2|].
  assert (Hnone2 : none_pending Connect w2).
  { unfold none_pending. rewrite Htm2.
    apply none_pending_insert; [discriminate|].
    change (disconnectTimer w1') with (disconnectTimer w1). rewrite Hdt1.
    change (connectTimer w1') with (connectTimer w1). rewrite Hct1.
    change (timers w1') with (timers w1). rewrite Htm1.
    intros i Hi. apply lookup_delete_Some in Hi as [Hne Hi].
    rewrite lookup_insert_ne in Hi by exact Hne.
    revert i Hne Hi.
    assert (H : forall i, (match connectTimer w0 with
                            | Some c => delete c
                            | None => fun m => m
                            end
                              (match disconnectTimer w0 with
                               | Some d => delete d (timers w0)
                               | None => timers w0
                               end)) !! i <> Some Connect).
    { destruct (connectTimer w0); [apply none_pending_delete|];
        apply none_pending_delete_opt; exact Hnone. }
    intros i _ Hi. exact (H i Hi). }
  split; [exact Hnone2|].
  split; [exists (next_timer w1'); split; [exact Hdt2 | rewrite Htm2; apply lookup_insert_eq]|].
  assert (Hsocks : sockets w2 = sockets w /\ wire w2 = wire w /\ socket w2 = socket w).
  { destruct Hs2 as (_ & _ & Hk2 & _ & _ & _ & _ & _ & _ & Hss2 & Hw2 & _).
    destruct Hs1 as (_ & _ & Hk1 & _ & _ & _ & _ & _ & _ & Hss1 & Hw1 & _).
    rewrite Hss2, Hw2, Hk2. cbn [sockets wire socket w1' set_activeThreads].
    rewrite Hss1, Hw1, Hk1. auto. }
  destruct Hsocks as (Hss & Hw & Hk).
  assert (Hbusy2 : socket_open_or_connecting w2 = false)
    by (rewrite (busy_same w w2 Hk Hss); exact Hbusy).
  intros id. destruct (fire_creates_nothing w2 Hbusy2 Hnone2 id) as (w3 & Hf & Hs3 & Hw3).
  exists w3. split; [exact Hf|]. split; congruence.
Qed.

(** X12.  Debounce, the other way round: when a Leader with an open or
    opening socket unregisters a conversation and registers one again
    before the disconnect timer has run, no disconnect stays pending;
    the socket and the queue are untouched, also after whichever
    timer runs next. *)
Theorem reconnect_within_debounce_keeps_connection t t' w :
  isLeader w = true -> socket_open_or_connecting w = true -> none_pending Disconnect w ->
  exists w1 w2,
    disconnectThread t w = Ret tt w1
    /\ connectThread t' w1 = Ret tt w2
    /\ activeThreads w2 = {[t']} ∪ (activeThreads w ∖ {[t]})
    /\ disconnectTimer w2 = None
    /\ none_pending Disconnect w2
    /\ socket w2 = socket w /\ sockets w2 = sockets w /\ messageQueue w2 = messageQueue w
    /\ forall id, exists w3,
         fire id w2 = Ret tt w3
         /\ socket w3 = socket w /\ sockets w3 = sockets w
         /\ messageQueue w3 = messageQueue w /\ wire w3 = wire w2.
Proof.
  intros Hl Hbusy Hnone.
  rewrite (disconnectThread_leader t w Hl).
  set (w0 := set_activeThreads (activeThreads w ∖ {[t]}) w).
  assert (Hstep : exists w1,
             (if bool_decide (activeThreads w ∖ {[t]} = ∅)
              then _scheduleDisconnect w0 else Ret tt w0) = Ret tt w1
             /\ same_but_timers w0 w1
             /\ forall i, (match disconnectTimer w1 with
                           | Some d => delete d (timers w1)
                           | None => timers w1
                           end) !! i <> Some Disconnect).
  { destruct (bool_decide _).
    - destruct (_scheduleDisconnect_eval w0) as (w1 & -> & Hs1 & Hct1 & Hdt1 & Hnt1 & Htm1).
      exists w1. split; [reflexivity|]. split; [exact Hs1|].
      rewrite Hdt1, Htm1. intros i Hi. apply lookup_delete_Some in Hi as [Hne Hi].
      rewrite lookup_insert_ne in Hi by exact Hne. revert Hi.
      destruct (disconnectTimer w0); [apply none_pending_delete|];
        apply none_pending_delete_opt; exact Hnone.
    - exists w0. split; [reflexivity|].
      split; [unfold same_but_timers; repeat split; reflexivity|].
      apply none_pending_delete_opt. exact Hnone. }
  destruct Hstep as (w1 & -> & Hs1 & Hnone1).
  exists w1.
  assert (Hl1 : isLeader w1 = true) by (destruct Hs1 as (_ & -> & _); exact Hl).
  rewrite (connectThread_leader t' w1 Hl1).
  set (w1' := set_activeThreads ({[t']} ∪ activeThreads w1) w1).
  assert (Hbusy1 : socket_open_or_connecting w1' = true).
  { rewrite (busy_same w1 w1') by reflexivity.
    rewrite (busy_same_but_timers w0 w1 Hs1). exact Hbusy. }
  destruct (_scheduleConnect_busy w1' Hbusy1) as (w2 & -> & Hs2 & Hct2 & Hdt2 & Hnt2 & Htm2).
  exists w2. split; [reflexivity|]. split; [reflexivity|].
  destruct Hs2 as (_ & _ & Hk2 & Hq2 & Ha2 & _ & _ & _ & _ & Hss2 & Hw2 & _).
  destruct Hs1 as (_ & _ & Hk1 & Hq1 & Ha1 & _ & _ & _ & _ & Hss1 & Hw1 & _).
  cbn [w1' w0 set_activeThreads socket sockets messageQueue activeThreads wire] in *.
  split; [now rewrite Ha2, Ha1|]. split; [exact Hdt2|].
  assert (Hnone2 : none_pending Disconnect w2).
  { unfold none_pending. rewrite Htm2. exact Hnone1. }
  split; [exact Hnone2|].
  assert (Hk : socket w2 = socket w) by congruence.
  assert (Hss : sockets w2 = sockets w) by congruence.
  assert (Hq : messageQueue w2 = messageQueue w) by congruence.
  split; [exact Hk|]. split; [exact Hss|]. split; [exact Hq|].
  assert (Hbusy2 : socket_open_or_connecting w2 = true)
    by (rewrite (busy_same w w2 Hk Hss); exact Hbusy).
  intros id. destruct (fire_keeps_connection w2 Hbusy2 Hnone2 id)
    as (w3 & Hf & Hk3 & Hss3 & Hq3 & Hw3).
  exists w3. split; [exact Hf|]. repeat split; congruence.
Qed.

(** One registration by a Leader without a connection: whatever
    connect was pending is replaced by a new one. *)
Lemma connectThread_rearms t w :
  isLeader w = true -> socket_open_or_connecting w = false ->
  (forall id, timers w !! id = Some Connect -> connectTimer w = Some id) ->
  exists w',
    connectThread t w = Ret tt w'
    /\ isLeader w' = true /\ socket_open_or_connecting w' = false
    /\ activeThreads w' = {[t]} ∪ activeThreads w
    /\ sockets w' = sockets w /\ socket w' = socket w
    /\ exists c, connectTimer w' = Some c
                 /\ forall id, timers w' !! id = Some Connect <-> id = c.
Proof.
  intros Hl Hbusy Hone.
  rewrite (connectThread_leader t w Hl).
  set (w0 := set_activeThreads ({[t]} ∪ activeThreads w) w).
  destruct (_scheduleConnect_idle w0) as (w' & -> & Hs & Hct & Hdt & Hnt & Htm);
    [exact Hbusy|].
  exists w'. split; [reflexivity|].
  pose proof (busy_same_but_timers w0 w' Hs) as Hb.
  destruct Hs as (_ & Hl' & Hk & _ & Ha & _ & _ & _ & _ & Hss & _).
  cbn [w0 set_activeThreads isLeader socket sockets activeThreads] in *.
  split; [congruence|]. split; [rewrite Hb; exact Hbusy|].
  split; [exact Ha|]. split; [exact Hss|]. split; [exact Hk|].
  exists (next_timer w). split; [exact Hct|].
  intros id. rewrite Htm. cbn [w0 set_activeThreads next_timer connectTimer disconnectTimer timers].
  split.
  - intros Hi. apply lookup_insert_Some in Hi as [[<- _] | [Hne Hi]]; [reflexivity|].
    exfalso.
    assert (Hin : timers w !! id = Some Connect /\ connectTimer w <> Some id).
    { destruct (connectTimer w) as [c|].
      - apply lookup_delete_Some in Hi as [Hc Hi]. split; [|congruence].
        destruct (disconnectTimer w); [now apply lookup_delete_Some in Hi as [_ Hi]|exact Hi].
      - split; [|discriminate].
        destruct (disconnectTimer w); [now apply lookup_delete_Some in Hi as [_ Hi]|exact Hi]. }
    destruct Hin as [Hi' Hc]. apply Hc, Hone, Hi'.
  - intros ->. apply lookup_insert_eq.
Qed.

Lemma forEach_connectThread ts : forall w,
  isLeader w = true -> socket_open_or_connecting w = false ->
  (forall id, timers w !! id = Some Connect -> connectTimer w = Some id) ->
  exists w',
    forEach connectThread ts w = Ret tt w'
    /\ isLeader w' = true /\ socket_open_or_connecting w' = false
    /\ activeThreads w' = list_to_set ts ∪ activeThreads w
    /\ sockets w' = sockets w /\ socket w' = socket w
    /\ (forall id, timers w' !! id = Some Connect -> connectTimer w' = Some id)
    /\ (ts <> [] -> exists c, connectTimer w' = Some c /\ timers w' !! c = Some Connect).
Proof.
  induction ts as [|t ts IH]; intros w Hl Hbusy Hone.
  - exists w. split; [reflexivity|]. split; [exact Hl|]. split; [exact Hbusy|].
    split; [cbn; now rewrite (left_id_L ∅ (∪))|].
    split; [reflexivity|]. split; [reflexivity|]. split; [exact Hone|]. congruence.
  - cbn [forEach]. unfold bind at 1.
    destruct (connectThread_rearms t w Hl Hbusy Hone)
      as (w1 & -> & Hl1 & Hb1 & Ha1 & Hss1 & Hk1 & c & Hc & Honly).
    destruct (IH w1 Hl1 Hb1) as (w' & Hrun & Hl' & Hb' & Ha' & Hss' & Hk' & Hone' & Hsome).
    { intros id Hi. apply Honly in Hi. congruence. }
    exists w'. split; [exact Hrun|]. split; [exact Hl'|]. split; [exact Hb'|].
    split.
    { rewrite Ha', Ha1. cbn [list_to_set]. now rewrite (assoc_L (∪)), (comm_L (∪) _ {[t]}). }
    split; [congruence|]. split; [congruence|]. split; [exact Hone'|].
    intros _. destruct ts as [|t' ts'].
    + cbn [forEach] in Hrun. injection Hrun as <-.
      exists c. split; [exact Hc | now apply Honly].
    + apply Hsome. discriminate.
Qed.

(** The connect timer runs in a Leader without a connection. *)
Lemma fire_connect c w :
  timers w !! c = Some Connect ->
  isLeader w = true -> socket_open_or_connecting w = false ->
  exists w',
    fire c w = Ret tt w'
    /\ sockets w' = sockets w ++ [CONNECTING]
    /\ socket w' = Some (List.length (sockets w))
    /\ connectTimer w' = None
    /\ timers w' = delete c (timers w)
    /\ isLeader w' = true /\ messageQueue w' = messageQueue w
    /\ activeThreads w' = activeThreads w /\ wire w' = wire w.
Proof.
  intros Htc Hl Hbusy.
  destruct w as [me leader sock ct dt q threads hb subs br ch socks wr tm nt nf].
  unfold fire, _createWebSocket, clearTimer, new_WebSocket. unfold_m. cbn in *.
  rewrite Htc. subst leader. cbn.
  unfold socket_open_or_connecting, readyState in *. cbn in *. rewrite Hbusy.
  eexists. split; [reflexivity|]. cbn. repeat split; reflexivity.
Qed.

(** X13.  However many conversations a Leader without a connection
    registers in a row, exactly one connect is pending afterwards, all
    of them are registered, and no socket exists yet; when that timer
    runs, one socket is created, connecting, and no connect stays
    pending. *)
Theorem registrations_coalesce_into_one_connection ts w :
  ts <> [] ->
  isLeader w = true -> socket_open_or_connecting w = false -> none_pending Connect w ->
  exists w' c w'',
    forEach connectThread ts w = Ret tt w'
    /\ activeThreads w' = list_to_set ts ∪ activeThreads w
    /\ sockets w' = sockets w
    /\ connectTimer w' = Some c
    /\ (forall id, timers w' !! id = Some Connect <-> id = c)
    /\ fire c w' = Ret tt w''
    /\ sockets w'' = sockets w ++ [CONNECTING]
    /\ socket w'' = Some (List.length (sockets w))
    /\ connectTimer w'' = None
    /\ none_pending Connect w''.
Proof.
  intros Hts Hl Hbusy Hnone.
  destruct (forEach_connectThread ts w Hl Hbusy)
    as (w' & Hrun & Hl' & Hb' & Ha' & Hss' & Hk' & Hone' & Hsome).
  { intros id Hi. now destruct (Hnone id). }
  destruct (Hsome Hts) as (c & Hc & Htc).
  assert (Honly : forall id, timers w' !! id = Some Connect <-> id = c).
  { intros id. split; [|now intros ->].
    intros Hi. apply Hone' in Hi. congruence. }
  destruct (fire_connect c w' Htc Hl' Hb') as (w'' & Hf & Hss & Hk & Hct & Htm & _).
  exists w', c, w''. split; [exact Hrun|]. split; [exact Ha'|]. split; [exact Hss'|].
  split; [exact Hc|]. split; [exact Honly|]. split; [exact Hf|].
  split; [now rewrite Hss, Hss'|]. split; [now rewrite Hk, Hss'|]. split; [exact Hct|].
  intros id Hi. rewrite Htm in Hi. apply lookup_delete_Some in Hi as [Hne Hi].
  apply Honly in Hi. congruence.
Qed.

(** ** Handing over *)

Lemma _handleTabClose_leader w :
  isLeader w = true ->
  exists w',
    _handleTabClose w = Ret tt w'
    /\ localStorage (browser w') = delete LEADER_KEY (localStorage (browser w))
    /\ clock (browser w') = clock (browser w)
    /\ wire w' = wire w
    /\ forall id, socket w = Some id ->
                  readyState w' id <> OPEN /\ readyState w' id <> CONNECTING.
Proof.
  intros Hl.
  destruct w as [me leader sock ct dt q threads hb subs br ch socks wr tm nt nf].
  unfold _handleTabClose, clearTimer, socket_close, set_readyState, in_browser, removeItem.
  unfold_m. cbn in *. subst leader.
  destruct sock as [sid|].
  - destruct (socks !! sid) as [state|] eqn:Hsid.
    + assert (Hlt : (sid < List.length socks)%nat) by (now apply lookup_lt_Some in Hsid).
      destruct state, ct as [ct|], dt as [dt|]; cbn.
      all: unfold readyState; cbn; rewrite ?Hsid; cbn.
      all: eexists; (split; [reflexivity|]); cbn.
      all: repeat (split; [reflexivity|]).
      all: intros id [= <-]; unfold readyState; cbn.
      all: try (rewrite list_lookup_insert_eq by exact Hlt);
           try rewrite Hsid; cbn; split; discriminate.
    + destruct ct as [ct|], dt as [dt|]; cbn.
      all: unfold readyState; cbn; rewrite ?Hsid; cbn.
      all: eexists; (split; [reflexivity|]); cbn.
      all: repeat (split; [reflexivity|]).
      all: intros id [= <-]; unfold readyState; cbn.
      all: rewrite Hsid; cbn; split; discriminate.
  - destruct ct as [ct|], dt as [dt|]; cbn.
    all: eexists; (split; [reflexivity|]); cbn.
    all: repeat (split; [reflexivity|]).
    all: intros id [=].
Qed.

Lemma _handleTabClose_follower w :
  isLeader w = false ->
  exists w', _handleTabClose w = Ret tt w' /\ browser w' = browser w
             /\ sockets w' = sockets w /\ wire w' = wire w.
Proof.
  intros Hl.
  destruct w as [me leader sock ct dt q threads hb subs br ch socks wr tm nt nf].
  unfold _handleTabClose, clearTimer. unfold_m. cbn in *. subst leader.
  destruct ct as [ct|], dt as [dt|]; cbn.
  all: eexists; split; [reflexivity|]; repeat split; reflexivity.
Qed.

(** Becoming Leader with registered threads and no connection
    schedules a connect. *)
Lemma _becomeLeader_schedules w :
  activeThreads w <> ∅ -> socket_open_or_connecting w = false ->
  exists w' c,
    _becomeLeader w = Ret tt w'
    /\ connectTimer w' = Some c /\ timers w' !! c = Some Connect.
Proof.
  intros Hthreads Hbusy.
  unfold _becomeLeader, _updateLeaderHeartbeat, in_browser, Date_now, setItem, setTimer,
    postMessage.
  unfold_m. cbn -[_scheduleConnect JSON.stringify].
  rewrite bool_decide_eq_false_2 by exact Hthreads. cbn -[_scheduleConnect JSON.stringify].
  match goal with |- context [_scheduleConnect ?x] =>
    destruct (_scheduleConnect_idle x) as (w' & -> & _ & Hct & _ & _ & Htm) end.
  { rewrite <- Hbusy. now apply busy_same. }
  exists w', (next_timer
                (set_channel (channel w ++ [LEADER_ELECTED (tabId w)])
                   (set_heartbeatInterval (Some (next_timer w))
                      (set_next_timer (Datatypes.S (next_timer w)) w)))).
  split; [reflexivity|]. split.
  - rewrite Hct. reflexivity.
  - rewrite Htm. apply lookup_insert_eq.
Qed.

(** X10.  When its context unloads, a Leader closes its socket and
    removes the ownership record, leaving every other key of the
    storage alone.  A context that starts on that storage becomes
    Leader, and so does a context that handles the storage event of
    the removal: it announces itself on the channel, keeps its
    registered conversations and, if it has any and no connection,
    schedules a connect. *)
Theorem closing_leader_hands_over w :
  isLeader w = true ->
  exists w',
    _handleTabClose w = Ret tt w'
    /\ localStorage (browser w') !! LEADER_KEY = None
    /\ (forall key, key <> LEADER_KEY ->
                    localStorage (browser w') !! key = localStorage (browser w) !! key)
    /\ (forall id, socket w = Some id ->
                   readyState w' id <> OPEN /\ readyState w' id <> CONNECTING)
    /\ (forall tab now,
          becomes_leader (constructor tab (mkBrowser (localStorage (browser w')) now)))
    /\ forall f,
         localStorage (browser f) = localStorage (browser w') ->
         exists f',
           _handleStorageChange (mkStorageEvent (Some LEADER_KEY) None) f = Ret tt f'
           /\ isLeader f' = true
           /\ activeThreads f' = activeThreads f
           /\ channel f' = channel f ++ [LEADER_ELECTED (tabId f)]
           /\ (activeThreads f <> ∅ -> socket_open_or_connecting f = false ->
               exists c, connectTimer f' = Some c /\ timers f' !! c = Some Connect).
Proof.
  intros Hl.
  destruct (_handleTabClose_leader w Hl) as (w' & Hclose & Hst & _ & _ & Hsock).
  exists w'. split; [exact Hclose|].
  assert (Hgone : localStorage (browser w') !! LEADER_KEY = None)
    by (rewrite Hst; apply lookup_delete_eq).
  split; [exact Hgone|].
  split; [intros key Hne; rewrite Hst; now apply lookup_delete_ne|].
  split; [exact Hsock|].
  split.
  { intros tab now. unfold constructor.
    destruct (election_absent_eval (fresh tab (mkBrowser (localStorage (browser w')) now)))
      as [-> _]; [cbn [fresh browser localStorage]; now rewrite Hgone|].
    destruct (_becomeLeader_returns (fresh tab (mkBrowser (localStorage (browser w')) now)))
      as (x & Hb & Hlx & _).
    now exists x. }
  intros f Hshared.
  unfold _handleStorageChange. cbn [key newValue truthy_item negb].
  rewrite bool_decide_eq_true_2 by reflexivity. cbn [negb].
  destruct (election_absent_eval f) as [-> _]; [now rewrite Hshared, Hgone|].
  destruct (_becomeLeader_returns f) as (f' & Hb & Hlf & _ & Ha & Hch & _).
  exists f'. split; [exact Hb|]. split; [exact Hlf|]. split; [exact Ha|].
  split; [exact Hch|].
  intros Hthreads Hbusy.
  destruct (_becomeLeader_schedules f Hthreads Hbusy) as (f'' & c & Hb' & Hc & Htc).
  rewrite Hb in Hb'. injection Hb' as <-. eauto.
Qed.

(** ** Inbound frames *)

Lemma set_notified_same w : set_notified (notified w) w = w.
Proof. now destruct w. Qed.

Lemma forEach_notify t m subs : forall w,
  forEach (fun callback =>
             modify (fun w => set_notified (notified w ++ [(callback, t, m)]) w)) subs w
  = Ret tt (set_notified (notified w ++ calls t m subs) w).
Proof.
  induction subs as [|c subs IH]; intros w.
  - cbn. unfold ret. now rewrite app_nil_r, set_notified_same.
  - cbn [forEach calls List.map]. unfold bind at 1, modify. rewrite IH.
    cbn [notified set_notified]. unfold calls. now rewrite <- app_assoc.
Qed.

Lemma _notifySubscribers_eval t m w :
  _notifySubscribers t m w
  = Ret tt (set_notified (notified w ++ calls t m (subscribers w)) w).
Proof.
  unfold _notifySubscribers. rewrite (bind_Ret (gets subscribers) _ w _ w eq_refl).
  apply forEach_notify.
Qed.

(** X14.  A frame from the server that is a JSON object with a truthy
    [threadId] is passed to every subscriber of the receiving context
    once, in the order of subscription, and is broadcast once with
    that context as origin; the context ignores its own broadcast, and
    every other context passes the frame to its own subscribers in the
    same way, without broadcasting it again. *)
Theorem inbound_frame_reaches_every_subscriber data fields t w :
  JSON.parse data = JSON.POk (JObj fields) "" ->
  JSON.get "threadId" fields = Some t -> truthy (Some t) = true ->
  exists w',
    socket_onmessage data w = Ret tt w'
    /\ notified w' = notified w ++ calls t (JObj fields) (subscribers w)
    /\ channel w' = channel w ++ [MESSAGE_RECEIVED t (JObj fields) (tabId w)]
    /\ _handleBroadcast (MESSAGE_RECEIVED t (JObj fields) (tabId w)) w' = Ret tt w'
    /\ forall f, tabId f <> tabId w ->
         exists f',
           _handleBroadcast (MESSAGE_RECEIVED t (JObj fields) (tabId w)) f = Ret tt f'
           /\ notified f' = notified f ++ calls t (JObj fields) (subscribers f)
           /\ channel f' = channel f.
Proof.
  intros Hp Hget Ht.
  assert (Hown : forall x, tabId x = tabId w ->
            _handleBroadcast (MESSAGE_RECEIVED t (JObj fields) (tabId w)) x = Ret tt x).
  { intros x Hx. unfold _handleBroadcast.
    rewrite (bind_Ret (gets tabId) _ x _ x eq_refl).
    rewrite (bind_Ret (gets isLeader) _ x _ x eq_refl).
    rewrite Hx, String.eqb_refl. reflexivity. }
  eexists. split.
  { unfold socket_onmessage, try_catch.
    rewrite (bind_Ret _ _ _ _ _ (JSON_parse_ok _ _ _ Hp)).
    rewrite (bind_Ret _ _ _ _ _ (read_prop_obj _ _ _)), Hget, Ht.
    rewrite (bind_Ret _ _ _ _ _ (_notifySubscribers_eval _ _ _)).
    unfold bind, gets, postMessage, modify. reflexivity. }
  cbn [notified channel set_channel set_notified tabId].
  split; [reflexivity|]. split; [reflexivity|].
  split; [apply Hown; reflexivity|].
  intros f Hne. eexists. split.
  { unfold _handleBroadcast.
    rewrite (bind_Ret (gets tabId) _ f _ f eq_refl).
    rewrite (bind_Ret (gets isLeader) _ f _ f eq_refl).
    replace (String.eqb (tabId w) (tabId f)) with false
      by (symmetry; apply String.eqb_neq; congruence).
    cbn [negb when]. apply _notifySubscribers_eval. }
  split; reflexivity.
Qed.

(** X15.  [socket.onmessage] never throws.  A frame that is not JSON,
    that is [null], or that is an object without a truthy [threadId]
    is dropped: no subscriber is called, nothing is broadcast and the
    state is unchanged. *)
Theorem unroutable_frames_are_dropped data w :
  throws (socket_onmessage data w) = false
  /\ (JSON.parse data = JSON.PSyntax -> socket_onmessage data w = Ret tt w)
  /\ (JSON.parse data = JSON.POk JNull "" -> socket_onmessage data w = Ret tt w)
  /\ (forall fields,
        JSON.parse data = JSON.POk (JObj fields) "" ->
        truthy (JSON.get "threadId" fields) = false ->
        socket_onmessage data w = Ret tt w).
Proof.
  split; [apply CacheFacts.try_catch_total|].
  split; [|split].
  - intros Hp. unfold socket_onmessage, try_catch, bind at 1.
    now rewrite (JSON_parse_syntax _ _ Hp).
  - intros Hp. unfold socket_onmessage, try_catch.
    rewrite (bind_Ret _ _ _ _ _ (JSON_parse_ok _ _ _ Hp)). reflexivity.
  - intros fields Hp Hf. unfold socket_onmessage, try_catch.
    rewrite (bind_Ret _ _ _ _ _ (JSON_parse_ok _ _ _ Hp)).
    rewrite (bind_Ret _ _ _ _ _ (read_prop_obj _ _ _)).
    destruct (JSON.get "threadId" fields) as [t|]; [|reflexivity].
    now rewrite Hf.
Qed.

(** ** Subscriptions *)

(** X16.  The subscribers form a set: subscribing a callback that is
    subscribed changes nothing, so a callback is called once per
    message; the function [subscribe] returns removes the callback
    and no other, and a message notified afterwards does not reach
    it. *)
Theorem subscription_is_idempotent_and_revocable c t m w :
  List.NoDup (subscribers w) ->
  exists w1 w2 w3,
    subscribe c w = Ret tt w1
    /\ subscribe c w1 = Ret tt w1
    /\ List.NoDup (subscribers w1)
    /\ In c (subscribers w1)
    /\ (forall c', c' <> c -> In c' (subscribers w1) <-> In c' (subscribers w))
    /\ unsubscribe c w1 = Ret tt w2
    /\ ~ In c (subscribers w2)
    /\ (forall c', c' <> c -> In c' (subscribers w2) <-> In c' (subscribers w))
    /\ _notifySubscribers t m w2 = Ret tt w3
    /\ (forall call, In call (notified w3) ->
                     In call (notified w) \/ (fst (fst call) <> c
                                              /\ In (fst (fst call)) (subscribers w))).
Proof.
  intros Hnd.
  set (subs1 := if bool_decide (c ∈ subscribers w) then subscribers w
                else subscribers w ++ [c]).
  assert (H1 : subscribe c w = Ret tt (set_subscribers subs1 w)).
  { unfold subscribe, modify, subs1. destruct (bool_decide _); [|reflexivity].
    now destruct w. }
  assert (Hin1 : In c subs1).
  { unfold subs1. destruct (bool_decide (c ∈ subscribers w)) eqn:E.
    - apply bool_decide_eq_true in E. now apply list_elem_of_In.
    - apply in_or_app. right. now left. }
  assert (Hnd1 : List.NoDup subs1).
  { unfold subs1. destruct (bool_decide (c ∈ subscribers w)) eqn:E; [exact Hnd|].
    apply bool_decide_eq_false in E.
    apply List.NoDup_app; [exact Hnd | repeat constructor; intros [] |].
    intros x Hx [<- | []]. apply E. now apply list_elem_of_In. }
  assert (Hsame1 : forall c', c' <> c -> In c' subs1 <-> In c' (subscribers w)).
  { intros c' Hne. unfold subs1. destruct (bool_decide _); [reflexivity|].
    rewrite in_app_iff. cbn. intuition congruence. }
  set (w1 := set_subscribers subs1 w).
  set (subs2 := List.filter (fun x => negb (Nat.eqb x c)) subs1).
  set (w2 := set_subscribers subs2 w1).
  exists w1, w2. eexists.
  split; [exact H1|].
  split.
  { unfold subscribe, modify. cbn [w1 subscribers set_subscribers].
    rewrite bool_decide_eq_true_2 by (now apply list_elem_of_In). reflexivity. }
  split; [exact Hnd1|]. split; [exact Hin1|]. split; [exact Hsame1|].
  split; [reflexivity|].
  assert (Hin2 : forall x, In x subs2 <-> In x subs1 /\ x <> c).
  { intros x. unfold subs2. rewrite List.filter_In, negb_true_iff, Nat.eqb_neq. reflexivity. }
  split; [intros H; apply Hin2 in H; now destruct H|].
  split.
  { intros c' Hne. cbn [w2 subscribers set_subscribers]. rewrite Hin2, Hsame1 by exact Hne.
    intuition. }
  split; [apply _notifySubscribers_eval|].
  intros call. cbn [notified set_notified w2 w1 subscribers set_subscribers set_subscribers].
  rewrite in_app_iff. intros [H | H]; [left; exact H | right].
  unfold calls in H. apply in_map_iff in H as (x & <- & Hx). cbn [fst].
  apply Hin2 in Hx as [Hx Hne]. split; [exact Hne|]. now apply Hsame1.
Qed.

(** ** Broadcasts a context does not act on *)

(** X17.  A context does not act on a broadcast it sent itself, and a
    context that is not Leader acts on no broadcast but a received
    message: the state is unchanged. *)
Theorem broadcasts_without_effect data w :
  (origin data = tabId w -> _handleBroadcast data w = Ret tt w)
  /\ (isLeader w = false ->
      (forall thread message sender, data <> MESSAGE_RECEIVED thread message sender) ->
      _handleBroadcast data w = Ret tt w).
Proof.
  split.
  - intros Ho. unfold _handleBroadcast.
    rewrite (bind_Ret (gets tabId) _ w _ w eq_refl).
    rewrite (bind_Ret (gets isLeader) _ w _ w eq_refl).
    destruct data; cbn [origin] in Ho; subst; rewrite String.eqb_refl;
      cbn [negb andb when]; rewrite ?andb_false_r; reflexivity.
  - intros Hl Hdata. unfold _handleBroadcast.
    rewrite (bind_Ret (gets tabId) _ w _ w eq_refl).
    rewrite (bind_Ret (gets isLeader) _ w _ w eq_refl). rewrite Hl.
    destruct data as [tab| | | |thread message sender]; cbn [andb when]; try reflexivity.
    + destruct (negb _); [|reflexivity]. cbn [when].
      unfold _resignAsLeader. rewrite (bind_Ret (gets isLeader) _ w _ w eq_refl).
      now rewrite Hl.
    + now destruct (Hdata thread message sender).
Qed.

(** ** Resigning *)

Lemma _resignAsLeader_leader hb w :
  isLeader w = true -> heartbeatInterval w = Some hb ->
  _resignAsLeader w
  = Ret tt (set_heartbeatInterval None
              (set_timers (delete hb (timers w)) (set_isLeader false w))).
Proof.
  intros Hl Hhb. unfold _resignAsLeader.
  rewrite (bind_Ret (gets isLeader) _ w _ w eq_refl), Hl. cbn [negb].
  unfold bind, modify, gets, clearTimer. cbn [heartbeatInterval set_isLeader].
  rewrite Hhb. reflexivity.
Qed.

Lemma resign_on_election other hb w :
  isLeader w = true -> heartbeatInterval w = Some hb -> other <> tabId w ->
  _handleBroadcast (LEADER_ELECTED other) w
  = Ret tt (set_heartbeatInterval None
              (set_timers (delete hb (timers w)) (set_isLeader false w))).
Proof.
  intros Hl Hhb Hne.
  assert (Hneq : String.eqb other (tabId w) = false) by (now apply String.eqb_neq).
  unfold _handleBroadcast.
  rewrite (bind_Ret (gets tabId) _ w _ w eq_refl).
  rewrite (bind_Ret (gets isLeader) _ w _ w eq_refl).
  rewrite Hneq. cbn [negb when]. now apply _resignAsLeader_leader.
Qed.

(** An election in a context without active threads. *)
Lemma _becomeLeader_idle w :
  activeThreads w = ∅ ->
  exists w',
    _becomeLeader w = Ret tt w'
    /\ isLeader w' = true /\ tabId w' = tabId w
    /\ heartbeatInterval w' = Some (next_timer w)
    /\ timers w' = <[next_timer w := Heartbeat]> (timers w).
Proof.
  intros Hthreads.
  unfold _becomeLeader, _updateLeaderHeartbeat, in_browser, Date_now, setItem, setTimer,
    postMessage.
  unfold_m. cbn -[_scheduleConnect JSON.stringify].
  rewrite bool_decide_eq_true_2 by exact Hthreads. cbn -[JSON.stringify].
  eexists. split; [reflexivity|]. cbn. auto.
Qed.

(** X18.  A Leader that hears of the election of another context, on
    the channel or through a storage event whose record names the
    other, resigns: it stops being Leader and clears the timer whose
    handle is in [heartbeatInterval], leaving every other timer
    pending.  If that timer was its only heartbeat timer, no heartbeat
    is pending afterwards.  Resigning does not close the socket, empty
    the queue or touch the storage; hearing the same again changes
    nothing, and its sends now go to the channel.  A Leader that was
    elected a second time (a storage event without a value, while the
    record is its own) holds two heartbeat timers and keeps the
    earlier one pending when it resigns. *)
Theorem leader_resigns_when_another_is_elected other hb w :
  isLeader w = true -> heartbeatInterval w = Some hb -> other <> tabId w ->
  let resigned := set_heartbeatInterval None
                    (set_timers (delete hb (timers w)) (set_isLeader false w)) in
  _handleBroadcast (LEADER_ELECTED other) w = Ret tt resigned
  /\ (forall text fields,
        JSON.parse text = JSON.POk (JObj fields) "" ->
        JSON.get "tabId" fields = Some (JStr other) ->
        _handleStorageChange (mkStorageEvent (Some LEADER_KEY) (Some text)) w
        = Ret tt resigned)
  /\ isLeader resigned = false
  /\ timers resigned !! hb = None
  /\ (forall id, id <> hb -> timers resigned !! id = timers w !! id)
  /\ ((forall id, timers w !! id = Some Heartbeat -> id = hb) ->
      none_pending Heartbeat resigned)
  /\ socket resigned = socket w /\ sockets resigned = sockets w
  /\ messageQueue resigned = messageQueue w
  /\ browser resigned = browser w
  /\ _handleBroadcast (LEADER_ELECTED other) resigned = Ret tt resigned
  /\ (forall t p,
        sendMessage t p resigned
        = Ret true (set_channel (channel resigned ++ [SEND_MESSAGE t p (tabId w)]) resigned))
  /\ (forall timestamp,
        activeThreads w = ∅ -> timers w !! hb = Some Heartbeat -> hb <> next_timer w ->
        owner_record w (tabId w) timestamp ->
        exists again after,
          _handleStorageChange (mkStorageEvent (Some LEADER_KEY) None) w = Ret tt again
          /\ isLeader again = true
          /\ heartbeatInterval again = Some (next_timer w)
          /\ _handleBroadcast (LEADER_ELECTED other) again = Ret tt after
          /\ isLeader after = false
          /\ timers after !! hb = Some Heartbeat).
Proof.
  intros Hl Hhb Hne resigned.
  assert (Hneq : String.eqb other (tabId w) = false) by (now apply String.eqb_neq).
  split; [now apply resign_on_election|].
  split.
  { intros text fields Hp Hget. unfold _handleStorageChange. cbn [key newValue].
    rewrite bool_decide_eq_true_2 by reflexivity. cbn [negb].
    rewrite (parse_truthy _ _ _ Hp). cbn [negb default].
    rewrite (bind_Ret _ _ _ _ _ (JSON_parse_ok _ _ _ Hp)).
    rewrite (bind_Ret _ _ _ _ _ (read_prop_obj _ _ _)), Hget.
    rewrite (bind_Ret (gets tabId) _ w _ w eq_refl).
    rewrite (bind_Ret (gets isLeader) _ w _ w eq_refl), Hl.
    replace (strict_ne_string (Some (JStr other)) (tabId w)) with true
      by (symmetry; now apply strict_ne_string_true).
    cbn [andb when]. now apply _resignAsLeader_leader. }
  split; [reflexivity|].
  split; [cbn; apply lookup_delete_eq|].
  split; [intros id Hid; cbn; now apply lookup_delete_ne|].
  split.
  { intros Honly id Hpending. cbn in Hpending.
    apply lookup_delete_Some in Hpending as [Hid Hpending].
    apply Hid. symmetry. now apply Honly. }
  split; [reflexivity|]. split; [reflexivity|]. split; [reflexivity|].
  split; [reflexivity|].
  split.
  { unfold _handleBroadcast.
    rewrite (bind_Ret (gets tabId) _ resigned _ resigned eq_refl).
    rewrite (bind_Ret (gets isLeader) _ resigned _ resigned eq_refl).
    cbn [resigned tabId set_heartbeatInterval set_timers set_isLeader].
    rewrite Hneq. cbn [negb when]. reflexivity. }
  split; [intros t p; reflexivity|].
  intros timestamp Hthreads Htimer Hfresh Hrec.
  destruct (_becomeLeader_idle w Hthreads) as (again & Hrun & Hl2 & Htab & Hhb2 & Htimers).
  exists again. eexists. split.
  { unfold _handleStorageChange. cbn [key newValue].
    rewrite bool_decide_eq_true_2 by reflexivity. cbn [negb truthy_item].
    rewrite (passive_election_eval w _ _ Hrec).
    replace (strict_ne_string (Some (JStr (tabId w))) (tabId w)) with false
      by (cbn; now rewrite String.eqb_refl).
    rewrite andb_false_r. exact Hrun. }
  split; [exact Hl2|]. split; [exact Hhb2|].
  split; [apply (resign_on_election other (next_timer w) again Hl2 Hhb2); congruence|].
  split; [reflexivity|].
  cbn. rewrite Htimers, lookup_delete_ne, lookup_insert_ne by congruence. exact Htimer.
Qed.

(** ** The queue when an attempt to connect ends *)

(** X19.  What becomes of frames queued while the socket was
    connecting, when it never opens.  If the socket closes by itself
    the queue is kept, and the frames are transmitted in order on the
    next socket once that one opens.  If the Leader closes the socket
    (the disconnect timer), the queue is emptied and the frames are
    never transmitted. *)
Theorem queue_outlives_a_failed_attempt_only s w :
  isLeader w = true -> socket w = Some s -> sockets w !! s = Some CONNECTING ->
  (exists w1 w2 w3,
     socket_onclose s w = Ret tt w1
     /\ socket w1 = None /\ messageQueue w1 = messageQueue w
     /\ _createWebSocket w1 = Ret tt w2
     /\ socket w2 = Some (List.length (sockets w))
     /\ socket_onopen (List.length (sockets w)) w2 = Ret tt w3
     /\ wire w3 = wire w ++ List.map (pair (List.length (sockets w))) (messageQueue w)
     /\ messageQueue w3 = [])
  /\ (exists w',
        _closeWebSocket w = Ret tt w'
        /\ socket w' = None /\ messageQueue w' = [] /\ wire w' = wire w
        /\ sockets w' !! s = Some CLOSING
        /\ exists w'', socket_onopen s w' = Ret tt w'' /\ wire w'' = wire w).
Proof.
  intros Hl Hs Hstate.
  assert (Hlt : (s < List.length (sockets w))%nat) by (now apply lookup_lt_Some in Hstate).
  split.
  - set (n := List.length (sockets w)).
    set (w1 := set_socket None (set_sockets (<[s := CLOSED]> (sockets w)) w)).
    set (w2 := set_socket (Some n) (set_sockets (sockets w1 ++ [CONNECTING]) w1)).
    set (w2' := set_sockets (<[n := OPEN]> (sockets w2)) w2).
    exists w1, w2, (set_messageQueue [] (set_wire (wire w2' ++ List.map (pair n) (messageQueue w2')) w2')).
    split; [reflexivity|]. split; [reflexivity|]. split; [reflexivity|].
    split.
    { unfold _createWebSocket.
      rewrite (bind_Ret (gets isLeader) _ w1 _ w1 eq_refl).
      cbn [w1 isLeader set_socket set_sockets]. rewrite Hl. cbn [negb].
      unfold bind, gets, new_WebSocket, modify, socket_open_or_connecting.
      cbn [socket set_socket set_sockets sockets].
      unfold w2, w1, n. cbn [socket sockets set_socket set_sockets].
      now rewrite length_insert. }
    split; [reflexivity|].
    split.
    { unfold socket_onopen.
      rewrite (bind_Ret (set_readyState n OPEN) _ w2 tt w2' eq_refl).
      apply _flushMessageQueue_open; [reflexivity|].
      cbn [w2' w2 w1 sockets set_sockets set_socket].
      apply list_lookup_insert_eq. rewrite length_app, length_insert. cbn. unfold n. lia. }
    split; reflexivity.
  - destruct w as [me leader sock ct dt q threads hb subs br ch socks wr tm nt nf].
    cbn in *. subst leader sock.
    unfold _closeWebSocket, socket_close, set_readyState, readyState. unfold_m. cbn.
    rewrite Hstate. cbn.
    eexists. split; [reflexivity|]. cbn. split; [reflexivity|]. split; [reflexivity|].
    split; [reflexivity|]. split; [now apply list_lookup_insert_eq|].
    unfold socket_onopen, _flushMessageQueue, set_readyState. unfold_m. cbn.
    eexists. split; reflexivity.
Qed.

(** ** Heartbeats *)

Lemma _updateLeaderHeartbeat_eval w :
  _updateLeaderHeartbeat w
  = Ret tt (set_browser
              (mkBrowser
                 (<[LEADER_KEY := JSON.stringify (JObj [("tabId", JStr (tabId w));
                                                         ("timestamp", JNum (clock (browser w)))])]>
                    (localStorage (browser w)))
                 (clock (browser w)))
              w).
Proof.
  unfold _updateLeaderHeartbeat.
  rewrite (bind_Ret (gets tabId) _ w _ w eq_refl).
  rewrite (bind_Ret _ _ _ _ _ (in_browser_Date_now _)).
  reflexivity.
Qed.

(** X20.  A heartbeat, from the timer or on becoming visible, rewrites
    the ownership record with the current time and changes nothing
    else; the timer stays pending.  Another context that is not Leader
    and checks the storage the heartbeat left within one
    [LEADER_HEARTBEAT_INTERVAL] of it stays Follower, unchanged, on
    the visibility check and on the passive one: a Leader whose
    heartbeat runs on time is not displaced. *)
Theorem punctual_leader_is_not_displaced hb w f later :
  isLeader w = true -> timers w !! hb = Some Heartbeat ->
  - JSON.MAX_SAFE_INTEGER <= clock (browser w) <= JSON.MAX_SAFE_INTEGER ->
  tabId f <> tabId w -> isLeader f = false ->
  later - clock (browser w) <= LEADER_HEARTBEAT_INTERVAL ->
  exists w',
    fire hb w = Ret tt w'
    /\ _handleVisibilityChange false w = Ret tt w'
    /\ timers w' = timers w
    /\ owner_record w' (tabId w) (clock (browser w))
    /\ let checking := set_browser (mkBrowser (localStorage (browser w')) later) f in
       _handleVisibilityChange false checking = Ret tt checking
       /\ _attemptLeaderElection checking = Ret tt checking.
Proof.
  intros Hl Hhb Hrange Hne Hlf Hage.
  eexists. split.
  { unfold fire. rewrite (bind_Ret (gets (fun w => timers w !! hb)) _ w _ w eq_refl).
    rewrite Hhb. apply _updateLeaderHeartbeat_eval. }
  split.
  { unfold _handleVisibilityChange.
    rewrite (bind_Ret (gets isLeader) _ w _ w eq_refl), Hl.
    apply _updateLeaderHeartbeat_eval. }
  split; [reflexivity|].
  assert (Hrec : forall x,
            localStorage (browser x)
            = <[LEADER_KEY := JSON.stringify (JObj [("tabId", JStr (tabId w));
                                                    ("timestamp", JNum (clock (browser w)))])]>
                (localStorage (browser w)) ->
            owner_record x (tabId w) (clock (browser w))).
  { intros x Hx. eexists _, _. split; [rewrite Hx; apply lookup_insert_eq|].
    split; [now apply heartbeat_readable|]. split; reflexivity. }
  split; [apply Hrec; reflexivity|].
  cbn zeta. cbn [browser set_browser localStorage].
  match goal with |- context [set_browser ?b f] => set (checking := set_browser b f) end.
  assert (Hrecf : owner_record checking (tabId w) (clock (browser w)))
    by (apply Hrec; reflexivity).
  assert (Hlc : isLeader checking = false) by exact Hlf.
  assert (Hother : strict_ne_string (Some (JStr (tabId w))) (tabId checking) = true)
    by (apply strict_ne_string_true; exact (fun E => Hne (eq_sym E))).
  split.
  - rewrite (visibility_follower_eval checking Hlc),
      (aggressive_election_eval checking _ _ Hrecf).
    replace (VISIBILITY_FAILOVER_MS <? clock (browser checking) - clock (browser w))
      with false; [reflexivity|].
    symmetry. apply Z.ltb_ge. cbn.
    unfold VISIBILITY_FAILOVER_MS, LEADER_HEARTBEAT_INTERVAL in *. lia.
  - rewrite (passive_election_eval checking _ _ Hrecf), Hother.
    replace (clock (browser checking) - clock (browser w) <? LEADER_TIMEOUT) with true.
    + cbn [andb]. f_equal. unfold checking. destruct f. cbn in *. now subst.
    + symmetry. apply Z.ltb_lt. cbn.
      unfold LEADER_TIMEOUT, LEADER_HEARTBEAT_INTERVAL in *. lia.
Qed.

(** ** The statements on the sample states *)

Lemma timers_leader_A : timers leader_A = <[1%nat := Heartbeat]> ∅.
Proof. vm_compute. reflexivity. Qed.

Lemma none_pending_leader_A task : task <> Heartbeat -> none_pending task leader_A.
Proof.
  intros Hne id H. rewrite timers_leader_A in H.
  apply lookup_insert_Some in H as [[_ H] | [_ H]]; [congruence|].
  rewrite lookup_empty in H. discriminate.
Qed.

Lemma newcomer_election_witness :
  exists w',
    _becomeLeader (fresh "tab_A" (mkBrowser ∅ 1000)) = Ret tt w'
    /\ let b := mkBrowser (localStorage (browser w')) 2000 in
       (2000 - clock (browser (fresh "tab_A" (mkBrowser ∅ 1000))) < LEADER_TIMEOUT ->
        constructor "tab_B" b = Ret tt (fresh "tab_B" b))
       /\ (LEADER_TIMEOUT <= 2000 - clock (browser (fresh "tab_A" (mkBrowser ∅ 1000))) ->
           becomes_leader (constructor "tab_B" b)).
Proof.
  apply (newcomer_election (fresh "tab_A" (mkBrowser ∅ 1000)) "tab_B" 2000).
  - cbn. unfold JSON.MAX_SAFE_INTEGER. lia.
  - discriminate.
Defined.

Lemma closing_leader_hands_over_witness :
  exists w',
    _handleTabClose leader_A = Ret tt w'
    /\ localStorage (browser w') !! LEADER_KEY = None
    /\ (forall key, key <> LEADER_KEY ->
                    localStorage (browser w') !! key = localStorage (browser leader_A) !! key)
    /\ (forall id, socket leader_A = Some id ->
                   readyState w' id <> OPEN /\ readyState w' id <> CONNECTING)
    /\ (forall tab now,
          becomes_leader (constructor tab (mkBrowser (localStorage (browser w')) now)))
    /\ forall f,
         localStorage (browser f) = localStorage (browser w') ->
         exists f',
           _handleStorageChange (mkStorageEvent (Some LEADER_KEY) None) f = Ret tt f'
           /\ isLeader f' = true
           /\ activeThreads f' = activeThreads f
           /\ channel f' = channel f ++ [LEADER_ELECTED (tabId f)]
           /\ (activeThreads f <> ∅ -> socket_open_or_connecting f = false ->
               exists c, connectTimer f' = Some c /\ timers f' !! c = Some Connect).
Proof. apply (closing_leader_hands_over leader_A). reflexivity. Defined.

Lemma connect_then_disconnect_opens_nothing_witness :
  exists w1 w2,
    connectThread "abc" leader_A = Ret tt w1
    /\ (exists c, connectTimer w1 = Some c /\ timers w1 !! c = Some Connect)
    /\ disconnectThread "abc" w1 = Ret tt w2
    /\ connectTimer w2 = None
    /\ none_pending Connect w2
    /\ (exists d, disconnectTimer w2 = Some d /\ timers w2 !! d = Some Disconnect)
    /\ forall id, exists w3,
         fire id w2 = Ret tt w3 /\ sockets w3 = sockets leader_A /\ wire w3 = wire leader_A.
Proof.
  apply (connect_then_disconnect_opens_nothing "abc" leader_A).
  - reflexivity.
  - reflexivity.
  - reflexivity.
  - apply none_pending_leader_A. discriminate.
Defined.

Lemma none_pending_open_A : none_pending Disconnect open_A.
Proof.
  intros id H.
  replace (timers open_A) with (<[1%nat := Heartbeat]> (∅ : gmap nat TimerTask)) in H
    by (vm_compute; reflexivity).
  apply lookup_insert_Some in H as [[_ H] | [_ H]]; [discriminate|].
  rewrite lookup_empty in H. discriminate.
Qed.

Lemma reconnect_within_debounce_keeps_connection_witness :
  exists w1 w2,
    disconnectThread "abc" open_A = Ret tt w1
    /\ connectThread "def" w1 = Ret tt w2
    /\ activeThreads w2 = {["def"]} ∪ (activeThreads open_A ∖ {["abc"]})
    /\ disconnectTimer w2 = None
    /\ none_pending Disconnect w2
    /\ socket w2 = socket open_A /\ sockets w2 = sockets open_A
    /\ messageQueue w2 = messageQueue open_A
    /\ forall id, exists w3,
         fire id w2 = Ret tt w3
         /\ socket w3 = socket open_A /\ sockets w3 = sockets open_A
         /\ messageQueue w3 = messageQueue open_A /\ wire w3 = wire w2.
Proof.
  apply (reconnect_within_debounce_keeps_connection "abc" "def" open_A).
  - reflexivity.
  - reflexivity.
  - exact none_pending_open_A.
Defined.

Lemma registrations_coalesce_into_one_connection_witness :
  exists w' c w'',
    forEach connectThread ["abc"; "def"] leader_A = Ret tt w'
    /\ activeThreads w' = list_to_set ["abc"; "def"] ∪ activeThreads leader_A
    /\ sockets w' = sockets leader_A
    /\ connectTimer w' = Some c
    /\ (forall id, timers w' !! id = Some Connect <-> id = c)
    /\ fire c w' = Ret tt w''
    /\ sockets w'' = sockets leader_A ++ [CONNECTING]
    /\ socket w'' = Some (List.length (sockets leader_A))
    /\ connectTimer w'' = None
    /\ none_pending Connect w''.
Proof.
  apply (registrations_coalesce_into_one_connection ["abc"; "def"] leader_A).
  - discriminate.
  - reflexivity.
  - reflexivity.
  - apply none_pending_leader_A. discriminate.
Defined.

Lemma inbound_frame_reaches_every_subscriber_witness :
  exists w',
    socket_onmessage reply_frame subscribed_A = Ret tt w'
    /\ notified w'
       = notified subscribed_A
         ++ calls (JStr "abc") (JObj [("threadId", JStr "abc"); ("reply", JStr "hello")])
              (subscribers subscribed_A)
    /\ channel w'
       = channel subscribed_A
         ++ [MESSAGE_RECEIVED (JStr "abc")
               (JObj [("threadId", JStr "abc"); ("reply", JStr "hello")])
               (tabId subscribed_A)]
    /\ _handleBroadcast
         (MESSAGE_RECEIVED (JStr "abc")
            (JObj [("threadId", JStr "abc"); ("reply", JStr "hello")]) (tabId subscribed_A))
         w'
       = Ret tt w'
    /\ forall f, tabId f <> tabId subscribed_A ->
         exists f',
           _handleBroadcast
             (MESSAGE_RECEIVED (JStr "abc")
                (JObj [("threadId", JStr "abc"); ("reply", JStr "hello")])
                (tabId subscribed_A))
             f
           = Ret tt f'
           /\ notified f'
              = notified f
                ++ calls (JStr "abc")
                     (JObj [("threadId", JStr "abc"); ("reply", JStr "hello")])
                     (subscribers f)
           /\ channel f' = channel f.
Proof.
  apply (inbound_frame_reaches_every_subscriber reply_frame
           [("threadId", JStr "abc"); ("reply", JStr "hello")] (JStr "abc") subscribed_A).
  - vm_compute. reflexivity.
  - reflexivity.
  - reflexivity.
Defined.

Lemma unroutable_frames_are_dropped_witness :
  socket_onmessage corrupt_record subscribed_A = Ret tt subscribed_A
  /\ socket_onmessage hi_payload subscribed_A = Ret tt subscribed_A.
Proof.
  split.
  - apply (proj1 (proj2 (unroutable_frames_are_dropped corrupt_record subscribed_A))).
    vm_compute. reflexivity.
  - apply (proj2 (proj2 (proj2 (unroutable_frames_are_dropped hi_payload subscribed_A)))
             [("content", JStr "hi")]).
    + vm_compute. reflexivity.
    + reflexivity.
Defined.

Lemma subscription_is_idempotent_and_revocable_witness :
  exists w1 w2 w3,
    subscribe 7 leader_A = Ret tt w1
    /\ subscribe 7 w1 = Ret tt w1
    /\ List.NoDup (subscribers w1)
    /\ In 7%nat (subscribers w1)
    /\ (forall c', c' <> 7%nat -> In c' (subscribers w1) <-> In c' (subscribers leader_A))
    /\ unsubscribe 7 w1 = Ret tt w2
    /\ ~ In 7%nat (subscribers w2)
    /\ (forall c', c' <> 7%nat -> In c' (subscribers w2) <-> In c' (subscribers leader_A))
    /\ _notifySubscribers (JStr "abc") JNull w2 = Ret tt w3
    /\ (forall call, In call (notified w3) ->
                     In call (notified leader_A)
                     \/ (fst (fst call) <> 7%nat
                         /\ In (fst (fst call)) (subscribers leader_A))).
Proof.
  apply (subscription_is_idempotent_and_revocable 7%nat (JStr "abc") JNull leader_A).
  constructor.
Defined.

Lemma broadcasts_without_effect_witness :
  _handleBroadcast (LEADER_ELECTED "tab_A") leader_A = Ret tt leader_A
  /\ _handleBroadcast (SEND_MESSAGE "abc" hi_payload "tab_A") follower_B = Ret tt follower_B.
Proof.
  split.
  - apply (proj1 (broadcasts_without_effect (LEADER_ELECTED "tab_A") leader_A)).
    reflexivity.
  - apply (proj2 (broadcasts_without_effect (SEND_MESSAGE "abc" hi_payload "tab_A")
                    follower_B)).
    + reflexivity.
    + discriminate.
Defined.

Lemma only_heartbeat_leader_A id : timers leader_A !! id = Some Heartbeat -> id = 1%nat.
Proof.
  rewrite timers_leader_A. intros H.
  apply lookup_insert_Some in H as [[<- _] | [_ H]]; [reflexivity|].
  rewrite lookup_empty in H. discriminate.
Qed.

Lemma owner_record_leader_A : owner_record leader_A "tab_A" 1000.
Proof.
  exists record_of_A, [("tabId", JStr "tab_A"); ("timestamp", JNum 1000)].
  repeat split; vm_compute; reflexivity.
Qed.

Lemma leader_resigns_when_another_is_elected_witness :
  (exists resigned,
     _handleBroadcast (LEADER_ELECTED "tab_B") leader_A = Ret tt resigned
     /\ isLeader resigned = false
     /\ none_pending Heartbeat resigned)
  /\ (exists again after,
        _handleStorageChange (mkStorageEvent (Some LEADER_KEY) None) leader_A
        = Ret tt again
        /\ isLeader again = true
        /\ _handleBroadcast (LEADER_ELECTED "tab_B") again = Ret tt after
        /\ isLeader after = false
        /\ timers after !! 1%nat = Some Heartbeat).
Proof.
  assert (Hl : isLeader leader_A = true) by (vm_compute; reflexivity).
  assert (Hhb : heartbeatInterval leader_A = Some 1%nat) by (vm_compute; reflexivity).
  assert (Hne : "tab_B" <> tabId leader_A) by (vm_compute; discriminate).
  destruct (leader_resigns_when_another_is_elected "tab_B" 1%nat leader_A Hl Hhb Hne)
    as (Hrun & _ & Hfollower & _ & _ & Hnone & _ & _ & _ & _ & _ & _ & Hagain).
  split.
  - eexists. split; [exact Hrun|]. split; [exact Hfollower|].
    apply Hnone. exact only_heartbeat_leader_A.
  - destruct (Hagain 1000) as (again & after & H1 & H2 & _ & H3 & H4 & H5).
    + vm_compute. reflexivity.
    + vm_compute. reflexivity.
    + vm_compute. discriminate.
    + exact owner_record_leader_A.
    + exists again, after. repeat split; assumption.
Defined.

Lemma queue_outlives_a_failed_attempt_only_witness :
  (exists w1 w2 w3,
     socket_onclose 0 queued_A = Ret tt w1
     /\ socket w1 = None /\ messageQueue w1 = messageQueue queued_A
     /\ _createWebSocket w1 = Ret tt w2
     /\ socket w2 = Some (List.length (sockets queued_A))
     /\ socket_onopen (List.length (sockets queued_A)) w2 = Ret tt w3
     /\ wire w3 = wire queued_A
                  ++ List.map (pair (List.length (sockets queued_A))) (messageQueue queued_A)
     /\ messageQueue w3 = [])
  /\ (exists w',
        _closeWebSocket queued_A = Ret tt w'
        /\ socket w' = None /\ messageQueue w' = [] /\ wire w' = wire queued_A
        /\ sockets w' !! 0%nat = Some CLOSING
        /\ exists w'', socket_onopen 0 w' = Ret tt w'' /\ wire w'' = wire queued_A).
Proof.
  apply (queue_outlives_a_failed_attempt_only 0%nat queued_A); reflexivity.
Defined.

Lemma punctual_leader_is_not_displaced_witness :
  exists w',
    fire 1 (at_time 3000 leader_A) = Ret tt w'
    /\ owner_record w' "tab_A" 3000
    /\ let checking := set_browser (mkBrowser (localStorage (browser w')) 5000) follower_B in
       isLeader checking = false
       /\ _handleVisibilityChange false checking = Ret tt checking
       /\ _attemptLeaderElection checking = Ret tt checking.
Proof.
  destruct (punctual_leader_is_not_displaced 1%nat (at_time 3000 leader_A) follower_B 5000)
    as (w' & Hfire & _ & _ & Hrec & Hvisible & Hpassive).
  - vm_compute. reflexivity.
  - vm_compute. reflexivity.
  - cbn. unfold JSON.MAX_SAFE_INTEGER. lia.
  - discriminate.
  - vm_compute. reflexivity.
  - cbn. unfold LEADER_HEARTBEAT_INTERVAL. lia.
  - exists w'. split; [exact Hfire|]. split; [exact Hrec|].
    cbn zeta. split; [reflexivity|]. split; [exact Hvisible | exact Hpassive].
Defined.

End ConnectionFacts.

(* ===================================================================== *)
(** * useChatSessions: the active session, closing and loading *)
(* ===================================================================== *)

Module SessionFacts.
Import useChatSessions Samples ChatSessionsFacts.
Local Open Scope list_scope.

(** ** The active session *)

Lemma add_session_ids s st :
  exists kept, List.map id (add_session s st) = kept ++ [id s].
Proof. unfold add_session. eexists. rewrite List.map_app. reflexivity. Qed.

Lemma in_ids_filter i a l :
  In a (List.map id l) -> a <> i ->
  In a (List.map id (List.filter (fun s => negb (has_id i s)) l)).
Proof.
  intros Hin Hne. apply in_map_iff in Hin as (s & <- & Hs). apply in_map.
  apply filter_In. split; [exact Hs|]. now apply negb_true_iff, has_id_false.
Qed.

Lemma last_in {A} (l : list A) x : last l = Some x -> In x l.
Proof.
  induction l as [|a [|b l] IH]; cbn; [discriminate | intros [= <-]; now left |].
  intros H. right. now apply IH.
Qed.

Lemma last_nonempty {A} (l : list A) : l <> [] -> exists x, last l = Some x.
Proof.
  induction l as [|a [|b l] IH]; intros H; [contradiction | now exists a |].
  destruct IH as [x Hx]; [discriminate|]. now exists x.
Qed.

(** One step keeps the active id among the ids. *)
Lemma step_keeps_active st a :
  bounded st -> In (activeSessionId st) (ids st) -> keeps_a_tab st a ->
  In (activeSessionId (step st a)) (ids (step st a)).
Proof.
  intros [[Hlo Hhi] Hnd] Hact Hkeep. unfold ids in *.
  destruct a as [uuid now | i now | i uuid | threadId now | threadId msgs t | threadId];
    cbn [step keeps_a_tab] in *.
  - cbn [handleNewChat activeSessions activeSessionId].
    destruct (add_session_ids (newSession uuid now) st) as [kept ->].
    apply in_or_app. right. now left.
  - unfold handleTabClick. destruct (String.eqb (activeSessionId st) i); [exact Hact|].
    cbn [activeSessions activeSessionId]. rewrite map_session_ids; auto.
  - unfold handleTabClose.
    replace (List.length (activeSessions st) =? 1)%nat with false
      by (symmetry; apply Nat.eqb_neq; lia).
    destruct (String.eqb (activeSessionId st) i) eqn:E.
    + destruct (last_nonempty
                  (List.map id (List.filter (fun s => negb (has_id i s)) (activeSessions st))))
        as [x Hx].
      { intros Hnil. apply List.map_eq_nil in Hnil.
        pose proof (filter_survivor i (activeSessions st) Hnd Hkeep) as Hs.
        rewrite Hnil in Hs. cbn in Hs. lia. }
      rewrite Hx. cbn [activeSessions activeSessionId]. now apply last_in.
    + cbn [activeSessions activeSessionId]. apply in_ids_filter; [exact Hact|].
      now apply String.eqb_neq.
  - unfold handleLoadChat. destruct (String.eqb threadId ""); [exact Hact|].
    destruct (List.find (has_id threadId) (activeSessions st)) as [s|] eqn:Hfind;
      cbn [activeSessions activeSessionId].
    + rewrite map_session_ids by auto.
      apply List.find_some in Hfind as [Hs Hid]. apply has_id_true in Hid.
      rewrite <- Hid. now apply in_map.
    + destruct (add_session_ids (loadingSession threadId now) st) as [kept ->].
      apply in_or_app. right. now left.
  - cbn [handleLoadChat_resolved activeSessions activeSessionId].
    rewrite map_session_ids; auto.
  - cbn [handleLoadChat_rejected activeSessions activeSessionId].
    rewrite map_session_ids; auto.
Qed.

Lemma find_has_id i l s :
  List.NoDup (List.map id l) -> In s l -> id s = i -> List.find (has_id i) l = Some s.
Proof.
  induction l as [|x l IH]; intros Hnd Hin Hid; [destruct Hin|].
  cbn in Hnd. apply NoDup_cons_iff in Hnd as [Hnotin Hnd]. cbn.
  destruct Hin as [-> | Hin].
  - now replace (has_id i s) with true by (symmetry; now apply has_id_true).
  - replace (has_id i x) with false; [now apply IH|].
    symmetry. apply has_id_false. intros Hx. apply Hnotin.
    rewrite Hx, <- Hid. now apply in_map.
Qed.

(** X22.  From the initial state, along every run in which generated
    identifiers are fresh, a clicked tab is one of the tabs and no tab
    is closed while it is the only one, there is exactly one session
    whose id is [activeSessionId], and it is the hook's
    [activeSession]. *)
Theorem one_active_session_while_a_tab_is_kept uuid now actions :
  fresh_run (initial uuid now) actions ->
  keeps_tabs (initial uuid now) actions ->
  let st := run (initial uuid now) actions in
  exists s,
    In s (activeSessions st)
    /\ id s = activeSessionId st
    /\ activeSession st = Some s
    /\ forall s', In s' (activeSessions st) -> id s' = activeSessionId st -> s' = s.
Proof.
  intros Hfresh Hkeep.
  assert (Hinv : bounded (run (initial uuid now) actions)
                 /\ In (activeSessionId (run (initial uuid now) actions))
                       (ids (run (initial uuid now) actions))).
  { assert (H0 : bounded (initial uuid now)
                 /\ In (activeSessionId (initial uuid now)) (ids (initial uuid now))).
    { split; [|now left]. unfold bounded, initial, ids, MAX_ACTIVE_SESSIONS. cbn.
      split; [lia|]. constructor; [intros [] | constructor]. }
    revert Hfresh Hkeep H0. generalize (initial uuid now) as st.
    induction actions as [|a actions IH]; intros st Hfresh Hkeep H0; [exact H0|].
    destruct Hfresh as [Ha Hrest]. destruct Hkeep as [Hk Hkrest]. destruct H0 as [Hb Hact].
    cbn [run fold_left]. apply IH; [exact Hrest | exact Hkrest |].
    split; [now apply step_bounded | now apply step_keeps_active]. }
  destruct Hinv as [[_ Hnd] Hact]. cbn zeta.
  set (st := run (initial uuid now) actions) in *.
  unfold ids in Hact, Hnd. apply in_map_iff in Hact as (s & Hid & Hs).
  exists s. split; [exact Hs|]. split; [exact Hid|].
  split.
  - unfold activeSession. now rewrite (find_has_id _ _ s Hnd Hs Hid).
  - intros s' Hs' Hid'.
    pose proof (find_has_id _ _ s Hnd Hs Hid) as H1.
    pose proof (find_has_id _ _ s' Hnd Hs' Hid') as H2. congruence.
Qed.

(** ** Closing a tab *)

Lemma filter_absent i l :
  ~ In i (List.map id l) -> List.filter (fun s => negb (has_id i s)) l = l.
Proof.
  intros Hnot. apply forallb_filter_id, forallb_forall. intros s Hs.
  apply negb_true_iff, has_id_false. intros Heq. apply Hnot.
  rewrite <- Heq. now apply in_map.
Qed.

(** X23.  With at least two sessions (of distinct ids),
    [handleTabClose] removes the session of the given id and no other,
    keeping the order of the rest, and nothing when no session has
    that id.  If the closed tab was the active one, the last of the
    remaining tabs becomes active; otherwise the active id stays. *)
Theorem closing_a_tab_removes_just_that_session i uuid st :
  List.NoDup (ids st) -> (2 <= List.length (activeSessions st))%nat ->
  let st' := handleTabClose i uuid st in
  (~ In i (ids st) -> activeSessions st' = activeSessions st)
  /\ (In i (ids st) ->
      exists before closed after,
        activeSessions st = before ++ closed :: after
        /\ id closed = i
        /\ activeSessions st' = before ++ after)
  /\ (activeSessionId st <> i -> activeSessionId st' = activeSessionId st)
  /\ (activeSessionId st = i -> last (ids st') = Some (activeSessionId st')).
Proof.
  intros Hnd Hlen. cbn zeta. unfold handleTabClose, ids in *.
  replace (List.length (activeSessions st) =? 1)%nat with false
    by (symmetry; apply Nat.eqb_neq; lia).
  set (newSessions := List.filter (fun s => negb (has_id i s)) (activeSessions st)).
  assert (Hsess : activeSessions
                    (if String.eqb (activeSessionId st) i
                     then match last (List.map id newSessions) with
                          | Some newActiveId => mkState newSessions newActiveId
                          | None => mkState newSessions (activeSessionId st)
                          end
                     else mkState newSessions (activeSessionId st)) = newSessions).
  { destruct (String.eqb _ _); [destruct (last _)|]; reflexivity. }
  rewrite Hsess.
  split; [intros Hnot; now apply filter_absent|].
  split.
  { intros Hin. apply in_map_iff in Hin as (closed & Hid & Hc).
    destruct (filter_out_member closed (activeSessions st) Hnd Hc) as (l1 & l2 & Hsplit & Hf).
    exists l1, closed, l2. split; [exact Hsplit|]. split; [exact Hid|].
    unfold newSessions. now rewrite <- Hid. }
  split.
  { intros Hne. apply String.eqb_neq in Hne. now rewrite Hne. }
  intros Heq. apply String.eqb_eq in Heq. rewrite Heq.
  destruct (last (List.map id newSessions)) as [x|] eqn:Hlast; [reflexivity|].
  exfalso. destruct (last_nonempty (List.map id newSessions)) as [x Hx]; [|congruence].
  intros Hnil. apply List.map_eq_nil in Hnil.
  pose proof (filter_survivor i (activeSessions st) Hnd Hlen) as Hs.
  fold newSessions in Hs. rewrite Hnil in Hs. cbn in Hs. lia.
Qed.

(** ** Loading a conversation *)

Lemma map_session_absent i f l :
  ~ In i (List.map id l) -> map_session i f l = l.
Proof.
  intros Hnot. unfold map_session.
  rewrite <- (List.map_id l) at 2. apply List.map_ext_in.
  intros s Hs. replace (has_id i s) with false; [reflexivity|].
  symmetry. apply has_id_false. intros Heq. apply Hnot. rewrite <- Heq. now apply in_map.
Qed.

Lemma find_some_in i l : In i (List.map id l) -> exists s, List.find (has_id i) l = Some s.
Proof.
  intros Hin. destruct (List.find (has_id i) l) as [s|] eqn:Hfind; [eauto|].
  now apply find_none_not_in in Hfind.
Qed.

(** X24.  [handleLoadChat] does nothing for an empty thread id.
    Otherwise the thread becomes the active session.  If it is open
    already, no session is added or removed, and for a thread other
    than the active one the effect is that of clicking its tab.  If it
    is not open, a loading session is appended after the sessions
    that are kept; those are sessions of before, the active one among
    them, and the count grows by one up to [MAX_ACTIVE_SESSIONS]. *)
Theorem loading_opens_or_switches threadId now st :
  bounded st ->
  let st' := handleLoadChat threadId now st in
  (threadId = "" -> st' = st)
  /\ (threadId <> "" ->
      activeSessionId st' = threadId
      /\ In threadId (ids st')
      /\ (In threadId (ids st) ->
          ids st' = ids st
          /\ (activeSessionId st <> threadId -> st' = handleTabClick threadId now st))
      /\ (~ In threadId (ids st) ->
          exists kept,
            activeSessions st' = kept ++ [loadingSession threadId now]
            /\ (forall s, In s kept -> In s (activeSessions st))
            /\ (In (activeSessionId st) (ids st) ->
                In (activeSessionId st) (List.map id kept))
            /\ List.length (activeSessions st')
               = Nat.min (Datatypes.S (List.length (activeSessions st)))
                         MAX_ACTIVE_SESSIONS)).
Proof.
  intros [[Hlo Hhi] Hnd]. cbn zeta. unfold ids in *.
  split.
  { intros ->. reflexivity. }
  intros Hne. unfold handleLoadChat.
  replace (String.eqb threadId "") with false by (symmetry; now apply String.eqb_neq).
  destruct (List.find (has_id threadId) (activeSessions st)) as [s|] eqn:Hfind.
  - cbn [activeSessions activeSessionId].
    assert (Hin : In threadId (List.map id (activeSessions st))).
    { apply List.find_some in Hfind as [Hs Hid]. apply has_id_true in Hid.
      rewrite <- Hid. now apply in_map. }
    split; [reflexivity|].
    split; [rewrite map_session_ids; auto|].
    split.
    + intros _. split; [rewrite map_session_ids; auto|].
      intros Hact. unfold handleTabClick.
      now replace (String.eqb (activeSessionId st) threadId) with false
        by (symmetry; now apply String.eqb_neq).
    + intros Hnot. contradiction.
  - cbn [activeSessions activeSessionId].
    pose proof (find_none_not_in _ _ Hfind) as Hnot.
    split; [reflexivity|].
    split.
    { destruct (add_session_ids (loadingSession threadId now) st) as [kept ->].
      apply in_or_app. right. now left. }
    split; [intros Hin; contradiction|].
    intros _. unfold add_session.
    destruct (MAX_ACTIVE_SESSIONS <=? List.length (activeSessions st))%nat eqn:Hfull.
    + apply Nat.leb_le in Hfull.
      destruct (removeLRUSession_spec (activeSessions st) (activeSessionId st) Hnd)
        as (lru & l1 & l2 & Hsplit & Hrem & Hlru & _).
      { unfold MAX_ACTIVE_SESSIONS in *. lia. }
      exists (l1 ++ l2). rewrite Hrem. split; [reflexivity|].
      split.
      { intros x Hx. rewrite Hsplit. apply in_app_or in Hx as [Hx | Hx];
          apply in_or_app; [now left | right; now right]. }
      split.
      { intros Hact. rewrite Hsplit in Hact. rewrite List.map_app in *. cbn [List.map] in Hact.
        apply in_app_or in Hact as [Hact | [Hact | Hact]];
          apply in_or_app; [now left | congruence | now right]. }
      rewrite Hsplit in Hhi, Hfull. rewrite !length_app in *. cbn [List.length] in *.
      rewrite Hsplit, !length_app. cbn [List.length]. unfold MAX_ACTIVE_SESSIONS in *. lia.
    + apply Nat.leb_gt in Hfull.
      exists (activeSessions st). split; [reflexivity|].
      split; [auto|]. split; [auto|].
      rewrite length_app. cbn [List.length]. unfold MAX_ACTIVE_SESSIONS in *. lia.
Qed.

(** X25.  When the messages of a loaded thread arrive, or fail to, and
    its session has been closed or evicted meanwhile, nothing changes:
    no session is brought back.  Otherwise the session of the thread
    gets the messages and a title (or the failure title); the ids,
    their order, the active id and every other session stay as they
    are. *)
Theorem completion_of_a_load_touches_its_session_only threadId msgs threadTitle st :
  let resolved := handleLoadChat_resolved threadId msgs threadTitle st in
  let rejected := handleLoadChat_rejected threadId st in
  (~ In threadId (ids st) -> resolved = st /\ rejected = st)
  /\ ids resolved = ids st /\ activeSessionId resolved = activeSessionId st
  /\ ids rejected = ids st /\ activeSessionId rejected = activeSessionId st
  /\ (forall s, In s (activeSessions st) ->
                if has_id threadId s
                then In (loaded msgs threadTitle s) (activeSessions resolved)
                     /\ In (failed s) (activeSessions rejected)
                else In s (activeSessions resolved) /\ In s (activeSessions rejected)).
Proof.
  cbn zeta. unfold handleLoadChat_resolved, handleLoadChat_rejected, ids.
  cbn [activeSessions activeSessionId].
  split.
  { intros Hnot. rewrite !map_session_absent by exact Hnot. now destruct st. }
  rewrite !map_session_ids by auto.
  split; [reflexivity|]. split; [reflexivity|]. split; [reflexivity|].
  split; [reflexivity|].
  intros s Hs. unfold map_session.
  destruct (has_id threadId s) eqn:E; split; apply in_map_iff; exists s; rewrite E; auto.
Qed.

(** ** The statements on the sample state *)

Lemma one_active_session_while_a_tab_is_kept_witness :
  exists s,
    In s (activeSessions (handleTabClose "u5" "u9" six_sessions))
    /\ id s = activeSessionId (handleTabClose "u5" "u9" six_sessions)
    /\ activeSession (handleTabClose "u5" "u9" six_sessions) = Some s
    /\ forall s', In s' (activeSessions (handleTabClose "u5" "u9" six_sessions)) ->
                  id s' = activeSessionId (handleTabClose "u5" "u9" six_sessions) -> s' = s.
Proof.
  apply (one_active_session_while_a_tab_is_kept "u0" 0
           [NewChat "u1" 1; NewChat "u2" 2; NewChat "u3" 3; NewChat "u4" 4;
            NewChat "u5" 5; TabClick "u0" 6; TabClick "u5" 7; TabClose "u5" "u9"]).
  - cbn. repeat split; intuition discriminate.
  - cbn. repeat split; try lia; repeat (first [left; reflexivity | right]).
Defined.

Lemma NoDup_six_sessions : List.NoDup (ids six_sessions).
Proof.
  vm_compute. repeat (constructor; [cbn; intuition discriminate|]). constructor.
Qed.

Lemma closing_a_tab_removes_just_that_session_witness :
  (~ In "u5" (ids six_sessions) ->
   activeSessions (handleTabClose "u5" "u9" six_sessions) = activeSessions six_sessions)
  /\ (In "u5" (ids six_sessions) ->
      exists before closed after,
        activeSessions six_sessions = before ++ closed :: after
        /\ id closed = "u5"
        /\ activeSessions (handleTabClose "u5" "u9" six_sessions) = before ++ after)
  /\ (activeSessionId six_sessions <> "u5" ->
      activeSessionId (handleTabClose "u5" "u9" six_sessions) = activeSessionId six_sessions)
  /\ (activeSessionId six_sessions = "u5" ->
      last (ids (handleTabClose "u5" "u9" six_sessions))
      = Some (activeSessionId (handleTabClose "u5" "u9" six_sessions))).
Proof.
  apply (closing_a_tab_removes_just_that_session "u5" "u9" six_sessions).
  - exact NoDup_six_sessions.
  - vm_compute. lia.
Defined.

Lemma bounded_six_sessions : bounded six_sessions.
Proof. split; [vm_compute; lia | exact NoDup_six_sessions]. Qed.

Lemma loading_opens_or_switches_witness :
  ("t9" = "" -> handleLoadChat "t9" 8 six_sessions = six_sessions)
  /\ ("t9" <> "" ->
      activeSessionId (handleLoadChat "t9" 8 six_sessions) = "t9"
      /\ In "t9" (ids (handleLoadChat "t9" 8 six_sessions))
      /\ (In "t9" (ids six_sessions) ->
          ids (handleLoadChat "t9" 8 six_sessions) = ids six_sessions
          /\ (activeSessionId six_sessions <> "t9" ->
              handleLoadChat "t9" 8 six_sessions = handleTabClick "t9" 8 six_sessions))
      /\ (~ In "t9" (ids six_sessions) ->
          exists kept,
            activeSessions (handleLoadChat "t9" 8 six_sessions)
            = kept ++ [loadingSession "t9" 8]
            /\ (forall s, In s kept -> In s (activeSessions six_sessions))
            /\ (In (activeSessionId six_sessions) (ids six_sessions) ->
                In (activeSessionId six_sessions) (List.map id kept))
            /\ List.length (activeSessions (handleLoadChat "t9" 8 six_sessions))
               = Nat.min (Datatypes.S (List.length (activeSessions six_sessions)))
                         MAX_ACTIVE_SESSIONS)).
Proof.
  apply (loading_opens_or_switches "t9" 8 six_sessions). exact bounded_six_sessions.
Defined.

End SessionFacts.

(* ===================================================================== *)
(** * useWebSocket and Layout: sending, receiving and following the sessions *)
(* ===================================================================== *)

Module HookFacts.
Import Js JsFacts JSONFacts useChatSessions SharedWebSocketService Samples
  SharedWebSocketFacts ChatSessionsFacts.
Import ResponseCacheService.
Local Open Scope list_scope.
Local Arguments String.append !_ _ / : simpl nomatch.

(** ** What is sent *)

Lemma parse_frame threadId text image language :
  JSON.parse (JSON.stringify (JObj (Layout.frame threadId text image language)))
  = JSON.POk (JObj (Layout.frame threadId text image language)) "".
Proof.
  apply parse_stringify. unfold Layout.frame. cbn [JSON.printable List.map fst snd].
  split; [|split].
  - repeat (constructor; [cbn; intuition discriminate|]). constructor.
  - reflexivity.
  - cbn. unfold Layout.image_or_null.
    destruct image as [url|]; [destruct (String.eqb url "")|]; cbn; auto.
Qed.

Lemma parse_payload text image language :
  JSON.parse (Layout.payload text image language)
  = JSON.POk (JObj [("content", JStr text); ("image", Layout.image_or_null image);
                    ("language", JStr language)]) "".
Proof.
  apply parse_stringify. cbn [JSON.printable List.map fst snd].
  split; [|split].
  - repeat (constructor; [cbn; intuition discriminate|]). constructor.
  - reflexivity.
  - cbn. unfold Layout.image_or_null.
    destruct image as [url|]; [destruct (String.eqb url "")|]; cbn; auto.
Qed.

Lemma frame_of_payload threadId text image language w :
  frame_of threadId (Layout.payload text image language) w
  = Ret (JSON.stringify (JObj (Layout.frame threadId text image language))) w.
Proof.
  rewrite frame_of_spec, parse_payload. reflexivity.
Qed.

(** X26.  What [handleSend] sends arrives at the server as one frame:
    for a thread id that is not empty, the payload [Layout.payload]
    builds goes through the hook's [sendMessage] and the service; in a
    Leader whose socket is open the wire gains the JSON object with
    the content, the image or [null], the language and the thread id,
    and that text parses back to this object; a Follower posts
    [SEND_MESSAGE] and reports success; a Leader without a socket
    reports failure and changes nothing; with an empty thread id
    nothing is sent. *)
Theorem sent_message_reaches_the_server_tagged threadId text image language w :
  threadId <> "" ->
  (forall s, isLeader w = true -> socket w = Some s -> sockets w !! s = Some OPEN ->
     useWebSocket.sendMessage threadId (Layout.payload text image language) w
     = Ret true
         (set_wire (wire w ++ [(s, JSON.stringify
                                     (JObj (Layout.frame threadId text image language)))])
            w))
  /\ JSON.parse (JSON.stringify (JObj (Layout.frame threadId text image language)))
     = JSON.POk (JObj (Layout.frame threadId text image language)) ""
  /\ (isLeader w = false ->
      useWebSocket.sendMessage threadId (Layout.payload text image language) w
      = Ret true
          (set_channel
             (channel w ++ [SEND_MESSAGE threadId (Layout.payload text image language)
                              (tabId w)])
             w))
  /\ (isLeader w = true -> socket_open_or_connecting w = false ->
      useWebSocket.sendMessage threadId (Layout.payload text image language) w
      = Ret false w)
  /\ useWebSocket.sendMessage "" (Layout.payload text image language) w = Ret false w.
Proof.
  intros Hne.
  assert (Hhook : useWebSocket.sendMessage threadId (Layout.payload text image language) w
                  = match sendMessage threadId (Layout.payload text image language) w with
                    | Exn _ w' => Ret false w'
                    | r => r
                    end).
  { unfold useWebSocket.sendMessage, try_catch.
    replace (String.eqb threadId "") with false by (symmetry; now apply String.eqb_neq).
    reflexivity. }
  split; [|split; [apply parse_frame|split; [|split]]].
  - intros s Hl Hs Hopen. rewrite Hhook, (sendMessage_leader _ _ _ Hl).
    rewrite (_sendViaWebSocket_leader _ _ _ _ Hl (frame_of_payload _ _ _ _ _)).
    rewrite Hs. unfold readyState. now rewrite Hopen.
  - intros Hl. rewrite Hhook. unfold sendMessage.
    rewrite (bind_Ret (gets isLeader) _ w _ w eq_refl), Hl. reflexivity.
  - intros Hl Hbusy. rewrite Hhook, (sendMessage_leader _ _ _ Hl).
    rewrite (_sendViaWebSocket_leader _ _ _ _ Hl (frame_of_payload _ _ _ _ _)).
    destruct (socket w) as [s|] eqn:Hs; [|reflexivity].
    destruct (socket_open_or_connecting_false w s Hs Hbusy) as [-> | ->]; reflexivity.
  - reflexivity.
Qed.

(** ** The title of a new conversation *)

Lemma split_nonempty sep text : useWebSocket.split sep text <> [].
Proof.
  destruct text as [|c r]; cbn; [discriminate|].
  destruct (Ascii.eqb c sep); [discriminate|].
  destruct (useWebSocket.split sep r); discriminate.
Qed.

Lemma join_cons sep x l :
  JSON.join sep (x :: l)
  = match l with
    | [] => x
    | _ => (x ++ sep ++ JSON.join sep l)%string
    end.
Proof. destruct l; reflexivity. Qed.

Lemma firstn_nonempty {A} n (l : list A) : l <> [] -> firstn (Datatypes.S n) l <> [].
Proof. destruct l; [contradiction | rewrite firstn_cons; discriminate]. Qed.

Lemma spaces_app a b : Layout.spaces (a ++ b)%string = (Layout.spaces a + Layout.spaces b)%nat.
Proof. induction a as [|c a IH]; cbn; [reflexivity | rewrite IH; lia]. Qed.

Lemma first_pieces n : forall text,
  exists rest,
    text = (JSON.join " " (firstn (Datatypes.S n) (useWebSocket.split " " text)) ++ rest)%string
    /\ (rest = "" \/ exists r, rest = String " " r)
    /\ (Layout.spaces (JSON.join " " (firstn (Datatypes.S n) (useWebSocket.split " " text)))
        <= n)%nat
    /\ (rest <> "" ->
        Layout.spaces (JSON.join " " (firstn (Datatypes.S n) (useWebSocket.split " " text)))
        = n).
Proof.
  induction n as [|n IHn].
  - (* one piece: the text up to its first space *)
    induction text as [|c r IH].
    + exists "". cbn [useWebSocket.split]. rewrite firstn_cons, firstn_O.
      cbn. split; [reflexivity|]. split; [now left|]. split; [lia | congruence].
    + cbn [useWebSocket.split]. destruct (Ascii.eqb c " ") eqn:E.
      * apply Ascii.eqb_eq in E. subst c. exists (String " " r).
        rewrite firstn_cons, firstn_O. cbn.
        split; [reflexivity|]. split; [right; eauto|]. split; [lia | reflexivity].
      * destruct IH as (rest & Htext & Hrest & Hsp & Hfull).
        destruct (useWebSocket.split " " r) as [|piece pieces] eqn:Hs;
          [now destruct (split_nonempty " " r)|].
        rewrite !firstn_cons, !firstn_O in *. cbn [JSON.join] in *.
        exists rest. cbn [String.append].
        split; [now rewrite <- Htext|]. split; [exact Hrest|].
        cbn [Layout.spaces]. rewrite E. cbn. split; [exact Hsp | exact Hfull].
  - induction text as [|c r IH].
    + exists "". cbn [useWebSocket.split]. rewrite firstn_cons, firstn_nil.
      cbn. split; [reflexivity|]. split; [now left|]. split; [lia | congruence].
    + cbn [useWebSocket.split]. destruct (Ascii.eqb c " ") eqn:E.
      * apply Ascii.eqb_eq in E. subst c.
        destruct (IHn r) as (rest & Htext & Hrest & Hsp & Hfull).
        exists rest. rewrite firstn_cons, join_cons.
        destruct (firstn (Datatypes.S n) (useWebSocket.split " " r)) as [|x l] eqn:Hf;
          [now destruct (firstn_nonempty n _ (split_nonempty " " r))|].
        cbn [String.append]. split; [now rewrite <- Htext|]. split; [exact Hrest|].
        cbn [Layout.spaces Ascii.eqb Bool.eqb]. split; [lia|].
        intros H. rewrite (Hfull H). reflexivity.
      * destruct IH as (rest & Htext & Hrest & Hsp & Hfull).
        destruct (useWebSocket.split " " r) as [|piece pieces] eqn:Hs;
          [now destruct (split_nonempty " " r)|].
        exists rest. rewrite !firstn_cons, !join_cons in *.
        destruct (firstn (Datatypes.S n) pieces) as [|x l].
        -- cbn [String.append]. split; [now rewrite <- Htext|]. split; [exact Hrest|].
           cbn [Layout.spaces]. rewrite E. cbn. split; [exact Hsp | exact Hfull].
        -- cbn [String.append] in *. split; [now rewrite <- Htext|]. split; [exact Hrest|].
           cbn [Layout.spaces]. rewrite E. cbn [Nat.add]. split; [exact Hsp | exact Hfull].
Qed.

(** X27.  The title [handleSend] gives a conversation at its first
    message is the text up to its fourth space: the text is the title
    followed by nothing or by a rest that starts with a space, the
    title holds at most three spaces, a text with at most three spaces
    is its own title, and a conversation that has messages keeps its
    title. *)
Theorem title_is_the_text_up_to_its_fourth_space text :
  exists rest,
    text = (Layout.first_words text ++ rest)%string
    /\ (rest = "" \/ exists r, rest = String " " r)
    /\ (Layout.spaces (Layout.first_words text) <= 3)%nat
    /\ ((Layout.spaces text <= 3)%nat -> Layout.first_words text = text)
    /\ (forall s, messages s = [] -> Layout.newTitle s text = Layout.first_words text)
    /\ (forall s, messages s <> [] -> Layout.newTitle s text = title s).
Proof.
  destruct (first_pieces 3 text) as (rest & Htext & Hrest & Hsp & Hfull).
  exists rest. fold (Layout.first_words text) in *.
  split; [exact Htext|]. split; [exact Hrest|]. split; [exact Hsp|].
  split.
  - intros Hfew. destruct Hrest as [-> | [r ->]].
    + rewrite Htext at 2. clear. induction (Layout.first_words text); cbn; congruence.
    + exfalso. specialize (Hfull ltac:(discriminate)).
      rewrite Htext, spaces_app, Hfull in Hfew. cbn in Hfew. lia.
  - split.
    + intros s Hs. unfold Layout.newTitle. now rewrite Hs.
    + intros s Hs. unfold Layout.newTitle. destruct (messages s); [contradiction|reflexivity].
Qed.

(** ** Keeping the registered threads in step with the sessions *)

Lemma split_plain x : useWebSocket.plain x = true -> useWebSocket.split "," x = [x].
Proof.
  induction x as [|c x IH]; cbn; [reflexivity|].
  intros H. apply andb_true_iff in H as [Hc Hx]. apply negb_true_iff in Hc.
  rewrite Hc, (IH Hx). reflexivity.
Qed.

Lemma split_plain_app x rest :
  useWebSocket.plain x = true ->
  useWebSocket.split "," (x ++ String "," rest)%string = x :: useWebSocket.split "," rest.
Proof.
  induction x as [|c x IH]; cbn; [reflexivity|].
  intros H. apply andb_true_iff in H as [Hc Hx]. apply negb_true_iff in Hc.
  rewrite Hc, (IH Hx). reflexivity.
Qed.

Lemma currentThreadIds_join l :
  useWebSocket.plain_ids l ->
  useWebSocket.currentThreadIds (JSON.join "," l) = l.
Proof.
  unfold useWebSocket.plain_ids, useWebSocket.currentThreadIds.
  induction l as [|x [|y l] IH]; intros Hp.
  - reflexivity.
  - apply List.Forall_inv in Hp as [Hne Hx]. cbn [JSON.join].
    rewrite (split_plain x Hx). cbn.
    now replace (String.eqb x "") with false by (symmetry; now apply String.eqb_neq).
  - pose proof (List.Forall_inv Hp) as [Hne Hx]. apply List.Forall_inv_tail in Hp.
    rewrite join_cons. cbn [String.append].
    rewrite (split_plain_app x _ Hx). cbn [List.filter].
    replace (String.eqb x "") with false by (symmetry; now apply String.eqb_neq).
    cbn [negb]. f_equal. now apply IH.
Qed.

Lemma has_In t l : useWebSocket.has t l = true <-> In t l.
Proof.
  unfold useWebSocket.has. rewrite existsb_exists. split.
  - intros (x & Hx & E). apply String.eqb_eq in E. now subst.
  - intros H. exists t. split; [exact H | apply String.eqb_refl].
Qed.

Lemma delete_In x t l : In x (useWebSocket.delete t l) <-> In x l /\ x <> t.
Proof.
  unfold useWebSocket.delete. rewrite List.filter_In, negb_true_iff, String.eqb_neq.
  reflexivity.
Qed.

Lemma connectThread_adds t w :
  exists w',
    connectThread t w = Ret tt w'
    /\ activeThreads w' = {[t]} ∪ activeThreads w
    /\ isLeader w' = isLeader w /\ tabId w' = tabId w.
Proof.
  destruct (isLeader w) eqn:Hl.
  - rewrite (ConnectionFacts.connectThread_leader t w Hl).
    destruct (_scheduleConnect_returns (set_activeThreads ({[t]} ∪ activeThreads w) w))
      as (w' & -> & Ht & Hl' & _ & _ & Ha & _).
    exists w'. split; [reflexivity|]. rewrite Ha, Hl', Ht. cbn. auto.
  - unfold connectThread, bind at 1, modify.
    unfold bind at 1, gets. cbn [isLeader set_activeThreads]. rewrite Hl.
    unfold bind, gets, postMessage, modify. eexists. split; [reflexivity|]. cbn. auto.
Qed.

Lemma disconnectThread_removes t w :
  exists w',
    disconnectThread t w = Ret tt w'
    /\ activeThreads w' = activeThreads w ∖ {[t]}
    /\ isLeader w' = isLeader w /\ tabId w' = tabId w.
Proof.
  destruct (isLeader w) eqn:Hl.
  - rewrite (ConnectionFacts.disconnectThread_leader t w Hl).
    destruct (bool_decide _).
    + destruct (ConnectionFacts._scheduleDisconnect_eval
                  (set_activeThreads (activeThreads w ∖ {[t]}) w))
        as (w' & -> & (Ht & Hl' & _ & _ & Ha & _) & _).
      exists w'. split; [reflexivity|]. rewrite Ha, Hl', Ht. cbn. auto.
    + eexists. split; [reflexivity|]. cbn. auto.
  - unfold disconnectThread, bind at 1, modify.
    unfold bind at 1, gets. cbn [isLeader set_activeThreads]. rewrite Hl.
    unfold bind, gets, postMessage, modify. eexists. split; [reflexivity|]. cbn. auto.
Qed.

Lemma connect_new_spec threadIds : forall connected w,
  exists connected' w',
    useWebSocket.connect_new threadIds connected w = Ret connected' w'
    /\ (forall x, In x connected' <-> In x connected \/ In x threadIds)
    /\ (forall x, x ∈ activeThreads w' <->
                  x ∈ activeThreads w \/ (In x threadIds /\ ~ In x connected))
    /\ isLeader w' = isLeader w /\ tabId w' = tabId w.
Proof.
  induction threadIds as [|t rest IH]; intros connected w.
  - exists connected, w. split; [reflexivity|]. cbn. intuition.
  - cbn [useWebSocket.connect_new].
    destruct (useWebSocket.has t connected) eqn:Hhas.
    + apply has_In in Hhas.
      destruct (IH connected w) as (c' & w' & Hrun & Hc & Ha & Hl & Ht).
      exists c', w'. split; [exact Hrun|]. split.
      { intros x. rewrite Hc. cbn. intuition (subst; auto). }
      split; [|auto].
      intros x. rewrite Ha. cbn. intuition (subst; auto). contradiction.
    + assert (Hnot : ~ In t connected).
      { intros H. apply has_In in H. congruence. }
      destruct (connectThread_adds t w) as (w1 & Hw1 & Ha1 & Hl1 & Ht1).
      unfold bind at 1. rewrite Hw1.
      destruct (IH (connected ++ [t]) w1) as (c' & w' & Hrun & Hc & Ha & Hl & Ht).
      exists c', w'. split; [exact Hrun|]. split.
      { intros x. rewrite Hc, in_app_iff. cbn. intuition. }
      split; [|split; congruence].
      intros x. rewrite Ha, Ha1, elem_of_union, elem_of_singleton, in_app_iff. cbn.
      destruct (string_dec x t) as [-> | Hne]; intuition congruence.
Qed.

Lemma disconnect_removed_spec currentSet visit : forall connected w,
  exists connected' w',
    useWebSocket.disconnect_removed currentSet visit connected w = Ret connected' w'
    /\ (forall x, In x connected' <->
                  In x connected /\ ~ (In x visit /\ ~ In x currentSet))
    /\ (forall x, x ∈ activeThreads w' <->
                  x ∈ activeThreads w /\ ~ (In x visit /\ ~ In x currentSet))
    /\ isLeader w' = isLeader w /\ tabId w' = tabId w.
Proof.
  induction visit as [|t rest IH]; intros connected w.
  - exists connected, w. split; [reflexivity|]. cbn. intuition.
  - cbn [useWebSocket.disconnect_removed].
    destruct (useWebSocket.has t currentSet) eqn:Hhas.
    + apply has_In in Hhas.
      destruct (IH connected w) as (c' & w' & Hrun & Hc & Ha & Hl & Ht).
      exists c', w'. split; [exact Hrun|]. split.
      { intros x. rewrite Hc. cbn. intuition (subst; auto). }
      split; [|auto].
      intros x. rewrite Ha. cbn. intuition (subst; auto).
    + assert (Hnot : ~ In t currentSet).
      { intros H. apply has_In in H. congruence. }
      destruct (disconnectThread_removes t w) as (w1 & Hw1 & Ha1 & Hl1 & Ht1).
      unfold bind at 1. rewrite Hw1.
      destruct (IH (useWebSocket.delete t connected) w1)
        as (c' & w' & Hrun & Hc & Ha & Hl & Ht).
      exists c', w'. split; [exact Hrun|]. split.
      { intros x. rewrite Hc, delete_In. cbn.
        destruct (string_dec x t) as [-> | Hne]; intuition congruence. }
      split; [|split; congruence].
      intros x. rewrite Ha, Ha1, elem_of_difference, elem_of_singleton. cbn.
      destruct (string_dec x t) as [-> | Hne]; intuition congruence.
Qed.

Lemma unmount_spec connected : forall w,
  exists w',
    useWebSocket.unmount connected w = Ret [] w'
    /\ forall t, t ∈ activeThreads w' <-> t ∈ activeThreads w /\ ~ In t connected.
Proof.
  unfold useWebSocket.unmount.
  induction connected as [|c rest IH]; intros w.
  - exists w. split; [reflexivity|]. cbn. tauto.
  - destruct (disconnectThread_removes c w) as (w1 & Hw1 & Ha1 & _).
    destruct (IH w1) as (w' & Hrun & Ha).
    exists w'. split.
    + cbn [forEach]. unfold bind at 1, bind at 1. rewrite Hw1.
      unfold bind in Hrun. exact Hrun.
    + intros t. rewrite Ha, Ha1, elem_of_difference, elem_of_singleton. cbn.
      destruct (string_dec t c) as [-> | Hne]; intuition congruence.
Qed.

(** X28.  The effect that follows the sessions: when no session id is
    empty or holds a comma, one run leaves in [connectedThreadsRef]
    the ids of the sessions and no others; a thread joins the
    service's active threads when it has a session and was not
    connected, leaves them when it was connected and has no session
    any more, and is otherwise as before; if the active threads were
    the connected ones before, they are after; the tab keeps its
    role.  The cleanup on unmount then removes the connected threads
    from the active ones. *)
Theorem thread_sync_follows_the_open_sessions sessions connected w :
  useWebSocket.plain_ids (List.map id sessions) ->
  exists connected' w',
    useWebSocket.sync_threads (useWebSocket.activeThreadIds sessions) connected w
    = Ret connected' w'
    /\ (forall t, In t connected' <-> In t (List.map id sessions))
    /\ (forall t, t ∈ activeThreads w' <->
                  (t ∈ activeThreads w
                   \/ (In t (List.map id sessions) /\ ~ In t connected))
                  /\ (In t connected -> In t (List.map id sessions)))
    /\ ((forall t, t ∈ activeThreads w <-> In t connected) ->
        forall t, t ∈ activeThreads w' <-> In t connected')
    /\ isLeader w' = isLeader w
    /\ exists w'',
         useWebSocket.unmount connected' w' = Ret [] w''
         /\ forall t, t ∈ activeThreads w'' <-> t ∈ activeThreads w' /\ ~ In t connected'.
Proof.
  intros Hp. unfold useWebSocket.sync_threads, useWebSocket.activeThreadIds.
  rewrite (currentThreadIds_join _ Hp).
  set (current := List.map id sessions).
  destruct (connect_new_spec current connected w) as (c1 & w1 & Hrun1 & Hc1 & Ha1 & Hl1 & _).
  destruct (disconnect_removed_spec current c1 c1 w1)
    as (c2 & w2 & Hrun2 & Hc2 & Ha2 & Hl2 & _).
  exists c2, w2. split.
  { unfold bind. now rewrite Hrun1. }
  assert (Hconn : forall t, In t c2 <-> In t current).
  { intros t. rewrite Hc2, Hc1.
    destruct (in_dec string_dec t current); tauto. }
  assert (Hact : forall t, t ∈ activeThreads w2 <->
                           (t ∈ activeThreads w \/ (In t current /\ ~ In t connected))
                           /\ (In t connected -> In t current)).
  { intros t. rewrite Ha2, Ha1, Hc1.
    destruct (in_dec string_dec t current); destruct (in_dec string_dec t connected); tauto. }
  split; [exact Hconn|]. split; [exact Hact|]. split; [|split; [congruence|]].
  - intros Hinv t. rewrite Hact, Hconn, Hinv.
    destruct (in_dec string_dec t current); destruct (in_dec string_dec t connected); tauto.
  - apply unmount_spec.
Qed.

(** ** What a reply does to the page *)

Lemma map_session_other i f l s :
  In s l -> id s <> i -> In s (map_session i f l).
Proof.
  intros Hin Hne. unfold map_session. apply in_map_iff. exists s. split; [|exact Hin].
  unfold has_id. now replace (String.eqb (id s) i) with false
    by (symmetry; now apply String.eqb_neq).
Qed.

(** X29.  A reply for thread [t] is appended, as an assistant message
    stamped with the clock, to the sessions with id [t] and to no
    other, which also stop thinking; ids and order of the sessions
    stay, and with no session of that id the sessions are unchanged.
    A visible page leaves the storage alone; a hidden page also hands
    the reply to [cacheResponse].  Data [null] or a falsy thread id
    change nothing, and the handler never throws. *)
Theorem reply_is_appended_to_its_session_only t fields p :
  t <> "" ->
  let reply := JSON.get "reply" fields in
  let now := clock (useWebSocket.storage p) in
  let message := useWebSocket.assistant_message reply now in
  let sessions' := map_session t (useWebSocket.received message) (useWebSocket.sessions p) in
  (useWebSocket.hidden p = false ->
   useWebSocket.handleMessage (JStr t) (JObj fields) p
   = Ret tt (useWebSocket.set_sessions sessions' p))
  /\ (useWebSocket.hidden p = true ->
      forall b',
        ResponseCacheService.cacheResponse
          t (useWebSocket.cached_response (JStr t) reply now) (useWebSocket.storage p)
        = Ret tt b' ->
        useWebSocket.handleMessage (JStr t) (JObj fields) p
        = Ret tt (useWebSocket.mkPage sessions' b' true (useWebSocket.isTabVisible p)))
  /\ List.map id sessions' = List.map id (useWebSocket.sessions p)
  /\ (forall s, In s (useWebSocket.sessions p) -> id s <> t -> In s sessions')
  /\ (forall s, In s (useWebSocket.sessions p) -> id s = t ->
      exists s', In s' sessions' /\ id s' = t
                 /\ messages s' = messages s ++ [message] /\ isThinking s' = false)
  /\ ((forall s, In s (useWebSocket.sessions p) -> id s <> t) ->
      sessions' = useWebSocket.sessions p)
  /\ useWebSocket.handleMessage (JStr t) JNull p = Ret tt p
  /\ (forall threadId data,
        truthy (Some threadId) = false ->
        useWebSocket.handleMessage threadId data p = Ret tt p)
  /\ (forall threadId data,
        throws (useWebSocket.handleMessage threadId data p) = false).
Proof.
  intros Hne reply now message sessions'.
  assert (Ht : truthy (Some (JStr t)) = true).
  { cbn. now replace (String.eqb t "") with false by (symmetry; now apply String.eqb_neq). }
  split; [|split; [|split; [|split; [|split; [|split; [|split; [|split]]]]]]].
  - intros Hv. unfold useWebSocket.handleMessage, try_catch at 1. rewrite Ht. cbn [negb].
    unfold bind at 1, read_prop, ret. unfold bind at 1, gets. rewrite Hv.
    unfold bind at 1, useWebSocket.in_storage, zoom, Date_now, gets.
    destruct p as [ss b h v]; cbn in *. reflexivity.
  - intros Hh b' Hc. unfold useWebSocket.handleMessage, try_catch at 1. rewrite Ht. cbn [negb].
    unfold bind at 1, read_prop, ret. unfold bind at 1, gets. rewrite Hh.
    unfold bind at 1, useWebSocket.in_storage at 1, zoom, Date_now, gets.
    destruct p as [ss b h v]; cbn in *. subst h.
    unfold bind at 1, try_catch, bind at 1, useWebSocket.key_text, ret.
    unfold useWebSocket.in_storage, zoom.
    cbn [useWebSocket.storage useWebSocket.set_storage].
    fold reply. fold now. rewrite Hc. reflexivity.
  - apply map_session_ids. reflexivity.
  - intros s Hin Hs. now apply map_session_other.
  - intros s Hin Hs. exists (useWebSocket.received message s).
    split; [|cbn; auto].
    unfold sessions', map_session. apply in_map_iff. exists s. split; [|exact Hin].
    unfold has_id. rewrite Hs, String.eqb_refl. reflexivity.
  - intros Hnone. apply SessionFacts.map_session_absent.
    intros Hin. apply in_map_iff in Hin as (s & Hs & Hin). exact (Hnone s Hin Hs).
  - unfold useWebSocket.handleMessage, try_catch. now rewrite Ht.
  - intros threadId data Hf. unfold useWebSocket.handleMessage, try_catch. now rewrite Hf.
  - intros threadId data. apply CacheFacts.try_catch_total.
Qed.

(** ** Becoming visible again *)

Lemma nothing_to_read t b :
  (truthy_item (localStorage b !! _getCacheKey t) = false
   \/ exists text, localStorage b !! _getCacheKey t = Some text
                   /\ JSON.parse text = JSON.PSyntax) ->
  getAndClearCache t b = Ret [] b /\ hasPendingResponses t b = Ret false b.
Proof.
  intros [Hf | (text & Hget & Hsyn)].
  - split.
    + unfold getAndClearCache, try_catch, bind at 1, getItem, gets. now rewrite Hf.
    + unfold hasPendingResponses, bind at 1, getItem, gets. now rewrite Hf.
  - split; [now apply ResponseCacheFacts.getAndClearCache_corrupt with (text := text)|].
    unfold hasPendingResponses, bind at 1, getItem, gets. rewrite Hget.
    destruct (truthy_item (Some text)); cbn [negb default]; [|reflexivity].
    unfold try_catch, bind at 1. now rewrite (JSON_parse_syntax _ _ Hsyn).
Qed.

Lemma settled_map_session i l :
  Forall2 (fun s s' => s' = s \/ s' = useWebSocket.settled s) l
          (map_session i useWebSocket.settled l).
Proof.
  induction l as [|s l IH]; cbn; constructor; [|exact IH].
  destruct (has_id i s); auto.
Qed.

Lemma settled_refl l :
  Forall2 (fun s s' : Session => s' = s \/ s' = useWebSocket.settled s) l l.
Proof. induction l; constructor; auto. Qed.

Lemma settled_trans l1 : forall l2 l3,
  Forall2 (fun s s' => s' = s \/ s' = useWebSocket.settled s) l1 l2 ->
  Forall2 (fun s s' => s' = s \/ s' = useWebSocket.settled s) l2 l3 ->
  Forall2 (fun s s' => s' = s \/ s' = useWebSocket.settled s) l1 l3.
Proof.
  induction l1 as [|s l1 IH]; intros l2 l3 H12 H23.
  - inversion H12; subst. inversion H23; subst. constructor.
  - inversion H12 as [|? s2 ? l2' Hs Hl]; subst.
    inversion H23 as [|? s3 ? l3' Hs' Hl']; subst.
    constructor; [|now apply IH with (l2 := l2')].
    destruct Hs as [-> | ->]; destruct Hs' as [-> | ->]; auto.
Qed.

Lemma load_each_spec snapshot : forall p,
  (forall s text,
     In s snapshot ->
     localStorage (useWebSocket.storage p) !! _getCacheKey (id s) = Some text ->
     exists shape, has_shape text shape) ->
  exists p',
    useWebSocket.load_each snapshot p = Ret tt p'
    /\ Forall2 (fun s s' => s' = s \/ s' = useWebSocket.settled s)
               (useWebSocket.sessions p) (useWebSocket.sessions p')
    /\ useWebSocket.hidden p' = useWebSocket.hidden p
    /\ useWebSocket.isTabVisible p' = useWebSocket.isTabVisible p
    /\ clock (useWebSocket.storage p') = clock (useWebSocket.storage p)
    /\ (forall k, localStorage (useWebSocket.storage p') !! k
                  = localStorage (useWebSocket.storage p) !! k
                  \/ localStorage (useWebSocket.storage p') !! k = None)
    /\ (forall k, (forall s, In s snapshot -> k <> _getCacheKey (id s)) ->
                  localStorage (useWebSocket.storage p') !! k
                  = localStorage (useWebSocket.storage p) !! k)
    /\ (forall s, In s snapshot ->
                  truthy_item (localStorage (useWebSocket.storage p') !! _getCacheKey (id s))
                  = false
                  \/ exists text,
                       localStorage (useWebSocket.storage p') !! _getCacheKey (id s)
                       = Some text
                       /\ JSON.parse text = JSON.PSyntax).
Proof.
  induction snapshot as [|session rest IH]; intros p Hshape.
  - exists p. split; [reflexivity|]. split; [apply settled_refl|].
    repeat split; auto. intros s [].
  - destruct (CacheFacts.getAndClearCache_shaped (id session) (useWebSocket.storage p))
      as (rs & b1 & Hrun & Hb1 & Hspent).
    { intros text. apply Hshape. now left. }
    set (p1 := if (0 <? List.length rs)%nat
               then useWebSocket.set_sessions
                      (map_session (id session) useWebSocket.settled (useWebSocket.sessions p))
                      (useWebSocket.set_storage b1 p)
               else useWebSocket.set_storage b1 p).
    assert (Hstep : useWebSocket.load_each (session :: rest) p = useWebSocket.load_each rest p1).
    { cbn [useWebSocket.load_each]. unfold bind at 1, try_catch, bind at 1.
      unfold useWebSocket.in_storage, zoom. rewrite Hrun. unfold p1.
      destruct (0 <? List.length rs)%nat; reflexivity. }
    assert (Hst1 : useWebSocket.storage p1 = b1).
    { unfold p1. destruct (0 <? List.length rs)%nat; reflexivity. }
    assert (Hlook1 : forall k, localStorage b1 !! k = localStorage (useWebSocket.storage p) !! k
                               \/ localStorage b1 !! k = None).
    { intros k. destruct Hb1 as [-> | ->]; [now left|].
      unfold drained. cbn [localStorage].
      destruct (string_dec k (_getCacheKey (id session))) as [-> | Hk].
      - right. apply lookup_delete_eq.
      - left. now apply lookup_delete_ne. }
    assert (Hclock1 : clock b1 = clock (useWebSocket.storage p)).
    { destruct Hb1 as [-> | ->]; reflexivity. }
    destruct (IH p1) as (p' & Hrest & Hss & Hh & Hv & Hclock & Hlook & Hother & Hdone).
    { intros s text Hin. rewrite Hst1. intros Hget.
      destruct (Hlook1 (_getCacheKey (id s))) as [E | E]; rewrite E in Hget; [|discriminate].
      apply (Hshape s text); [now right | exact Hget]. }
    rewrite Hst1 in *.
    exists p'. split; [now rewrite Hstep|]. split.
    { apply settled_trans with (l2 := useWebSocket.sessions p1); [|exact Hss].
      unfold p1. destruct (0 <? List.length rs)%nat; cbn;
        [apply settled_map_session | apply settled_refl]. }
    split. { rewrite Hh. unfold p1. destruct (0 <? List.length rs)%nat; reflexivity. }
    split. { rewrite Hv. unfold p1. destruct (0 <? List.length rs)%nat; reflexivity. }
    split; [congruence|]. split.
    { intros k. destruct (Hlook k) as [E | E]; [|now right].
      rewrite E. apply Hlook1. }
    split.
    { intros k Hk. rewrite Hother by (intros s Hs; apply Hk; now right).
      destruct Hb1 as [-> | ->]; [reflexivity|].
      unfold drained. cbn [localStorage]. apply lookup_delete_ne.
      intros E. apply (Hk session); [now left | now symmetry]. }
    intros s [<- | Hin]; [|now apply Hdone].
    destruct (Hlook (_getCacheKey (id session))) as [E | E]; rewrite E; [exact Hspent|].
    now left.
Qed.

Lemma Forall2_settled_fields l l' :
  Forall2 (fun s s' => s' = s \/ s' = useWebSocket.settled s) l l' ->
  List.map id l' = List.map id l /\ List.map messages l' = List.map messages l.
Proof.
  induction 1 as [|s s' l l' Hs _ [IHi IHm]]; [now split|].
  cbn [List.map]. rewrite IHi, IHm. destruct Hs as [-> | ->]; now split.
Qed.

(** X30.  When a page whose cache cells have one of the known shapes
    becomes visible, the listener returns with the ref set; every
    session keeps its id and its messages (a session is at most marked
    as not thinking: what was cached is not inserted again); for every
    session nothing is pending afterwards and a further drain returns
    the empty list; storage keys that are not the cache key of a
    session are untouched.  Any other visibility change only updates
    the ref. *)
Theorem becoming_visible_drains_without_replaying p :
  useWebSocket.shaped_caches p ->
  useWebSocket.hidden p = false ->
  useWebSocket.isTabVisible p = false ->
  exists p',
    useWebSocket.handleVisibilityChange p = Ret tt p'
    /\ useWebSocket.isTabVisible p' = true
    /\ useWebSocket.hidden p' = false
    /\ Forall2 (fun s s' => s' = s \/ s' = useWebSocket.settled s)
               (useWebSocket.sessions p) (useWebSocket.sessions p')
    /\ List.map id (useWebSocket.sessions p') = List.map id (useWebSocket.sessions p)
    /\ List.map messages (useWebSocket.sessions p')
       = List.map messages (useWebSocket.sessions p)
    /\ (forall s, In s (useWebSocket.sessions p) ->
          getAndClearCache (id s) (useWebSocket.storage p')
          = Ret [] (useWebSocket.storage p')
          /\ hasPendingResponses (id s) (useWebSocket.storage p')
             = Ret false (useWebSocket.storage p'))
    /\ (forall k, (forall s, In s (useWebSocket.sessions p) -> k <> _getCacheKey (id s)) ->
          localStorage (useWebSocket.storage p') !! k
          = localStorage (useWebSocket.storage p) !! k)
    /\ (forall q, useWebSocket.isTabVisible q = true \/ useWebSocket.hidden q = true ->
          useWebSocket.handleVisibilityChange q
          = Ret tt (useWebSocket.set_isTabVisible (negb (useWebSocket.hidden q)) q)).
Proof.
  intros Hshape Hh Hv.
  destruct (load_each_spec (useWebSocket.sessions p) (useWebSocket.set_isTabVisible true p))
    as (p' & Hrun & Hss & Hh' & Hv' & _ & _ & Hother & Hdone).
  { intros s text Hin Hget. exact (Hshape s text Hin Hget). }
  exists p'. split.
  { unfold useWebSocket.handleVisibilityChange, bind at 1, gets.
    unfold bind at 1, gets. unfold bind at 1, modify. rewrite Hh, Hv. cbn [negb andb].
    unfold useWebSocket.loadCachedResponses, try_catch, bind at 1, gets.
    cbn [useWebSocket.sessions useWebSocket.set_isTabVisible]. now rewrite Hrun. }
  split; [exact Hv'|]. split; [now rewrite Hh'|]. split; [exact Hss|].
  destruct (Forall2_settled_fields _ _ Hss) as [Hi Hm].
  split; [exact Hi|]. split; [exact Hm|]. split.
  { intros s Hin. apply nothing_to_read. now apply Hdone. }
  split; [exact Hother|].
  intros q Hq. unfold useWebSocket.handleVisibilityChange, bind at 1, gets.
  unfold bind at 1, gets. unfold bind at 1, modify.
  destruct Hq as [-> | ->]; [reflexivity|].
  now rewrite andb_false_r.
Qed.

(** ** Instances *)

Lemma sent_message_reaches_the_server_tagged_witness :
  "abc" <> ""
  /\ useWebSocket.sendMessage "abc" hello_payload open_A
     = Ret true
         (set_wire
            (wire open_A
             ++ [(0%nat, JSON.stringify
                       (JObj (Layout.frame "abc" "hello there" None "English")))])
            open_A)
  /\ useWebSocket.sendMessage "abc" hello_payload leader_A = Ret false leader_A.
Proof.
  split; [discriminate|].
  destruct (sent_message_reaches_the_server_tagged "abc" "hello there" None "English" open_A)
    as (Hopen & _); [discriminate|].
  destruct (sent_message_reaches_the_server_tagged "abc" "hello there" None "English" leader_A)
    as (_ & _ & _ & Hidle & _); [discriminate|].
  split.
  - apply Hopen; reflexivity.
  - apply Hidle; reflexivity.
Defined.

Lemma thread_sync_follows_the_open_sessions_witness :
  useWebSocket.plain_ids ["abc"; "def"]
  /\ exists connected' w',
       useWebSocket.sync_threads "abc,def" ["abc"; "zzz"] connecting_A
       = Ret connected' w'
       /\ (forall t, In t connected' <-> In t ["abc"; "def"])
       /\ isLeader w' = true.
Proof.
  assert (Hp : useWebSocket.plain_ids ["abc"; "def"]).
  { repeat constructor; discriminate. }
  split; [exact Hp|].
  destruct (thread_sync_follows_the_open_sessions
              (useWebSocket.sessions hidden_page) ["abc"; "zzz"] connecting_A Hp)
    as (connected' & w' & Hrun & Hin & _ & _ & Hl & _).
  exists connected', w'. split; [exact Hrun|]. split; [exact Hin | exact Hl].
Defined.

Lemma reply_is_appended_to_its_session_only_witness :
  "abc" <> ""
  /\ useWebSocket.hidden hidden_page = true
  /\ exists b',
       cacheResponse "abc"
         (useWebSocket.cached_response (JStr "abc") (Some (JStr "hello")) 5000)
         (useWebSocket.storage hidden_page)
       = Ret tt b'
       /\ useWebSocket.handleMessage (JStr "abc") reply_data hidden_page
          = Ret tt
              (useWebSocket.mkPage
                 (map_session "abc"
                    (useWebSocket.received
                       (useWebSocket.assistant_message (Some (JStr "hello")) 5000))
                    (useWebSocket.sessions hidden_page))
                 b' true false).
Proof.
  split; [discriminate|]. split; [reflexivity|].
  eexists. split.
  - apply ResponseCacheFacts.cacheResponse_first. reflexivity.
  - destruct (reply_is_appended_to_its_session_only
                "abc" [("threadId", JStr "abc"); ("reply", JStr "hello")] hidden_page)
      as (_ & Hhidden & _); [discriminate|].
    apply Hhidden; [reflexivity|].
    apply ResponseCacheFacts.cacheResponse_first. reflexivity.
Defined.

Lemma returned_page_eq :
  returned_page
  = useWebSocket.mkPage
      (map_session "abc"
         (useWebSocket.received
            (useWebSocket.assistant_message (Some (JStr "hello")) 5000))
         (useWebSocket.sessions hidden_page))
      (mkBrowser
         (<[_getCacheKey "abc" :=
              JSON.stringify
                (JArr [entry_json
                         (mkCachedResponse
                            (useWebSocket.cached_response (JStr "abc")
                               (Some (JStr "hello")) 5000)
                            5000)])]> ∅)
         5000)
      false false.
Proof. vm_compute. reflexivity. Qed.

Lemma shaped_returned_page : useWebSocket.shaped_caches returned_page.
Proof.
  intros s text _. rewrite returned_page_eq. cbn [useWebSocket.storage localStorage].
  intros Hget.
  apply lookup_insert_Some in Hget as [[_ <-] | [_ Hget]].
  - exists (EntryList [mkCachedResponse
                         (useWebSocket.cached_response (JStr "abc")
                            (Some (JStr "hello")) 5000)
                         5000]).
    vm_compute. reflexivity.
  - rewrite lookup_empty in Hget. discriminate.
Qed.

Lemma becoming_visible_drains_without_replaying_witness :
  useWebSocket.hidden returned_page = false
  /\ useWebSocket.isTabVisible returned_page = false
  /\ exists p',
       useWebSocket.handleVisibilityChange returned_page = Ret tt p'
       /\ useWebSocket.isTabVisible p' = true
       /\ List.map messages (useWebSocket.sessions p')
          = [[useWebSocket.assistant_message (Some (JStr "hello")) 5000]; []]
       /\ hasPendingResponses "abc" (useWebSocket.storage p')
          = Ret false (useWebSocket.storage p').
Proof.
  split; [reflexivity|]. split; [reflexivity|].
  destruct (becoming_visible_drains_without_replaying returned_page
              shaped_returned_page eq_refl eq_refl)
    as (p' & Hrun & Hv & _ & _ & _ & Hm & Hdone & _).
  exists p'. split; [exact Hrun|]. split; [exact Hv|]. split; [exact Hm|].
  apply (Hdone (useWebSocket.received
                  (useWebSocket.assistant_message (Some (JStr "hello")) 5000)
                  (newSession "abc" 1))).
  left. reflexivity.
Defined.

End HookFacts.
